(** * Reranker evaluation engine: metrics and batch evaluator

    A shallow embedding of [src/utils/ragas_metrics.py] (class
    [RAGASMetrics]), [src/utils/batch_evaluator.py] (class
    [BatchEvaluator]), the document loop of
    [src/utils/answer_generator.py] and the retrieval client of
    [src/utils/api_caller.py], with the properties of the evaluation
    engine stated and proved over it.

    Conventions of the embedding.
    - A Python [str] is a list of Unicode code points ([char := N]); the
      Unicode tables Python consults ([str.isspace], [str.isdigit],
      [str.lower], ...) are the fields of the class [Unicode].
    - A Python [float] is an exact rational ([Q]); where pandas or the
      code produce [nan] or [inf] the type [pyfloat] is used.  Rounding
      is not modelled.
    - What the backend stores under a key of a passage is any JSON
      value ([passage_value]); the annotations of the metric functions
      ([List[str]]) are not checked at run time, so each of them that
      reads contexts comes twice: on lists of text, where it cannot
      raise, and on the values the evaluator really passes.
    - The network services (the judge model behind [_call_llm], the
      answer model, the two retrieval backends) are oracles over an
      abstract [World], threaded through every call in program order;
      the sentence embedder with its cosine similarity is a pure oracle.

    Note on [batch_evaluator.py]: [batch_evaluate],
    [_create_results_dataframe] and [generate_report] are written with
    method indentation after the module-level [batch_evaluate_separate];
    they are embedded here as the methods their signatures and their
    caller ([components/unified_comparison.py]) take them to be. *)

From stdpp Require Import gmap strings list fin_maps pretty.
From Stdlib Require Import QArith Qminmax Lia Lqa.

Open Scope Q_scope.

(** ** Python strings *)

Definition char := N.
Abbreviation str := (list char).

(** An ASCII literal of the source as a list of code points. *)
Definition lit (s : string) : str :=
  List.map Ascii.N_of_ascii (String.list_ascii_of_string s).

Definition nl : str := [10%N].

(** The Unicode database, as far as the two modules consult it. *)
Class Unicode := {
  isspace : char -> bool;      (* str.isspace / str.split() / str.strip() / regex \s *)
  isdigit : char -> bool;      (* str.isdigit on a one-character string *)
  isdecimal : char -> bool;    (* regex \d *)
  str_lower : str -> str;      (* str.lower *)
  str_upper : str -> str       (* str.upper *)
}.

(** [s.startswith(p)] *)
Fixpoint startswith (p s : str) : bool :=
  match p, s with
  | [], _ => true
  | _ :: _, [] => false
  | a :: p', b :: s' => (a =? b)%N && startswith p' s'
  end.

(** [p in s] *)
Fixpoint str_in (p s : str) : bool :=
  startswith p s ||
  match s with
  | [] => false
  | _ :: s' => str_in p s'
  end.

(** [s.split(sep)] for a one-character separator. *)
Fixpoint split_char (sep : char) (s : str) : list str :=
  match s with
  | [] => [[]]
  | c :: s' =>
      if (c =? sep)%N then [] :: split_char sep s'
      else match split_char sep s' with
           | h :: t => (c :: h) :: t
           | [] => [[c]]
           end
  end.

(** [sep.join(l)] *)
Fixpoint join (sep : str) (l : list str) : str :=
  match l with
  | [] => []
  | [x] => x
  | x :: rest => x ++ sep ++ join sep rest
  end.

Fixpoint drop_while {A} (f : A -> bool) (l : list A) : list A :=
  match l with
  | [] => []
  | x :: l' => if f x then drop_while f l' else l
  end.

Section PyStr.
Context {unicode : Unicode}.

(** [s.split()]: maximal runs of non-whitespace; [cur] is the run being
    read, reversed. *)
Fixpoint words (cur : str) (s : str) : list str :=
  match s with
  | [] => match cur with [] => [] | _ => [rev cur] end
  | c :: s' =>
      if isspace c
      then match cur with
           | [] => words [] s'
           | _ => rev cur :: words [] s'
           end
      else words (c :: cur) s'
  end.

Definition split_ws (s : str) : list str := words [] s.

(** [s.strip()] *)
Definition strip (s : str) : str :=
  rev (drop_while isspace (rev (drop_while isspace s))).

(** [re.sub(r'^\d+\.\s*', '', s)]: a leading run of decimal digits
    followed by a full stop is removed together with the whitespace
    after it; anything else is left alone. *)
Definition re_sub_numbering (s : str) : str :=
  match s with
  | c :: _ =>
      if isdecimal c then
        match drop_while isdecimal s with
        | d :: rest => if (d =? 46)%N then drop_while isspace rest else s
        | [] => s
        end
      else s
  | [] => s
  end.
End PyStr.

(** ** Numbers *)

Definition Qnat (n : nat) : Q := inject_Z (Z.of_nat n).

(** [sum(l)] *)
Definition Qsum (l : list Q) : Q := fold_left Qplus l 0.

(** [max(a, b)] and [min(a, b)] of Python: the first argument wins ties. *)
Definition py_max (a b : Q) : Q := if Qlt_le_dec a b then b else a.
Definition py_min (a b : Q) : Q := if Qlt_le_dec b a then b else a.

(** [a >= b] *)
Definition Qgeb (a b : Q) : bool := Qle_bool b a.

(** A float that may be [nan] or [inf]. *)
Inductive pyfloat :=
| Finite (q : Q)
| PosInf
| NaN.

(** ** External services *)

Inductive exn :=
| KeyError (key : string)
| AttributeError (what : string)
| ValueError (what : string)
| TypeError (what : string)
| ServiceError (what : string).

(** A JSON value stored under a key of a passage, as far as the code
    tells such values apart.  Text can be sliced and joined.  A list can
    be sliced but not joined; [shown] is the text Python prints for its
    first 500 items.  Any other value (null, a number, a boolean, an
    object) can be neither sliced nor joined: slicing it raises (a
    [TypeError]; on an object, from Python 3.12 on, a [KeyError], which
    no handler of this code tells apart). *)
Inductive passage_value :=
| Text (s : str)
| ListValue (shown : str)
| OtherValue.

(** One retrieved passage as the backend's JSON gives it: a dict, of
    which the code reads [content], [title] and [chunkNr] (each absent
    or holding any JSON value), or some other JSON value. *)
Record chunk_dict := {
  content : option passage_value;
  title : option passage_value;
  chunkNr : option passage_value
}.

Inductive chunk :=
| ChunkDict (d : chunk_dict)
| ChunkOther.

(** [results[system]] of [fetch_both_systems]. *)
Record SystemResult := {
  chunks : list chunk;
  time_ms : Q;
  error : option str
}.

(** One entry of [formatted_docs] in [generate_answer]. *)
Record formatted_doc := {
  source_text : passage_value;
  citation_index : nat;
  doc_title : passage_value;
  chunk_number : passage_value
}.

(** Code that talks to a service but cannot raise: a state monad over
    the world of the services. *)
Definition State (W A : Type) : Type := W -> A * W.

#[export] Instance state_ret W : MRet (State W) := fun A a w => (a, w).
#[export] Instance state_bind W : MBind (State W) :=
  fun A B f m w => let '(a, w') := m w in f a w'.

(** Code that can also raise. *)
Definition Exc (W A : Type) : Type := W -> (exn + A) * W.

#[export] Instance exc_ret W : MRet (Exc W) := fun A a w => (inr a, w).
#[export] Instance exc_bind W : MBind (Exc W) :=
  fun A B f m w =>
    match m w with
    | (inr a, w') => f a w'
    | (inl e, w') => (inl e, w')
    end.

Definition raise {W A} (e : exn) : Exc W A := fun w => (inl e, w).
Definition lift {W A} (m : State W A) : Exc W A :=
  fun w => let '(a, w') := m w in (inr a, w').
(** A value or an exception already at hand. *)
Definition of_result {W A} (r : exn + A) : Exc W A := fun w => (r, w).
(** [try: body except Exception: handler] *)
Definition try_except {W A} (body : Exc W A) (handler : exn -> Exc W A) : Exc W A :=
  fun w =>
    match body w with
    | (inr a, w') => (inr a, w')
    | (inl e, w') => handler e w'
    end.

Class Services := {
  World : Type;
  (** [RAGASMetrics._call_llm]: one judge call; every failure is turned
      into the empty string inside it, so it always returns text. *)
  call_llm : str -> State World str;
  (** [cosine_similarity(embedder.encode([a]), embedder.encode([b]))[0][0]] *)
  embedding_cosine : str -> str -> Q;
  (** The chat completion inside [AnswerGenerator.generate_answer], given
      the question and the documents rendered into the user message; the
      call catches its own failures and returns text. *)
  answer_llm : str -> list formatted_doc -> State World str;
  (** [VectorServiceCaller.fetch_both_systems(query, folder_ids,
      unique_titles, top_k)]: the pair (original, reranked), or an
      exception escaping the client. *)
  fetch_both_systems :
    str -> list str -> list str -> nat -> Exc World (SystemResult * SystemResult)
}.

(** ** The metrics engine ([ragas_metrics.py]) *)

(** [answer_correctness] as [calculate_answer_correctness] returns it. *)
Record Correctness := {
  f1_score : Q;
  semantic_similarity : Q;
  standard_correctness : Q;
  advanced_correctness : Q;
  all_facts_present : bool
}.

Module RAGASMetrics.
Section Metrics.
Context {unicode : Unicode} {services : Services}.

Definition indent8 : str := lit "        ".
Definition indent12 : str := lit "            ".

(** The prompt of step 1 of [calculate_faithfulness]. *)
Definition claims_prompt (answer : str) : str :=
  lit "Extract all factual claims from this answer. " ++ nl ++
  indent8 ++ lit "List each claim on a new line, numbered." ++ nl ++
  indent8 ++ nl ++
  indent8 ++ lit "Answer: " ++ answer ++ nl ++
  indent8 ++ nl ++
  indent8 ++ lit "Claims:".

(** The prompt of step 2, for one claim. *)
Definition verify_prompt (context_text claim_text : str) : str :=
  lit "Based on the following context, can this claim be verified as true?" ++ nl ++
  indent12 ++ lit "Answer only 'YES' or 'NO'." ++ nl ++
  indent12 ++ nl ++
  indent12 ++ lit "Context: " ++ take 3000 context_text ++ nl ++
  indent12 ++ nl ++
  indent12 ++ lit "Claim: " ++ claim_text ++ nl ++
  indent12 ++ nl ++
  indent12 ++ lit "Answer:".

(** [[c.strip() for c in claims_text.split('\n') if c.strip() and c[0].isdigit()]] *)
Definition is_claim_line (c : str) : bool :=
  match strip c, c with
  | _ :: _, c0 :: _ => isdigit c0
  | _, _ => false
  end.

Definition extract_claims (claims_text : str) : list str :=
  List.map strip (List.filter is_claim_line (split_char 10%N claims_text)).

(** One turn of [for claim in claims]: the judge's verdict on a claim. *)
Definition verify_claim (context_text claim : str) : State World bool :=
  let claim_text := re_sub_numbering claim in
  answer ← call_llm (verify_prompt context_text claim_text);
  let verification := str_upper (strip answer) in
  mret (str_in (lit "YES") verification).

(** The loop, with the running counter [supported_claims]. *)
Fixpoint verify_claims (context_text : str) (claims : list str)
    (supported_claims : nat) : State World nat :=
  match claims with
  | [] => mret supported_claims
  | claim :: rest =>
      yes ← verify_claim context_text claim;
      verify_claims context_text rest
        (if yes : bool then S supported_claims else supported_claims)
  end.

Definition calculate_faithfulness (answer : str) (contexts : list str)
    : State World Q :=
  claims_text ← call_llm (claims_prompt answer);
  let claims := extract_claims claims_text in
  match claims with
  | [] => mret 1
  | _ :: _ =>
      let context_text := join nl contexts in
      supported_claims ← verify_claims context_text claims 0;
      mret (Qnat supported_claims / Qnat (length claims))
  end.

Definition questions_prompt (answer : str) : str :=
  lit "Based on this answer, generate 3 questions that this answer would address." ++ nl ++
  indent8 ++ lit "List each question on a new line." ++ nl ++
  indent8 ++ nl ++
  indent8 ++ lit "Answer: " ++ answer ++ nl ++
  indent8 ++ nl ++
  indent8 ++ lit "Questions:".

(** [[q.strip() for q in text.split('\n') if q.strip()]] *)
Definition nonblank (q : str) : bool :=
  match strip q with [] => false | _ :: _ => true end.

Definition stripped_lines (text : str) : list str :=
  List.map strip (List.filter nonblank (split_char 10%N text)).

(** [float(np.mean(l))] on a non-empty list. *)
Definition np_mean (l : list Q) : Q := Qsum l / Qnat (length l).

Definition calculate_answer_relevancy (question answer : str)
    : State World Q :=
  generated_questions ← call_llm (questions_prompt answer);
  let questions := stripped_lines generated_questions in
  match questions with
  | [] => mret (1 # 2)
  | _ :: _ =>
      let similarities := List.map (embedding_cosine question) questions in
      mret (np_mean similarities)
  end.

(** The prompt of [calculate_context_precision]; [shown] is what the
    f-string renders for [context[:500]]. *)
Definition relevance_prompt (question shown : str) : str :=
  lit "Is this context relevant for answering the question?" ++ nl ++
  indent12 ++ lit "Answer only 'YES' or 'NO'." ++ nl ++
  indent12 ++ nl ++
  indent12 ++ lit "Question: " ++ question ++ nl ++
  indent12 ++ lit "Context: " ++ shown ++ nl ++
  indent12 ++ nl ++
  indent12 ++ lit "Answer:".

(** [for i, context in enumerate(contexts[:k], 1)], collecting
    [relevant_positions] in order. *)
Fixpoint judge_positions (question : str) (contexts : list str) (i : nat)
    : State World (list nat) :=
  match contexts with
  | [] => mret []
  | context :: rest =>
      answer ← call_llm (relevance_prompt question (take 500 context));
      let relevance := str_upper (strip answer) in
      later ← judge_positions question rest (S i);
      mret (if str_in (lit "YES") relevance then i :: later else later)
  end.

Definition calculate_context_precision (question : str)
    (contexts : list str) (k : nat) : State World Q :=
  relevant_positions ← judge_positions question (take k contexts) 1;
  match relevant_positions with
  | [] => mret 0
  | _ :: _ =>
      let precision_score :=
        Qsum (List.map (fun pos => 1 / Qnat pos) relevant_positions) / Qnat k in
      mret (py_min precision_score 1)
  end.

(** [sum(1 for term in key_terms if term in text)] *)
Definition count_found (key_terms : list str) (text : str) : nat :=
  length (List.filter (fun term => str_in term text) key_terms).

(** The body after the debug prints; it makes no service call. *)
Definition calculate_context_recall (ground_truth : str)
    (contexts : list str) : Q :=
  match contexts with
  | [] => 0
  | _ :: _ =>
      let ground_truth_lower := str_lower ground_truth in
      let context_text_lower := str_lower (join (lit " ") contexts) in
      let key_terms := take 5 (split_ws ground_truth_lower) in
      let found_terms := count_found key_terms context_text_lower in
      if (0 <? found_terms)%nat
      then Qnat found_terms / Qnat (length key_terms)
      else 0
  end.

Definition facts_prompt (text : str) : str :=
  lit "Extract all factual statements from this text." ++ nl ++
  indent12 ++ lit "List each fact on a new line." ++ nl ++
  indent12 ++ nl ++
  indent12 ++ lit "Text: " ++ text ++ nl ++
  indent12 ++ nl ++
  indent12 ++ lit "Facts:".

(** The inner function [extract_facts]. *)
Definition extract_facts (text : str) : State World (list str) :=
  facts_text ← call_llm (facts_prompt text);
  mret (stripped_lines facts_text).

(** The F1-like score of two fact lists. *)
Definition fact_f1 (answer_facts truth_facts : list str) : Q :=
  match answer_facts, truth_facts with
  | [], [] => 1
  | [], _ :: _ | _ :: _, [] => 0
  | _ :: _, _ :: _ =>
      let answer_set : gset str := list_to_set answer_facts in
      let truth_set : gset str := list_to_set truth_facts in
      let tp := size (answer_set ∩ truth_set) in
      let fp := size (answer_set ∖ truth_set) in
      let fn := size (truth_set ∖ answer_set) in
      let precision := if (0 <? tp + fp)%nat then Qnat tp / Qnat (tp + fp) else 0 in
      let recall := if (0 <? tp + fn)%nat then Qnat tp / Qnat (tp + fn) else 0 in
      if Qlt_le_dec 0 (precision + recall)
      then 2 * precision * recall / (precision + recall)
      else 0
  end.

(** [[word for word in ground_truth_lower.split() if len(word) > 3]] *)
Definition key_terms_of (ground_truth_lower : str) : list str :=
  List.filter (fun word => (3 <? length word)%nat) (split_ws ground_truth_lower).

(** [found_terms / len(key_terms) if key_terms else 0] *)
Definition term_coverage (answer ground_truth : str) : Q :=
  let key_terms := key_terms_of (str_lower ground_truth) in
  let found_terms := count_found key_terms (str_lower answer) in
  match key_terms with
  | [] => 0
  | _ :: _ => Qnat found_terms / Qnat (length key_terms)
  end.

Definition calculate_answer_correctness (answer ground_truth : str)
    : State World Correctness :=
  answer_facts ← extract_facts answer;
  truth_facts ← extract_facts ground_truth;
  let f1_score := fact_f1 answer_facts truth_facts in
  let semantic_sim := embedding_cosine answer ground_truth in
  let coverage := term_coverage answer ground_truth in
  let advanced_correctness :=
    if Qgeb coverage (8 # 10)
    then py_max (8 # 10) (f1_score * (3 # 10) + semantic_sim * (7 # 10))
    else f1_score * (5 # 10) + semantic_sim * (5 # 10) in
  mret {| f1_score := f1_score;
          semantic_similarity := semantic_sim;
          standard_correctness := f1_score * (5 # 10) + semantic_sim * (5 # 10);
          advanced_correctness := advanced_correctness;
          all_facts_present := Qgeb coverage (8 # 10) |}.

(** *** Contexts that are not text

    The annotation [contexts: List[str]] is not checked at run time, and
    the evaluator passes as contexts whatever the backend stored under
    [content].  The definitions above are the methods on lists of text,
    where they cannot raise; the ones below are the same bodies on
    arbitrary values, raising at the first operation that needs text. *)

(** The items of a list when all of them are text. *)
Fixpoint texts_of (values : list passage_value) : option (list str) :=
  match values with
  | [] => Some []
  | Text s :: rest =>
      match texts_of rest with
      | Some texts => Some (s :: texts)
      | None => None
      end
  | _ :: _ => None
  end.

(** [sep.join(values)]: a [TypeError] unless every item is text. *)
Definition join_values (sep : str) (values : list passage_value) : exn + str :=
  match texts_of values with
  | Some texts => inr (join sep texts)
  | None => inl (TypeError "join")
  end.

(** [value[:500]] as an f-string renders it. *)
Definition slice500 (value : passage_value) : exn + str :=
  match value with
  | Text s => inr (take 500 s)
  | ListValue shown => inr shown
  | OtherValue => inl (TypeError "subscript")
  end.

(** [calculate_faithfulness]: the join is reached only when the answer
    has claims. *)
Definition calculate_faithfulness_any (answer : str)
    (contexts : list passage_value) : Exc World Q :=
  claims_text ← lift (call_llm (claims_prompt answer));
  let claims := extract_claims claims_text in
  match claims with
  | [] => mret 1
  | _ :: _ =>
      context_text ← of_result (join_values nl contexts);
      supported_claims ← lift (verify_claims context_text claims 0);
      mret (Qnat supported_claims / Qnat (length claims))
  end.

(** The loop of [calculate_context_precision]: the contexts before the
    first one that cannot be sliced are still put to the judge. *)
Fixpoint judge_positions_any (question : str) (contexts : list passage_value)
    (i : nat) : Exc World (list nat) :=
  match contexts with
  | [] => mret []
  | context :: rest =>
      shown ← of_result (slice500 context);
      answer ← lift (call_llm (relevance_prompt question shown));
      let relevance := str_upper (strip answer) in
      later ← judge_positions_any question rest (S i);
      mret (if str_in (lit "YES") relevance then i :: later else later)
  end.

Definition calculate_context_precision_any (question : str)
    (contexts : list passage_value) (k : nat) : Exc World Q :=
  relevant_positions ← judge_positions_any question (take k contexts) 1;
  match relevant_positions with
  | [] => mret 0
  | _ :: _ =>
      let precision_score :=
        Qsum (List.map (fun pos => 1 / Qnat pos) relevant_positions) / Qnat k in
      mret (py_min precision_score 1)
  end.

(** [calculate_context_recall]: the debug line slices [contexts[0]],
    then the join needs every context to be text. *)
Definition calculate_context_recall_any (ground_truth : str)
    (contexts : list passage_value) : exn + Q :=
  match contexts with
  | [] => inr 0
  | OtherValue :: _ => inl (TypeError "subscript")
  | _ :: _ =>
      match texts_of contexts with
      | Some texts => inr (calculate_context_recall ground_truth texts)
      | None => inl (TypeError "join")
      end
  end.
End Metrics.
End RAGASMetrics.

(** ** The batch evaluator ([batch_evaluator.py]) *)

(** The [metrics] dict built by [evaluate_single_question]. *)
Record MetricSet := {
  faithfulness : Q;
  answer_relevancy : Q;
  context_precision : Q;
  context_recall : Q;
  answer_correctness : Correctness;
  response_time_ms : Q;
  answer : str;
  refused_to_answer : bool
}.

(** A value stored in an evaluation dict. *)
Inductive value :=
| VStr (s : str)
| VMetrics (m : MetricSet).

(** The two variants, in the order of [for system in ['original', 'reranked']]. *)
Inductive system := Original | Reranked.

Definition system_name (s : system) : string :=
  match s with Original => "original" | Reranked => "reranked" end.

(** [f'{system}_metrics'] *)
Definition metrics_key (s : system) : string := system_name s +:+ "_metrics".

(** One row of the results table. *)
Record Row := {
  row_question_id : value;
  row_system : string;
  row_faithfulness : Q;
  row_answer_relevancy : Q;
  row_context_precision : Q;
  row_context_recall : Q;
  row_answer_correctness_standard : Q;
  row_answer_correctness_advanced : Q;
  row_semantic_similarity : Q;
  row_response_time_ms : Q;
  row_refused_to_answer : bool
}.

(** A pandas DataFrame of such rows: its column labels and its rows.
    [pd.DataFrame()] has neither. *)
Record DataFrame := {
  columns : list string;
  rows : list Row
}.

Definition row_columns : list string :=
  ["question_id"; "system"; "faithfulness"; "answer_relevancy";
   "context_precision"; "context_recall"; "answer_correctness_standard";
   "answer_correctness_advanced"; "semantic_similarity"; "response_time_ms";
   "refused_to_answer"].

(** The columns [mean(numeric_only=True)] keeps, in column order: the
    float columns and the boolean one. *)
Definition numeric_columns : list string :=
  ["faithfulness"; "answer_relevancy"; "context_precision"; "context_recall";
   "answer_correctness_standard"; "answer_correctness_advanced";
   "semantic_similarity"; "response_time_ms"; "refused_to_answer"].

(** The number a numeric column holds in a row ([True] counts 1). *)
Definition cell (column : string) (r : Row) : Q :=
  if String.eqb column "faithfulness" then row_faithfulness r
  else if String.eqb column "answer_relevancy" then row_answer_relevancy r
  else if String.eqb column "context_precision" then row_context_precision r
  else if String.eqb column "context_recall" then row_context_recall r
  else if String.eqb column "answer_correctness_standard" then row_answer_correctness_standard r
  else if String.eqb column "answer_correctness_advanced" then row_answer_correctness_advanced r
  else if String.eqb column "semantic_similarity" then row_semantic_similarity r
  else if String.eqb column "response_time_ms" then row_response_time_ms r
  else if row_refused_to_answer r then 1 else 0.

(** [scipy.stats.ttest_rel(a, b)]: the statistic and the p-value, or the
    exception the library raises. *)
Class SciPy := {
  ttest_rel : list Q -> list Q -> exn + (pyfloat * pyfloat)
}.

(** [x == 0] on a float. *)
Definition float_is_zero (x : pyfloat) : bool :=
  match x with
  | Finite q => Qeq_bool q 0
  | _ => false
  end.

(** Arithmetic on column means, which are finite or [nan]: [nan] is
    contagious. *)
Definition float_lift2 (f : Q -> Q -> Q) (x y : pyfloat) : pyfloat :=
  match x, y with
  | Finite a, Finite b => Finite (f a b)
  | _, _ => NaN
  end.

(** [x < q] for a float [x]; false on [nan]. *)
Definition float_ltb (x : pyfloat) (q : Q) : bool :=
  match x with
  | Finite a => negb (Qle_bool q a)
  | _ => false
  end.

Record Significance := {
  t_stat : pyfloat;
  p_value : pyfloat;
  significant : bool
}.

Record MissStatistics := {
  original_misses : nat;
  original_miss_rate : Q;
  reranked_misses : nat;
  reranked_miss_rate : Q;
  miss_reduction : Z
}.

Record Report := {
  original_metrics : gmap string pyfloat;
  reranked_metrics : gmap string pyfloat;
  improvements : gmap string pyfloat;
  statistical_significance : gmap string Significance;
  total_questions : nat;
  miss_statistics : option MissStatistics
}.

Module BatchEvaluator.
Section Evaluator.
Context {unicode : Unicode} {services : Services} {scipy : SciPy}.

Definition english_patterns : list str :=
  [lit "do not provide information";
   lit "do not contain information";
   lit "cannot answer";
   lit "can't answer";
   lit "unable to answer";
   lit "no information found";
   lit "could not find";
   lit "not found in the documents";
   lit "documents don't contain";
   lit "if you could provide more context"].

(** [252] is the code point of the u-umlaut of "nicht verfuegbar". *)
Definition german_patterns : list str :=
  [lit "keine information";
   lit "nicht gefunden";
   lit "kann nicht beantworten";
   lit "keine antwort";
   lit "nicht in den dokumenten";
   lit "dokumente enthalten nicht";
   lit "nicht verf" ++ [252%N] ++ lit "gbar";
   lit "keine angaben";
   lit "wenn sie mehr kontext"].

Definition is_refusal_answer (answer : str) : bool :=
  let answer_lower := str_lower answer in
  existsb (fun pattern => str_in pattern answer_lower)
          (english_patterns ++ german_patterns).

(** [d[key]] on a dict. *)
Definition getitem {V} (d : gmap string V) (key : string) : exn + V :=
  match d !! key with
  | Some v => inr v
  | None => inl (KeyError key)
  end.

(** The loop of [AnswerGenerator.generate_answer] that builds
    [formatted_docs]; [chunk.get] on an entry that is no dict raises. *)
Fixpoint format_docs (i : nat) (chunks : list chunk) : exn + list formatted_doc :=
  match chunks with
  | [] => inr []
  | ChunkOther :: _ => inl (AttributeError "get")
  | ChunkDict d :: rest =>
      match format_docs (S i) rest with
      | inl e => inl e
      | inr docs =>
          inr ({| source_text := default (Text []) (content d);
                  citation_index := i;
                  doc_title := default (Text []) (title d);
                  chunk_number := default (Text []) (chunkNr d) |} :: docs)
      end
  end.

Definition generate_answer (question : str) (chunks : list chunk)
    : Exc World str :=
  formatted_docs ← of_result (format_docs 1 chunks);
  lift (answer_llm question formatted_docs).

(** [results[system]] *)
Definition result_of (results : SystemResult * SystemResult) (s : system)
    : SystemResult :=
  match s with Original => fst results | Reranked => snd results end.

(** Truth value of [results[system].get('error')]: [None] and the empty
    string are false. *)
Definition has_error (r : SystemResult) : bool :=
  match error r with
  | Some (_ :: _) => true
  | _ => false
  end.

(** [[chunk.get('content', '') for chunk in chunks if isinstance(chunk, dict)]] *)
Fixpoint contexts_of (chunks : list chunk) : list passage_value :=
  match chunks with
  | [] => []
  | ChunkDict d :: rest => default (Text []) (content d) :: contexts_of rest
  | ChunkOther :: rest => contexts_of rest
  end.

(** The body of the [try] for one system: [None] stands for a
    [continue] before the metrics are attached.  [chunks] is a list by
    its type, as [fetch_both_systems] always builds one, so the
    [isinstance(chunks, list)] test has no branch here.  The contexts
    are the values under [content] as they are, so the metric calls that
    read them can raise. *)
Definition system_body (question ground_truth : str) (r : SystemResult)
    : Exc World (option MetricSet) :=
  if has_error r then mret None
  else
    match chunks r with
    | [] => mret None
    | _ :: _ =>
        match contexts_of (chunks r) with
        | [] => mret None
        | (_ :: _) as contexts =>
            answer ← generate_answer question (chunks r);
            faithfulness ← RAGASMetrics.calculate_faithfulness_any answer contexts;
            answer_relevancy ← lift (RAGASMetrics.calculate_answer_relevancy question answer);
            context_precision ← RAGASMetrics.calculate_context_precision_any question contexts 5;
            context_recall ←
              of_result (RAGASMetrics.calculate_context_recall_any ground_truth contexts);
            answer_correctness ← lift (RAGASMetrics.calculate_answer_correctness answer ground_truth);
            mret (Some {| faithfulness := faithfulness;
                          answer_relevancy := answer_relevancy;
                          context_precision := context_precision;
                          context_recall := context_recall;
                          answer_correctness := answer_correctness;
                          response_time_ms := time_ms r;
                          answer := answer;
                          refused_to_answer := is_refusal_answer answer |})
        end
    end.

(** One turn of [for system in ['original', 'reranked']]. *)
Definition process_system (question ground_truth : str)
    (results : SystemResult * SystemResult) (s : system)
    (evaluation : gmap string value) : Exc World (gmap string value) :=
  try_except
    (m ← system_body question ground_truth (result_of results s);
     mret (match m with
           | Some metrics => <[metrics_key s := VMetrics metrics]> evaluation
           | None => evaluation
           end))
    (fun _ => mret evaluation).

Definition evaluate_single_question (question_data : gmap string str)
    (folder_ids unique_titles : list str) : Exc World (gmap string value) :=
  question ← of_result (getitem question_data "question");
  ground_truth ← of_result (getitem question_data "ground_truth");
  results ← fetch_both_systems question folder_ids unique_titles 10;
  question_id ← of_result (getitem question_data "id");
  let evaluation : gmap string value :=
    <["ground_truth" := VStr ground_truth]>
      (<["question" := VStr question]>
         (<["question_id" := VStr question_id]> ∅)) in
  evaluation ← process_system question ground_truth results Original evaluation;
  process_system question ground_truth results Reranked evaluation.

(** The rows one result contributes, for the systems in [systems]. *)
Fixpoint rows_of_result (result : gmap string value) (systems : list system)
    : exn + list Row :=
  match systems with
  | [] => inr []
  | s :: rest =>
      match result !! metrics_key s with
      | None => rows_of_result result rest
      | Some metrics =>
          match getitem result "question_id", metrics with
          | inl e, _ => inl e
          | inr _, VStr _ => inl (AttributeError "get")
          | inr qid, VMetrics m =>
              match rows_of_result result rest with
              | inl e => inl e
              | inr more =>
                  inr ({| row_question_id := qid;
                          row_system := system_name s;
                          row_faithfulness := faithfulness m;
                          row_answer_relevancy := answer_relevancy m;
                          row_context_precision := context_precision m;
                          row_context_recall := context_recall m;
                          row_answer_correctness_standard :=
                            standard_correctness (answer_correctness m);
                          row_answer_correctness_advanced :=
                            advanced_correctness (answer_correctness m);
                          row_semantic_similarity :=
                            semantic_similarity (answer_correctness m);
                          row_response_time_ms := response_time_ms m;
                          row_refused_to_answer := refused_to_answer m |} :: more)
              end
          end
      end
  end.

(** [metrics_data] after the loop over [results]. *)
Fixpoint metrics_data_of (results : list (gmap string value)) : exn + list Row :=
  match results with
  | [] => inr []
  | result :: rest =>
      match rows_of_result result [Original; Reranked] with
      | inl e => inl e
      | inr here =>
          match metrics_data_of rest with
          | inl e => inl e
          | inr later => inr (here ++ later)
          end
      end
  end.

Definition _create_results_dataframe (results : list (gmap string value))
    : exn + DataFrame :=
  match metrics_data_of results with
  | inl e => inl e
  | inr [] => inr {| columns := []; rows := [] |}
  | inr ((_ :: _) as metrics_data) =>
      inr {| columns := row_columns; rows := metrics_data |}
  end.

(** [for i, question_data in enumerate(questions, 1)]; the progress
    line reads [question_data['id']] outside the [try]. *)
Fixpoint evaluate_all (questions : list (gmap string str))
    (folder_ids unique_titles : list str)
    (all_results : list (gmap string value))
    : Exc World (list (gmap string value)) :=
  match questions with
  | [] => mret all_results
  | question_data :: rest =>
      _ ← of_result (getitem question_data "id");
      all_results ←
        try_except
          (result ← evaluate_single_question question_data folder_ids unique_titles;
           mret (all_results ++ [result]))
          (fun _ => mret all_results);
      evaluate_all rest folder_ids unique_titles all_results
  end.

Definition batch_evaluate (questions : list (gmap string str))
    (folder_ids unique_titles : list str)
    : Exc World (DataFrame * list (gmap string value)) :=
  all_results ← evaluate_all questions folder_ids unique_titles [];
  df ← of_result (_create_results_dataframe all_results);
  mret (df, all_results).

(** [df[column]]: a label that is no column raises [KeyError]. *)
Definition require_column (df : DataFrame) (column : string) : exn + unit :=
  if bool_decide (column ∈ columns df) then inr () else inl (KeyError column).

(** The rows of [df[df['system'] == name]]. *)
Definition system_rows (df : DataFrame) (s : system) : list Row :=
  List.filter (fun r => String.eqb (row_system r) (system_name s)) (rows df).

(** The mean of one numeric column over some rows; [nan] over none. *)
Definition column_mean (column : string) (rs : list Row) : pyfloat :=
  match rs with
  | [] => NaN
  | _ :: _ => Finite (Qsum (List.map (cell column) rs) / Qnat (length rs))
  end.

(** [frame.mean(numeric_only=True)] for the rows [rs] of [df], as the
    Series of (label, mean) pairs. *)
Definition mean_numeric_only (df : DataFrame) (rs : list Row)
    : list (string * pyfloat) :=
  List.map (fun column => (column, column_mean column rs))
    (List.filter (fun column => bool_decide (column ∈ columns df)) numeric_columns).

(** [series[label]] *)
Fixpoint series_get (series : list (string * pyfloat)) (label : string)
    : exn + pyfloat :=
  match series with
  | [] => inl (KeyError label)
  | (l, v) :: rest => if String.eqb l label then inr v else series_get rest label
  end.

(** The three-way branch that fills [improvements[metric]]. *)
Definition improvement (original_val reranked_val : pyfloat) : pyfloat :=
  if float_is_zero original_val then
    if float_is_zero reranked_val then Finite 0
    else PosInf
  else
    float_lift2 Qmult
      (float_lift2 Qdiv (float_lift2 Qminus reranked_val original_val) original_val)
      (Finite 100).

(** [for metric in original_metrics.index], filling [improvements]. *)
Fixpoint improvements_of (index : list (string * pyfloat))
    (reranked : list (string * pyfloat)) (improvements : gmap string pyfloat)
    : exn + gmap string pyfloat :=
  match index with
  | [] => inr improvements
  | (metric, original_val) :: rest =>
      if String.eqb metric "response_time_ms"
      then improvements_of rest reranked improvements
      else
        match series_get reranked metric with
        | inl e => inl e
        | inr reranked_val =>
            improvements_of rest reranked
              (<[metric := improvement original_val reranked_val]> improvements)
        end
  end.

Definition core_metrics : list string :=
  ["faithfulness"; "answer_relevancy"; "context_precision"; "context_recall"].

(** [df[df['system'] == name][metric].values] *)
Definition column_values (df : DataFrame) (s : system) (metric : string)
    : exn + list Q :=
  match require_column df metric with
  | inl e => inl e
  | inr _ => inr (List.map (cell metric) (system_rows df s))
  end.

(** The loop over the four core metrics, filling [significance]. *)
Fixpoint significance_of (df : DataFrame) (metrics : list string)
    (significance : gmap string Significance) : exn + gmap string Significance :=
  match metrics with
  | [] => inr significance
  | metric :: rest =>
      match column_values df Original metric with
      | inl e => inl e
      | inr original_values =>
          match column_values df Reranked metric with
          | inl e => inl e
          | inr reranked_values =>
              match ttest_rel reranked_values original_values with
              | inl e => inl e
              | inr (t, p) =>
                  significance_of df rest
                    (<[metric := {| t_stat := t; p_value := p;
                                    significant := float_ltb p (5 # 100) |}]>
                       significance)
              end
          end
      end
  end.

(** [df.empty] *)
Definition df_empty (df : DataFrame) : bool :=
  match columns df, rows df with
  | _ :: _, _ :: _ => false
  | _, _ => true
  end.

(** [df[(df['system'] == name) & (df['refused_to_answer'] == True)].shape[0]] *)
Definition misses (df : DataFrame) (s : system) : nat :=
  length (List.filter (fun r => row_refused_to_answer r) (system_rows df s)).

Definition miss_statistics_of (df : DataFrame) : MissStatistics :=
  let original_misses := misses df Original in
  let reranked_misses := misses df Reranked in
  let total_questions := (length (rows df) / 2)%nat in
  {| original_misses := original_misses;
     original_miss_rate :=
       if (0 <? total_questions)%nat
       then Qnat original_misses / Qnat total_questions * 100 else 0;
     reranked_misses := reranked_misses;
     reranked_miss_rate :=
       if (0 <? total_questions)%nat
       then Qnat reranked_misses / Qnat total_questions * 100 else 0;
     miss_reduction := (Z.of_nat original_misses - Z.of_nat reranked_misses)%Z |}.

Definition generate_report (df : DataFrame) : exn + Report :=
  match require_column df "system" with
  | inl e => inl e
  | inr _ =>
      let original_metrics := mean_numeric_only df (system_rows df Original) in
      let reranked_metrics := mean_numeric_only df (system_rows df Reranked) in
      match improvements_of original_metrics reranked_metrics ∅ with
      | inl e => inl e
      | inr improvements =>
          match significance_of df core_metrics ∅ with
          | inl e => inl e
          | inr significance =>
              inr {| original_metrics := list_to_map original_metrics;
                     reranked_metrics := list_to_map reranked_metrics;
                     improvements := improvements;
                     statistical_significance := significance;
                     total_questions := (length (rows df) / 2)%nat;
                     miss_statistics :=
                       if df_empty df then None
                       else Some (miss_statistics_of df) |}
          end
      end
  end.
End Evaluator.
End BatchEvaluator.

Import RAGASMetrics BatchEvaluator.

(** ** The retrieval client ([api_caller.py]) *)

(** A JSON response body, as deep as [_normalize_documents] looks into
    it: an object whose values are lists of passages, objects (whose
    values are lists of passages or something else) or something else;
    or a body that is no object. *)
Inductive json_inner :=
| InnerList (items : list chunk)
| InnerOther.

Inductive json_value :=
| JList (items : list chunk)
| JDict (d : gmap string json_inner)
| JOther.

Inductive json_body :=
| BodyDict (d : gmap string json_value)
| BodyOther.

(** What the code reads of a [requests.Response]; [json] is the result
    of [resp.json()], the message of its exception on the left. *)
Record Response := {
  status_code : Z;
  text : str;
  json : str + json_body
}.

(** The JSON payload of a retrieval request. *)
Record Payload := {
  prompt : str;
  topK : nat;
  folderIds : list str;
  uniqueTitles : list str
}.

(** The network as the client sees it.  [requests_post] is one
    [requests.post(url, json=payload, timeout=timeout)], [true] standing
    for the reranked URL and [false] for the original one; it answers
    with the message of the exception raised, or with the response and
    the milliseconds measured around the call.  [time_sleep] is
    [time.sleep]. *)
Class Http (W : Type) := {
  requests_post : bool -> Payload -> nat -> State W (str + Response * Q);
  time_sleep : Q -> W -> W
}.

(** The dict [fetch_chunks] returns, by its keys. *)
Record FetchResponse := {
  fr_error : option str;
  fr_documents : option (list chunk);
  fr_raw : option (str + json_body)
}.

Module VectorServiceCaller.
Section Client.
Context {W : Type} {http : Http W}.

(** [last_err or "unknown error"] *)
Definition or_unknown (last_err : str) : str :=
  match last_err with
  | [] => lit "unknown error"
  | _ :: _ => last_err
  end.

(** The [while attempt <= retries] loop of [_post_with_retries];
    [remaining] is [retries - attempt].  The result is the triple
    (response, time_ms, error_str). *)
Fixpoint post_loop (url : bool) (payload : Payload) (timeout : nat)
    (backoff : Q) (remaining attempt : nat)
    : State W (option Response * Q * option str) :=
  fun w =>
    match requests_post url payload timeout w with
    | (inr (resp, ms), w1) => ((Some resp, ms, None), w1)
    | (inl last_err, w1) =>
        match remaining with
        | O => ((None, 0, Some (or_unknown last_err)), w1)
        | S remaining' =>
            post_loop url payload timeout backoff remaining' (S attempt)
              (time_sleep (backoff * inject_Z (2 ^ Z.of_nat attempt)) w1)
        end
    end.

Definition _post_with_retries (url : bool) (payload : Payload) (timeout retries : nat)
    (backoff : Q) : State W (option Response * Q * option str) :=
  post_loop url payload timeout backoff retries 0.

(** The first of [keys] under which [d] holds a list. *)
Fixpoint first_list (keys : list string) (d : gmap string json_value)
    : option (list chunk) :=
  match keys with
  | [] => None
  | key :: rest =>
      match d !! key with
      | Some (JList items) => Some items
      | _ => first_list rest d
      end
  end.

Fixpoint first_inner_list (keys : list string) (d : gmap string json_inner)
    : option (list chunk) :=
  match keys with
  | [] => None
  | key :: rest =>
      match d !! key with
      | Some (InnerList items) => Some items
      | _ => first_inner_list rest d
      end
  end.

Definition _normalize_documents (resp_json : json_body) : list chunk :=
  match resp_json with
  | BodyOther => []
  | BodyDict d =>
      match first_list ["Documents"; "documents"; "results"; "data"] d with
      | Some items => items
      | None =>
          match d !! "data" with
          | Some (JDict data) =>
              match first_inner_list ["Documents"; "documents"; "results"] data with
              | Some items => items
              | None => []
              end
          | _ => []
          end
      end
  end.

(** [(resp.text[:500] + "...") if len(resp.text) > 500 else resp.text] *)
Definition text_preview_of (resp : Response) : str :=
  if (500 <? length (text resp))%nat
  then take 500 (text resp) ++ lit "..."
  else text resp.

(** [x or []] for an optional list. *)
Definition or_empty (x : option (list str)) : list str := default [] x.

Definition fetch_chunks (query : str) (folder_ids unique_titles : option (list str))
    (top_k : nat) (use_reranker : bool) : Exc W (FetchResponse * Q) :=
  let payload := {| prompt := query; topK := top_k;
                    folderIds := or_empty folder_ids;
                    uniqueTitles := or_empty unique_titles |} in
  '(resp, time_ms, err) ← lift (_post_with_retries use_reranker payload 30 1 (1 # 2));
  match err with
  | Some err =>
      mret ({| fr_error := Some (lit "Request failed: " ++ err);
               fr_documents := None; fr_raw := None |}, time_ms)
  | None =>
      match resp with
      | None => raise (AttributeError "status_code")
      | Some resp =>
          let status := status_code resp in
          let text_preview := text_preview_of resp in
          if negb (status =? 200)%Z
          then mret ({| fr_error := Some (lit "Status " ++ lit (pretty status) ++
                                          lit ": " ++ text_preview);
                        fr_documents := None; fr_raw := None |}, time_ms)
          else
            match json resp with
            | inl e =>
                mret ({| fr_error := Some (lit "Invalid JSON: " ++ e);
                         fr_documents := None;
                         fr_raw := Some (inl text_preview) |}, time_ms)
            | inr resp_json =>
                let docs := _normalize_documents resp_json in
                match docs, resp_json with
                | [], BodyOther => raise (AttributeError "keys")
                | _, _ =>
                    mret ({| fr_error := None; fr_documents := Some docs;
                             fr_raw := Some (inr resp_json) |}, time_ms)
                end
            end
      end
  end.

(** [response.get('Documents', response.get('chunks', []))]: no response
    of [fetch_chunks] has a [chunks] key. *)
Definition chunks_of (response : FetchResponse) : list chunk :=
  default [] (fr_documents response).

Definition fetch_both_systems (query : str) (folder_ids unique_titles : option (list str))
    (top_k : nat) : Exc W (SystemResult * SystemResult) :=
  '(original_response, original_time) ←
     fetch_chunks query folder_ids unique_titles top_k false;
  '(reranked_response, reranked_time) ←
     fetch_chunks query folder_ids unique_titles top_k true;
  mret ({| chunks := chunks_of original_response;
           time_ms := original_time;
           error := fr_error original_response |},
        {| chunks := chunks_of reranked_response;
           time_ms := reranked_time;
           error := fr_error reranked_response |}).
End Client.
End VectorServiceCaller.

(** The services of an evaluator whose retrieval goes through the client
    above. *)
Definition with_client {W : Type} (http : Http W) (judge : str -> State W str)
    (cosine : str -> str -> Q) (answerer : str -> list formatted_doc -> State W str)
    : Services :=
  {| World := W;
     call_llm := judge;
     embedding_cosine := cosine;
     answer_llm := answerer;
     fetch_both_systems := fun query folder_ids unique_titles top_k =>
       VectorServiceCaller.fetch_both_systems query (Some folder_ids)
         (Some unique_titles) top_k |}.

(** ** Specification-side notions *)

(** [t] occurs literally somewhere in [text]. *)
Definition occurs (t text : str) : Prop := exists a b, text = a ++ t ++ b.

Definition count_true (l : list bool) : nat :=
  length (List.filter (fun b => b) l).

(** The mean of the entries that are present; [nan] when none is. *)
Definition skip_missing_mean (l : list (option Q)) : pyfloat :=
  match omap (fun x => x) l with
  | [] => NaN
  | (_ :: _) as present => Finite (Qsum present / Qnat (length present))
  end.

(** The number a numeric column of the table takes from a metric set. *)
Definition metric_cell (column : string) (m : MetricSet) : Q :=
  if String.eqb column "faithfulness" then faithfulness m
  else if String.eqb column "answer_relevancy" then answer_relevancy m
  else if String.eqb column "context_precision" then context_precision m
  else if String.eqb column "context_recall" then context_recall m
  else if String.eqb column "answer_correctness_standard"
    then standard_correctness (answer_correctness m)
  else if String.eqb column "answer_correctness_advanced"
    then advanced_correctness (answer_correctness m)
  else if String.eqb column "semantic_similarity"
    then semantic_similarity (answer_correctness m)
  else if String.eqb column "response_time_ms" then response_time_ms m
  else if refused_to_answer m then 1 else 0.

(** What a record carries for a variant in a column, if it carries that
    variant's metrics at all. *)
Definition carried (s : system) (column : string) (record : gmap string value)
    : option Q :=
  match record !! metrics_key s with
  | Some (VMetrics m) => Some (metric_cell column m)
  | _ => None
  end.

(** A record as [evaluate_single_question] builds it: it has a
    [question_id], and what sits under a metrics key is a metric set. *)
Definition well_formed_record (record : gmap string value) : Prop :=
  is_Some (record !! "question_id") /\
  forall s v, record !! metrics_key s = Some v -> exists m, v = VMetrics m.

(** A passage with non-empty content, the reading of "usable" that also
    looks at the content: a dict whose [content] is there and is not the
    empty string. *)
Definition has_content (c : chunk) : bool :=
  match c with
  | ChunkDict d =>
      match content d with
      | None | Some (Text []) => false
      | Some _ => true
      end
  | ChunkOther => false
  end.

(** A passage whose content, if it is a dict and has one, is text. *)
Definition textual (c : chunk) : bool :=
  match c with
  | ChunkDict d =>
      match content d with
      | None | Some (Text _) => true
      | Some _ => false
      end
  | ChunkOther => true
  end.

Definition is_dict (c : chunk) : bool :=
  match c with ChunkDict _ => true | ChunkOther => false end.

(** A question dict with the three keys the evaluator reads. *)
Definition question_with (question_data : gmap string str) (id q gt : str) : Prop :=
  question_data !! "id" = Some id /\
  question_data !! "question" = Some q /\
  question_data !! "ground_truth" = Some gt.

(** The record before any metrics are attached. *)
Definition base_record (id q gt : str) : gmap string value :=
  <["ground_truth" := VStr gt]>
    (<["question" := VStr q]> (<["question_id" := VStr id]> ∅)).

Section JudgeVerdicts.
Context {unicode : Unicode} {services : Services}.

(** The judge's verdicts on the claims, asked one after the other. *)
Fixpoint verdicts (context_text : str) (claims : list str)
    : State World (list bool) :=
  match claims with
  | [] => mret []
  | claim :: rest =>
      yes ← verify_claim context_text claim;
      more ← verdicts context_text rest;
      mret (yes :: more)
  end.

(** The faithfulness protocol spelled out, request by request.  First
    the judge is asked for the claims of the answer. *)
Definition extraction_request (answer : str) : str :=
  lit "Extract all factual claims from this answer. " ++ nl ++
  lit "        List each claim on a new line, numbered." ++ nl ++
  lit "        " ++ nl ++
  lit "        Answer: " ++ answer ++ nl ++
  lit "        " ++ nl ++
  lit "        Claims:".

(** The claims are the lines of the reply that start with a digit and
    are not blank, stripped. *)
Definition numbered_lines (reply : str) : list str :=
  List.map strip
    (List.filter
       (fun line => match line with
                    | first :: _ =>
                        isdigit first && match strip line with [] => false | _ => true end
                    | [] => false
                    end)
       (split_char 10%N reply)).

(** Then, for each claim, the judge is shown a context text [shown] and
    the claim without its numbering. *)
Definition entailment_request (shown claim : str) : str :=
  lit "Based on the following context, can this claim be verified as true?" ++ nl ++
  lit "            Answer only 'YES' or 'NO'." ++ nl ++
  lit "            " ++ nl ++
  lit "            Context: " ++ shown ++ nl ++
  lit "            " ++ nl ++
  lit "            Claim: " ++ re_sub_numbering claim ++ nl ++
  lit "            " ++ nl ++
  lit "            Answer:".

(** A claim counts as entailed when the stripped, upper-cased reply
    contains YES; the requests are made in the order of the claims. *)
Fixpoint entailment_verdicts (shown : str) (claims : list str)
    : State World (list bool) :=
  match claims with
  | [] => mret []
  | claim :: rest =>
      reply ← call_llm (entailment_request shown claim);
      more ← entailment_verdicts shown rest;
      mret (str_in (lit "YES") (str_upper (strip reply)) :: more)
  end.
End JudgeVerdicts.

(** The claim about faithfulness read literally: the judge is shown the
    concatenated contexts, all of them. *)
Definition judged_on_whole_contexts : Prop :=
  forall (unicode : Unicode) (services : Services)
         (answer : str) (contexts : list str) (w : World),
    let claims := numbered_lines (fst (call_llm (extraction_request answer) w)) in
    let w1 := snd (call_llm (extraction_request answer) w) in
    let entailed :=
      count_true (fst (entailment_verdicts (join nl contexts) claims w1)) in
    claims <> [] ->
    fst (calculate_faithfulness answer contexts w) ==
    Qnat entailed / Qnat (length claims).

(** The condition under which a variant's metrics end up in the record:
    no error, at least one passage, every passage a dict, and every
    content that is there text. *)
Definition attaches (r : SystemResult) : bool :=
  negb (has_error r) &&
  match chunks r with [] => false | _ :: _ => true end &&
  forallb is_dict (chunks r) &&
  forallb textual (chunks r).

(** The record of a question, given what retrieval returned for it. *)
Definition evaluation_of (id q gt : str) (results : SystemResult * SystemResult)
    (record : gmap string value) : Prop :=
  record !! "question_id" = Some (VStr id) /\
  record !! "question" = Some (VStr q) /\
  record !! "ground_truth" = Some (VStr gt) /\
  forall s,
    if attaches (result_of results s)
    then exists m, record !! metrics_key s = Some (VMetrics m)
    else record !! metrics_key s = None.

Section RecordSpec.
Context {services : Services}.

(** [record] is what the evaluator owes the question [question_data]:
    retrieval returned [results] for its text at some point, and for
    each variant the metrics key is absent when that variant reported
    an error, gave no dict-shaped passage, or gave a passage whose
    content is no text, and present when it reported no error and gave
    passages that are all dicts with text (or no) content. *)
Definition record_for (folder_ids unique_titles : list str)
    (question_data : gmap string str) (record : gmap string value) : Prop :=
  exists id q gt results w0 w1,
    question_with question_data id q gt /\
    fetch_both_systems q folder_ids unique_titles 10 w0 = (inr results, w1) /\
    forall s,
      let r := result_of results s in
      (has_error r = true \/ contexts_of (chunks r) = [] \/
       forallb textual (chunks r) = false ->
       record !! metrics_key s = None) /\
      (has_error r = false -> chunks r <> [] -> forallb is_dict (chunks r) = true ->
       forallb textual (chunks r) = true ->
       exists m, record !! metrics_key s = Some (VMetrics m)).
End RecordSpec.

(** The reading of "no usable passages" that looks at the content: a
    variant all of whose passages lack content gets no metrics key. *)
Definition omitted_without_content : Prop :=
  forall (unicode : Unicode) (services : Services)
         (question_data : gmap string str) (folder_ids unique_titles : list str)
         (w w1 w2 : World) (q : str) (results : SystemResult * SystemResult)
         (record : gmap string value) (s : system),
    question_data !! "question" = Some q ->
    fetch_both_systems q folder_ids unique_titles 10 w = (inr results, w1) ->
    evaluate_single_question question_data folder_ids unique_titles w =
      (inr record, w2) ->
    existsb has_content (chunks (result_of results s)) = false ->
    record !! metrics_key s = None.

(** Every score in the closed unit interval, for any embedder whose
    cosines lie in [-1,1]. *)
Definition scores_in_unit_interval : Prop :=
  forall (unicode : Unicode) (services : Services)
         (question answer ground_truth : str) (contexts : list str) (w : World),
    (forall a b, -1 <= embedding_cosine a b <= 1) ->
    let c := fst (calculate_answer_correctness answer ground_truth w) in
    0 <= fst (calculate_faithfulness answer contexts w) <= 1 /\
    0 <= fst (calculate_answer_relevancy question answer w) <= 1 /\
    0 <= fst (calculate_context_precision question contexts 5 w) <= 1 /\
    0 <= calculate_context_recall ground_truth contexts <= 1 /\
    0 <= standard_correctness c <= 1 /\
    0 <= advanced_correctness c <= 1.

(** ** Concrete services for the examples *)

Definition ascii_isspace (c : char) : bool :=
  ((9 <=? c) && (c <=? 13) || (28 <=? c) && (c <=? 32))%N.
Definition ascii_isdigit (c : char) : bool := ((48 <=? c) && (c <=? 57))%N.
Definition ascii_lower (c : char) : char :=
  if ((65 <=? c) && (c <=? 90))%N then (c + 32)%N else c.
Definition ascii_upper (c : char) : char :=
  if ((97 <=? c) && (c <=? 122))%N then (c - 32)%N else c.

(** The tables restricted to ASCII text. *)
Definition ascii_unicode : Unicode :=
  {| isspace := ascii_isspace;
     isdigit := ascii_isdigit;
     isdecimal := ascii_isdigit;
     str_lower := List.map ascii_lower;
     str_upper := List.map ascii_upper |}.

Definition pop (w : list str) : str * list str :=
  match w with
  | [] => ([], [])
  | reply :: w' => (reply, w')
  end.

(** Services that replay a script: the world is the list of replies the
    two language models still have to give; retrieval and the embedder
    are tables. *)
Definition scripted (cosine : str -> str -> Q)
    (fetch : str -> exn + (SystemResult * SystemResult)) : Services :=
  {| World := list str;
     call_llm := fun _ => pop;
     embedding_cosine := cosine;
     answer_llm := fun _ _ => pop;
     fetch_both_systems := fun query _ _ _ w => (fetch query, w) |}.

(** An embedder whose cosine is 1 between equal texts and slightly
    negative between different ones. *)
Definition unrelated_cosine (a b : str) : Q :=
  if bool_decide (a = b) then 1 else - (1 # 10).

Definition no_retrieval (query : str) : exn + (SystemResult * SystemResult) :=
  inl (ServiceError "no backend").

(** A relevancy run: the judge reconstructs one question, unrelated to
    the one asked. *)
Definition weather_services : Services := scripted unrelated_cosine no_retrieval.
Definition weather_question : str := lit "What is the capital of France?".
Definition weather_answer : str := lit "It will rain tomorrow.".
Definition weather_script : list str := [lit "Will it rain tomorrow?"].

(** A faithfulness run: the judge lists two claims, confirms the first
    and rejects the second. *)
Definition claims_services : Services := scripted unrelated_cosine no_retrieval.
Definition claims_answer : str := lit "Paris is the capital. It has 5 million people.".
Definition claims_contexts : list str := [lit "Paris is the capital of France."].
Definition claims_script : list str :=
  [lit "1. Paris is the capital." ++ nl ++ lit "2. Paris has 5 million people.";
   lit "Yes";
   lit "No"].

(** A ground truth whose words all occur in a longer answer. *)
Definition covered_truth : str := lit "Paris is the capital of France".
Definition covering_answer : str :=
  lit "According to the documents, Paris is the capital of France [1].".

(** Three questions; for the second one the reranked backend fails. *)
Definition passage (text : string) : chunk :=
  ChunkDict {| content := Some (Text (lit text)); title := Some (Text (lit "doc"));
               chunkNr := None |}.

Definition found_result : SystemResult :=
  {| chunks := [passage "Paris is the capital of France."]; time_ms := 120; error := None |}.
Definition failed_result : SystemResult :=
  {| chunks := []; time_ms := 0; error := Some (lit "Request failed: timed out") |}.
(** A backend answer whose only passage is a dict with empty content. *)
Definition blank_result : SystemResult :=
  {| chunks := [ChunkDict {| content := Some (Text []); title := None; chunkNr := None |}];
     time_ms := 80; error := None |}.
(** A backend answer with a usable passage and one whose content is a
    JSON null. *)
Definition null_content_result : SystemResult :=
  {| chunks := [passage "Paris is the capital of France.";
                ChunkDict {| content := Some OtherValue; title := None; chunkNr := None |}];
     time_ms := 95; error := None |}.

Definition make_question (id question ground_truth : string) : gmap string str :=
  <["id" := lit id]>
    (<["question" := lit question]> (<["ground_truth" := lit ground_truth]> ∅)).

Definition question1 : gmap string str :=
  make_question "q1" "What is the capital of France?" "Paris is the capital of France".
Definition question2 : gmap string str :=
  make_question "q2" "What is the capital of Italy?" "Rome is the capital of Italy".
Definition question3 : gmap string str :=
  make_question "q3" "What is the capital of Spain?" "Madrid is the capital of Spain".

Definition second_fails (query : str) : exn + (SystemResult * SystemResult) :=
  if bool_decide (query = lit "What is the capital of Italy?")
  then inr (found_result, failed_result)
  else inr (found_result, found_result).

Definition batch_services : Services := scripted unrelated_cosine second_fails.

(** Retrieval where the reranked backend returns the blank passage. *)
Definition blank_services : Services :=
  scripted unrelated_cosine (fun _ => inr (found_result, blank_result)).

(** Records of three questions of which the second lacks the reranked
    metrics. *)
Definition scores (f : Q) : MetricSet :=
  {| faithfulness := f;
     answer_relevancy := 1 # 2;
     context_precision := 1 # 5;
     context_recall := 1;
     answer_correctness :=
       {| f1_score := 0; semantic_similarity := 1 # 2;
          standard_correctness := 1 # 4; advanced_correctness := 1 # 4;
          all_facts_present := false |};
     response_time_ms := 100;
     answer := lit "Paris.";
     refused_to_answer := false |}.

Definition record_both (id : string) (o r : Q) : gmap string value :=
  <["reranked_metrics" := VMetrics (scores r)]>
    (<["original_metrics" := VMetrics (scores o)]>
       (base_record (lit id) (lit "question?") (lit "truth"))).

Definition record_original_only (id : string) (o : Q) : gmap string value :=
  <["original_metrics" := VMetrics (scores o)]>
    (base_record (lit id) (lit "question?") (lit "truth")).

Definition two_of_three : list (gmap string value) :=
  [record_both "q1" (5 # 10) (6 # 10);
   record_original_only "q2" (4 # 10);
   record_both "q3" (3 # 10) (8 # 10)].

Definition two_of_three_table : DataFrame :=
  Eval vm_compute in
    match _create_results_dataframe two_of_three with
    | inr df => df
    | inl _ => {| columns := []; rows := [] |}
    end.

(** Records of two questions that carry both variants; the original
    faithfulness is 0 on both. *)
Definition paired : list (gmap string value) :=
  [record_both "q1" 0 (6 # 10); record_both "q2" 0 (8 # 10)].

Definition paired_table : DataFrame :=
  Eval vm_compute in
    match _create_results_dataframe paired with
    | inr df => df
    | inl _ => {| columns := []; rows := [] |}
    end.

(** A paired-test double with a fixed answer. *)
Definition constant_ttest (t p : pyfloat) : SciPy :=
  {| ttest_rel := fun _ _ => inr (t, p) |}.

(** ** Instrumented and concrete networks *)

(** Any network with two meters added to its world: the number of POSTs
    made and the seconds slept.  The underlying network is driven
    exactly as before. *)
Definition counting {W : Type} (http : Http W) : Http (W * (nat * Q)) :=
  {| requests_post := fun url payload timeout '(w, (posts, slept)) =>
       let '(r, w') := requests_post url payload timeout w in
       (r, (w', (S posts, slept)));
     time_sleep := fun seconds '(w, (posts, slept)) =>
       (time_sleep seconds w, (posts, slept + seconds)) |}.

(** A network that replays a script of POST outcomes; an exhausted
    script is a refused connection. *)
Definition scripted_http : Http (list (str + Response * Q)) :=
  {| requests_post := fun _ _ _ w =>
       match w with
       | [] => (inl (lit "connection refused"), [])
       | outcome :: w' => (outcome, w')
       end;
     time_sleep := fun _ w => w |}.

Definition ok_response (body : json_body) : Response :=
  {| status_code := 200; text := lit "{...}"; json := inr body |}.

Definition not_found_response : Response :=
  {| status_code := 404; text := lit "no such index"; json := inl (lit "Expecting value") |}.

(** A body with an empty list under [Documents] and a passage under
    [results]. *)
Definition two_lists_body : json_body :=
  BodyDict (<["Documents" := JList []]>
              (<["results" := JList [passage "Paris is the capital of France."]]> ∅)).

(** A body with the passages one level down, under [data]. *)
Definition nested_body : json_body :=
  BodyDict (<["data" := JDict (<["documents" :=
                                   InnerList [passage "Rome is the capital of Italy."]]> ∅)]>
              ∅).

(** An evaluator on the scripted network whose models never answer. *)
Definition offline_services : Services :=
  with_client scripted_http (fun _ w => ([], w)) unrelated_cosine (fun _ _ w => ([], w)).

(** Services whose judge and answer model never answer, with retrieval
    from a table. *)
Definition silent_services (fetch : str -> exn + (SystemResult * SystemResult))
    : Services :=
  {| World := unit;
     call_llm := fun _ w => ([], w);
     embedding_cosine := unrelated_cosine;
     answer_llm := fun _ _ w => ([], w);
     fetch_both_systems := fun query _ _ _ w => (fetch query, w) |}.

(** A reranked answer with a usable passage and an entry that is no dict. *)
Definition mixed_result : SystemResult :=
  {| chunks := [passage "Paris is the capital of France."; ChunkOther];
     time_ms := 90; error := None |}.

Definition mixed_services : Services :=
  silent_services (fun _ => inr (found_result, mixed_result)).

(** A question dict with an [id] but no [question], and one without
    [id]. *)
Definition question_without_text : gmap string str :=
  <["id" := lit "q4"]> (<["ground_truth" := lit "Lisbon"]> ∅).

Definition question_without_id : gmap string str :=
  <["question" := lit "What is the capital of Portugal?"]>
    (<["ground_truth" := lit "Lisbon"]> ∅).

(** A network on which every POST fails. *)
Definition dead_http : Http unit :=
  {| requests_post := fun _ _ _ w => (inl (lit "connection refused"), w);
     time_sleep := fun _ w => w |}.

Definition dead_services : Services :=
  with_client dead_http (fun _ w => ([], w)) unrelated_cosine (fun _ _ w => ([], w)).

(** The report of the paired table under the paired-test double. *)
Definition paired_report : Report :=
  Eval vm_compute in
    match @generate_report (constant_ttest NaN NaN) paired_table with
    | inr report => report
    | inl _ => {| original_metrics := ∅; reranked_metrics := ∅; improvements := ∅;
                  statistical_significance := ∅; total_questions := 0;
                  miss_statistics := None |}
    end.

(** Retrieval where the reranked backend returns a passage with a null
    content next to a usable one. *)
Definition null_content_services : Services :=
  scripted unrelated_cosine (fun _ => inr (found_result, null_content_result)).

(** A judge that reads what it is shown: asked for claims it lists one,
    and asked about a claim it says YES exactly when the sentence that
    supports the claim is part of the request. *)
Definition reading_judge (prompt : str) : str :=
  if startswith (lit "Extract all factual claims") prompt
  then lit "1. Paris lies on the Seine."
  else if str_in (lit "The Seine flows through Paris.") prompt then lit "YES"
  else lit "NO".

Definition reading_services : Services :=
  {| World := unit;
     call_llm := fun prompt w => (reading_judge prompt, w);
     embedding_cosine := unrelated_cosine;
     answer_llm := fun _ _ w => ([], w);
     fetch_both_systems := fun _ _ _ _ w => (inl (ServiceError "no backend"), w) |}.

Definition seine_answer : str := lit "Paris lies on the Seine.".

(** Two passages: 3450 characters that do not bear on the claim, then
    the sentence that supports it. *)
Definition long_contexts : list str :=
  [concat (List.repeat (lit "Paris is a large city. ") 150);
   lit "The Seine flows through Paris."].

(** A paired-test double that, like [scipy.stats.ttest_rel], rejects two
    samples of unequal length before it looks at them. *)
Definition length_checked_ttest : SciPy :=
  {| ttest_rel := fun a b =>
       if (length a =? length b)%nat then inr (NaN, NaN)
       else inl (ValueError "unequal length arrays") |}.

(** * Properties *)

(** ** Strings and numbers *)

Lemma startswith_prefix (p s : str) :
  startswith p s = true <-> exists b, s = p ++ b.
Proof.
  revert s. induction p as [|a p IH]; intros s; simpl.
  - split; [intros _; exists s; reflexivity | reflexivity].
  - destruct s as [|b s]; simpl.
    + split; [discriminate | intros [b Hb]; discriminate].
    + rewrite andb_true_iff, N.eqb_eq, IH. split.
      * intros [-> [t ->]]. exists t. reflexivity.
      * intros [t Ht]. injection Ht as -> ->. split; [reflexivity | exists t; reflexivity].
Qed.

Lemma str_in_occurs (p s : str) : str_in p s = true <-> occurs p s.
Proof.
  unfold occurs. induction s as [|c s IH].
  - simpl. rewrite orb_false_r, startswith_prefix. split.
    + intros [b Hb]. exists [], b. exact Hb.
    + intros [a [b Hab]]. destruct a; [exists b; exact Hab | discriminate].
  - cbn [str_in]. rewrite orb_true_iff, startswith_prefix, IH. split.
    + intros [[b Hb] | [a [b Hab]]].
      * exists [], b. exact Hb.
      * exists (c :: a), b. simpl. rewrite Hab. reflexivity.
    + intros [a [b Hab]]. destruct a as [|x a].
      * left. exists b. exact Hab.
      * right. injection Hab as _ Hab. exists a, b. exact Hab.
Qed.

Lemma Qnat_nonneg (n : nat) : 0 <= Qnat n.
Proof. unfold Qnat, Qle. simpl. lia. Qed.

Lemma Qnat_pos (n : nat) : (0 < n)%nat -> 0 < Qnat n.
Proof. intros Hn. unfold Qnat, Qlt. simpl. lia. Qed.

Lemma Qnat_le (n m : nat) : (n <= m)%nat -> Qnat n <= Qnat m.
Proof. intros Hnm. unfold Qnat, Qle. simpl. lia. Qed.

(** A count out of a larger positive count is a fraction in [0,1]. *)
Lemma ratio_unit (n m : nat) :
  (n <= m)%nat -> (0 < m)%nat -> 0 <= Qnat n / Qnat m <= 1.
Proof.
  intros Hnm Hm. pose proof (Qnat_pos m Hm) as Hpos. split.
  - apply Qle_shift_div_l; [exact Hpos |]. rewrite Qmult_0_l. apply Qnat_nonneg.
  - apply Qle_shift_div_r; [exact Hpos |]. rewrite Qmult_1_l. apply Qnat_le, Hnm.
Qed.

Lemma filter_length_le {A} (f : A -> bool) (l : list A) :
  (length (List.filter f l) <= length l)%nat.
Proof. induction l as [|x l IH]; simpl; [lia | destruct (f x); simpl; lia]. Qed.

Lemma count_found_le (terms : list str) (text : str) :
  (count_found terms text <= length terms)%nat.
Proof. apply filter_length_le. Qed.

Lemma Qnat_S (n : nat) : Qnat (S n) == Qnat n + 1.
Proof. unfold Qnat. rewrite Nat2Z.inj_succ, <- Z.add_1_r, inject_Z_plus. reflexivity. Qed.

(** The running sum of numbers between [lo] and [hi]. *)
Lemma fold_left_Qplus_bounds (lo hi : Q) (l : list Q) (a : Q) :
  Forall (fun x => lo <= x <= hi) l ->
  a + Qnat (length l) * lo <= fold_left Qplus l a <= a + Qnat (length l) * hi.
Proof.
  intros Hl. revert a. induction Hl as [|x l [Hlo Hhi] _ IH]; intros a.
  - simpl. unfold Qnat. simpl. split; ring_simplify; apply Qle_refl.
  - cbn [fold_left length]. specialize (IH (a + x)). rewrite Qnat_S.
    destruct IH as [IHlo IHhi].
    split; nra.
Qed.

(** The mean of a non-empty list lies where its elements lie. *)
Lemma mean_bounds (lo hi : Q) (l : list Q) :
  l <> [] -> Forall (fun x => lo <= x <= hi) l ->
  lo <= Qsum l / Qnat (length l) <= hi.
Proof.
  intros Hne Hl.
  assert (Hpos : 0 < Qnat (length l)).
  { apply Qnat_pos. destruct l; [congruence | simpl; lia]. }
  destruct (fold_left_Qplus_bounds lo hi l 0 Hl) as [Hlo Hhi].
  unfold Qsum. split.
  - apply Qle_shift_div_l; [exact Hpos |].
    eapply Qle_trans; [| exact Hlo]. rewrite Qplus_0_l, Qmult_comm. apply Qle_refl.
  - apply Qle_shift_div_r; [exact Hpos |].
    eapply Qle_trans; [exact Hhi |]. rewrite Qplus_0_l, Qmult_comm. apply Qle_refl.
Qed.

Lemma Qsum_nonneg (l : list Q) : Forall (fun x => 0 <= x) l -> 0 <= Qsum l.
Proof.
  intros Hl. unfold Qsum.
  assert (Hgen : forall a, 0 <= a -> 0 <= fold_left Qplus l a).
  { induction Hl as [|x l Hx _ IH]; intros a Ha; [exact Ha |].
    simpl. apply IH. rewrite <- (Qplus_0_r 0). apply Qplus_le_compat; assumption. }
  apply Hgen, Qle_refl.
Qed.

Lemma Qdiv_nonneg (a b : Q) : 0 <= a -> 0 <= b -> 0 <= a / b.
Proof.
  intros Ha Hb. unfold Qdiv. apply Qmult_le_0_compat; [exact Ha |].
  apply Qinv_le_0_compat, Hb.
Qed.

Lemma py_min_upper (a b : Q) : py_min a b <= b.
Proof.
  unfold py_min. destruct (Qlt_le_dec b a) as [Hlt | Hle]; [apply Qle_refl | exact Hle].
Qed.

Lemma py_min_nonneg (a b : Q) : 0 <= a -> 0 <= b -> 0 <= py_min a b.
Proof. intros Ha Hb. unfold py_min. destruct (Qlt_le_dec b a); assumption. Qed.

(** ** The metrics engine *)

Section MetricsProperties.
Context {unicode : Unicode} {services : Services}.

(** C9.  Context recall is the number of the first five whitespace
    tokens of the (lower-cased) ground truth that occur literally in the
    lower-cased contexts joined by a space, over the number of those
    tokens; with no contexts it is exactly 0, and so it is when the
    ground truth has no token at all.  [str_in] is literal occurrence. *)
Theorem context_recall_keyword_overlap (ground_truth : str) (contexts : list str) :
  let key_terms := take 5 (split_ws (str_lower ground_truth)) in
  let context_text := str_lower (join (lit " ") contexts) in
  (contexts = [] -> calculate_context_recall ground_truth contexts = 0) /\
  (contexts <> [] -> key_terms <> [] ->
     calculate_context_recall ground_truth contexts ==
     Qnat (count_found key_terms context_text) / Qnat (length key_terms)) /\
  (key_terms = [] -> calculate_context_recall ground_truth contexts = 0) /\
  (forall term, str_in term context_text = true <-> occurs term context_text).
Proof.
  intros key_terms context_text. repeat split.
  - intros ->. reflexivity.
  - intros Hctx Hterms. unfold calculate_context_recall.
    destruct contexts as [|c cs]; [congruence |].
    fold key_terms. fold context_text.
    destruct (0 <? count_found key_terms context_text)%nat eqn:Hfound.
    + reflexivity.
    + apply Nat.ltb_ge in Hfound.
      assert (count_found key_terms context_text = 0%nat) as -> by lia.
      unfold Qdiv. rewrite Qmult_0_l. reflexivity.
  - intros Hterms. unfold calculate_context_recall.
    destruct contexts as [|c cs]; [reflexivity |].
    fold key_terms. rewrite Hterms. reflexivity.
  - apply str_in_occurs.
  - apply str_in_occurs.
Qed.

Lemma verdicts_length (context_text : str) (claims : list str) (w : World) :
  length (fst (verdicts context_text claims w)) = length claims.
Proof.
  revert w. induction claims as [|claim rest IH]; intros w; [reflexivity |].
  cbn [verdicts]. unfold mbind, state_bind, mret, state_ret.
  destruct (verify_claim context_text claim w) as [yes w1].
  specialize (IH w1). destruct (verdicts context_text rest w1) as [more w2].
  simpl in *. rewrite IH. reflexivity.
Qed.

(** The loop adds to its counter the number of positive verdicts. *)
Lemma verify_claims_count (context_text : str) (claims : list str)
    (supported : nat) (w : World) :
  verify_claims context_text claims supported w =
  ((supported + count_true (fst (verdicts context_text claims w)))%nat,
   snd (verdicts context_text claims w)).
Proof.
  revert supported w.
  induction claims as [|claim rest IH]; intros supported w.
  - simpl. unfold mret, state_ret, count_true. simpl. f_equal. lia.
  - cbn [verify_claims verdicts]. unfold mbind, state_bind, mret, state_ret.
    destruct (verify_claim context_text claim w) as [yes w1].
    rewrite IH. destruct (verdicts context_text rest w1) as [more w2].
    unfold count_true. destruct yes; simpl; f_equal; lia.
Qed.

Lemma count_true_le (l : list bool) : (count_true l <= length l)%nat.
Proof. apply filter_length_le. Qed.

(** The value of [calculate_faithfulness], by cases on the extracted
    claims. *)
Lemma faithfulness_value (answer : str) (contexts : list str) (w : World) :
  let claims := extract_claims (fst (call_llm (claims_prompt answer) w)) in
  let w1 := snd (call_llm (claims_prompt answer) w) in
  let entailed := count_true (fst (verdicts (join nl contexts) claims w1)) in
  (claims = [] -> fst (calculate_faithfulness answer contexts w) = 1) /\
  (claims <> [] ->
     fst (calculate_faithfulness answer contexts w) =
     Qnat entailed / Qnat (length claims)) /\
  (entailed <= length claims)%nat.
Proof.
  intros claims w1 entailed. subst claims w1 entailed.
  unfold calculate_faithfulness, mbind, state_bind.
  destruct (call_llm (claims_prompt answer) w) as [claims_text w1]. simpl.
  destruct (extract_claims claims_text) as [|c cs] eqn:Hclaims.
  - repeat split; [congruence | unfold count_true; simpl; lia].
  - repeat split.
    + discriminate.
    + intros _. rewrite verify_claims_count.
      destruct (verdicts (join nl contexts) (c :: cs) w1) as [vs w2].
      reflexivity.
    + etransitivity; [apply count_true_le |]. rewrite verdicts_length. lia.
Qed.

(** The spelled-out protocol is what the code runs: the same requests
    in the same order, the context text cut to its first 3000
    characters. *)
Lemma claims_prompt_request (answer : str) :
  claims_prompt answer = extraction_request answer.
Proof. reflexivity. Qed.

Lemma extract_claims_numbered (reply : str) :
  extract_claims reply = numbered_lines reply.
Proof.
  unfold extract_claims, numbered_lines. f_equal. apply List.filter_ext.
  intros line. unfold is_claim_line.
  destruct line as [|first line]; destruct (strip _); try reflexivity.
  - symmetry. apply andb_false_r.
  - symmetry. apply andb_true_r.
Qed.

Lemma verdicts_entailment (context_text : str) (claims : list str) (w : World) :
  verdicts context_text claims w =
  entailment_verdicts (take 3000 context_text) claims w.
Proof.
  revert w. induction claims as [|claim rest IH]; intros w; [reflexivity |].
  cbn [verdicts entailment_verdicts]. unfold verify_claim.
  unfold mbind, state_bind, mret, state_ret.
  change (verify_prompt context_text (re_sub_numbering claim))
    with (entailment_request (take 3000 context_text) claim).
  destruct (call_llm (entailment_request (take 3000 context_text) claim) w)
    as [reply w1].
  rewrite IH. reflexivity.
Qed.

(** C7 (amended).  The judge is asked for the claims of the answer;
    the claims are the numbered lines of its reply.  Each claim is then
    put to the judge together with the first 3000 characters of the
    contexts joined by newlines, and counts as entailed when the reply
    contains YES.  Faithfulness is the number of entailed claims over
    the number of claims, and exactly 1 when there is no claim.  What
    the contexts hold beyond the first 3000 characters of their join has
    no influence on the score. *)
Theorem faithfulness_entailed_fraction (answer : str) (contexts : list str)
    (w : World) :
  let shown := take 3000 (join nl contexts) in
  let claims := numbered_lines (fst (call_llm (extraction_request answer) w)) in
  let w1 := snd (call_llm (extraction_request answer) w) in
  let entailed := count_true (fst (entailment_verdicts shown claims w1)) in
  (claims = [] -> fst (calculate_faithfulness answer contexts w) = 1) /\
  (claims <> [] ->
     fst (calculate_faithfulness answer contexts w) =
     Qnat entailed / Qnat (length claims)) /\
  (forall others, take 3000 (join nl others) = shown ->
     calculate_faithfulness answer others w =
     calculate_faithfulness answer contexts w).
Proof.
  intros shown claims w1 entailed. subst shown claims w1 entailed.
  destruct (faithfulness_value answer contexts w) as (Hnone & Hsome & _).
  rewrite claims_prompt_request, extract_claims_numbered in Hnone, Hsome.
  rewrite verdicts_entailment in Hsome.
  split; [exact Hnone |]. split; [exact Hsome |].
  intros others Hsame.
  unfold calculate_faithfulness, mbind, state_bind.
  destruct (call_llm (claims_prompt answer) w) as [claims_text w1].
  destruct (extract_claims claims_text) as [|c cs]; [reflexivity |].
  rewrite !verify_claims_count, !verdicts_entailment, Hsame. reflexivity.
Qed.


Lemma py_max_lower (a b : Q) : a <= py_max a b.
Proof.
  unfold py_max. destruct (Qlt_le_dec a b) as [Hlt | Hle].
  - apply Qlt_le_weak, Hlt.
  - apply Qle_refl.
Qed.

(** The record [calculate_answer_correctness] returns, field by field. *)
Lemma answer_correctness_fields (answer ground_truth : str) (w : World) :
  let c := fst (calculate_answer_correctness answer ground_truth w) in
  let coverage := term_coverage answer ground_truth in
  semantic_similarity c = embedding_cosine answer ground_truth /\
  standard_correctness c = f1_score c * (5 # 10) + semantic_similarity c * (5 # 10) /\
  advanced_correctness c =
    (if Qgeb coverage (8 # 10)
     then py_max (8 # 10) (f1_score c * (3 # 10) + semantic_similarity c * (7 # 10))
     else f1_score c * (5 # 10) + semantic_similarity c * (5 # 10)) /\
  all_facts_present c = Qgeb coverage (8 # 10) /\
  exists answer_facts truth_facts, f1_score c = fact_f1 answer_facts truth_facts.
Proof.
  unfold calculate_answer_correctness, mbind, state_bind, mret, state_ret.
  destruct (extract_facts answer w) as [answer_facts w1].
  destruct (extract_facts ground_truth w1) as [truth_facts w2].
  simpl. repeat split; try reflexivity. exists answer_facts, truth_facts. reflexivity.
Qed.


(** *** Ranges of the scores *)

Lemma guarded_ratio_unit (n m : nat) :
  0 <= (if (0 <? n + m)%nat then Qnat n / Qnat (n + m) else 0) <= 1.
Proof.
  destruct (0 <? n + m)%nat eqn:Hpos.
  - apply Nat.ltb_lt in Hpos. apply ratio_unit; lia.
  - split; [apply Qle_refl | discriminate].
Qed.

Lemma harmonic_unit (p r : Q) :
  0 <= p <= 1 -> 0 <= r <= 1 ->
  0 <= (if Qlt_le_dec 0 (p + r) then 2 * p * r / (p + r) else 0) <= 1.
Proof.
  intros [Hp0 Hp1] [Hr0 Hr1].
  destruct (Qlt_le_dec 0 (p + r)) as [Hpos | _].
  - split.
    + apply Qle_shift_div_l; [exact Hpos | nra].
    + apply Qle_shift_div_r; [exact Hpos | nra].
  - split; [apply Qle_refl | discriminate].
Qed.

Lemma fact_f1_unit (answer_facts truth_facts : list str) :
  0 <= fact_f1 answer_facts truth_facts <= 1.
Proof.
  unfold fact_f1.
  destruct answer_facts as [|a answer_facts], truth_facts as [|t truth_facts];
    try (split; [apply Qle_refl | discriminate]);
    try (split; [discriminate | apply Qle_refl]).
  apply harmonic_unit; apply guarded_ratio_unit.
Qed.

Lemma faithfulness_unit (answer : str) (contexts : list str) (w : World) :
  0 <= fst (calculate_faithfulness answer contexts w) <= 1.
Proof.
  destruct (faithfulness_value answer contexts w) as (Hnone & Hsome & Hle).
  destruct (extract_claims (fst (call_llm (claims_prompt answer) w))) as [|c cs] eqn:Hclaims.
  - rewrite Hnone by reflexivity. split; [discriminate | apply Qle_refl].
  - rewrite Hsome by discriminate. apply ratio_unit; [exact Hle | simpl; lia].
Qed.

Lemma answer_relevancy_range (lo : Q) (question answer : str) (w : World) :
  lo <= 0 -> (forall a b, lo <= embedding_cosine a b <= 1) ->
  lo <= fst (calculate_answer_relevancy question answer w) <= 1.
Proof.
  intros Hlo Hcos. unfold calculate_answer_relevancy, mbind, state_bind.
  destruct (call_llm (questions_prompt answer) w) as [generated w1].
  destruct (stripped_lines generated) as [|q qs] eqn:Hqs.
  - simpl. split; [lra | discriminate].
  - change (lo <= np_mean (List.map (embedding_cosine question) (q :: qs)) <= 1).
    unfold np_mean. apply mean_bounds; [discriminate |].
    apply List.Forall_forall. intros x Hx. apply in_map_iff in Hx.
    destruct Hx as [y [<- _]]. apply Hcos.
Qed.

Lemma context_precision_unit (question : str) (contexts : list str) (k : nat)
    (w : World) :
  0 <= fst (calculate_context_precision question contexts k w) <= 1.
Proof.
  unfold calculate_context_precision, mbind, state_bind.
  destruct (judge_positions question (take k contexts) 1 w) as [positions w1].
  destruct positions as [|pos rest].
  - simpl. split; [apply Qle_refl | discriminate].
  - change (0 <= py_min (Qsum (List.map (fun p => 1 / Qnat p) (pos :: rest)) / Qnat k) 1 <= 1).
    split; [| apply py_min_upper].
    apply py_min_nonneg; [| discriminate].
    apply Qdiv_nonneg; [| apply Qnat_nonneg].
    apply Qsum_nonneg, List.Forall_forall. intros x Hx. apply in_map_iff in Hx.
    destruct Hx as [y [<- _]]. apply Qdiv_nonneg; [discriminate | apply Qnat_nonneg].
Qed.

Lemma context_recall_unit (ground_truth : str) (contexts : list str) :
  0 <= calculate_context_recall ground_truth contexts <= 1.
Proof.
  unfold calculate_context_recall. destruct contexts as [|c cs].
  - split; [apply Qle_refl | discriminate].
  - match goal with
    | |- context [(0 <? ?n)%nat] => destruct (0 <? n)%nat eqn:Hfound
    end.
    + apply Nat.ltb_lt in Hfound.
      pose proof (count_found_le
        (take 5 (split_ws (str_lower ground_truth)))
        (str_lower (join (lit " ") (c :: cs)))) as Hle.
      apply ratio_unit; [exact Hle | lia].
    + split; [apply Qle_refl | discriminate].
Qed.

(** C6 (amended).  Whatever the judge answers: faithfulness, context
    precision, context recall and the fact F1 lie in [0,1].  Answer
    relevancy and the similarity part of correctness are cosine
    similarities, which the code does not clamp: when every cosine lies
    in [lo,1] for some [lo <= 0], answer relevancy lies in [lo,1] and
    both correctness variants lie in [lo/2,1].  With non-negative
    cosines ([lo = 0]) every score is in [0,1]. *)
Theorem metric_ranges (lo : Q) (question answer ground_truth : str)
    (contexts : list str) (k : nat) (w : World) :
  lo <= 0 ->
  (forall a b, lo <= embedding_cosine a b <= 1) ->
  let c := fst (calculate_answer_correctness answer ground_truth w) in
  0 <= fst (calculate_faithfulness answer contexts w) <= 1 /\
  lo <= fst (calculate_answer_relevancy question answer w) <= 1 /\
  0 <= fst (calculate_context_precision question contexts k w) <= 1 /\
  0 <= calculate_context_recall ground_truth contexts <= 1 /\
  0 <= f1_score c <= 1 /\
  lo / 2 <= standard_correctness c <= 1 /\
  lo / 2 <= advanced_correctness c <= 1.
Proof.
  intros Hlo Hcos c.
  destruct (answer_correctness_fields answer ground_truth w)
    as (Hsim & Hstd & Hadv & _ & (af & tf & Hf1)). fold c in Hsim, Hstd, Hadv, Hf1.
  pose proof (fact_f1_unit af tf) as [Hf0 Hf1']. rewrite <- Hf1 in Hf0, Hf1'.
  pose proof (Hcos answer ground_truth) as [Hs0 Hs1]. rewrite <- Hsim in Hs0, Hs1.
  assert (Hhalf : lo / 2 == lo * (1 # 2)) by reflexivity.
  assert (Hblend : lo / 2 <= f1_score c * (5 # 10) + semantic_similarity c * (5 # 10) <= 1).
  { rewrite Hhalf. split; lra. }
  split; [apply faithfulness_unit |].
  split; [apply answer_relevancy_range; assumption |].
  split; [apply context_precision_unit |].
  split; [apply context_recall_unit |].
  split; [split; assumption |].
  split; [rewrite Hstd; exact Hblend |].
  rewrite Hadv. destruct (Qgeb (term_coverage answer ground_truth) (8 # 10)).
  - split.
    + eapply Qle_trans; [| apply py_max_lower]. rewrite Hhalf. lra.
    + unfold py_max.
      destruct (Qlt_le_dec (8 # 10)
        (f1_score c * (3 # 10) + semantic_similarity c * (7 # 10))); [lra | discriminate].
  - exact Hblend.
Qed.
End MetricsProperties.

(** ** The batch evaluator *)

Lemma metrics_key_ne (s1 s2 : system) : s1 <> s2 -> metrics_key s1 <> metrics_key s2.
Proof. destruct s1, s2; intros Hne; try congruence; discriminate. Qed.

Lemma base_record_metrics (id q gt : str) (s : system) :
  base_record id q gt !! metrics_key s = None.
Proof. destruct s; reflexivity. Qed.

Lemma contexts_of_dicts (cs : list chunk) :
  forallb is_dict cs = true -> cs <> [] -> contexts_of cs <> [].
Proof. destruct cs as [|[d|] cs]; simpl; intros Hd Hne; congruence. Qed.

Lemma base_record_fields (id q gt : str) :
  base_record id q gt !! "question_id" = Some (VStr id) /\
  base_record id q gt !! "question" = Some (VStr q) /\
  base_record id q gt !! "ground_truth" = Some (VStr gt).
Proof. unfold base_record. repeat split; by simplify_map_eq. Qed.

(** Attaching metrics leaves the three question fields alone. *)
Lemma attach_keeps_fields (s : system) (v : value) (record : gmap string value)
    (key : string) :
  key = "question_id" \/ key = "question" \/ key = "ground_truth" ->
  <[metrics_key s := v]> record !! key = record !! key.
Proof.
  intros Hkey. apply lookup_insert_ne.
  destruct s, Hkey as [-> | [-> | ->]]; discriminate.
Qed.

Lemma attaches_false (r : SystemResult) :
  has_error r = true \/ contexts_of (chunks r) = [] \/
  forallb textual (chunks r) = false ->
  attaches r = false.
Proof.
  unfold attaches. intros [-> | [Hctx | ->]]; [reflexivity | |].
  - destruct (chunks r) as [|[d|] cs]; simpl in *;
      try discriminate; destruct (has_error r); reflexivity.
  - apply andb_false_r.
Qed.

Lemma attaches_true (r : SystemResult) :
  has_error r = false -> chunks r <> [] -> forallb is_dict (chunks r) = true ->
  forallb textual (chunks r) = true ->
  attaches r = true.
Proof.
  unfold attaches. intros -> Hne -> ->. destruct (chunks r); [congruence | reflexivity].
Qed.

(** The contexts of passages whose contents are text are a list of
    text, and only those are. *)
Lemma contexts_textual (cs : list chunk) :
  forallb textual cs = true ->
  exists texts, texts_of (contexts_of cs) = Some texts.
Proof.
  induction cs as [|[d|] cs IH]; simpl; intros Htext.
  - eexists. reflexivity.
  - apply andb_prop in Htext as [Hd Hcs]. destruct (IH Hcs) as [texts Htexts].
    destruct (content d) as [[s | shown |]|]; try discriminate;
      simpl; rewrite Htexts; eexists; reflexivity.
  - apply IH, Htext.
Qed.

Lemma contexts_not_textual (cs : list chunk) :
  forallb textual cs = false -> texts_of (contexts_of cs) = None.
Proof.
  induction cs as [|[d|] cs IH]; simpl; intros Htext.
  - discriminate.
  - destruct (content d) as [[s | shown |]|]; simpl in *; try reflexivity;
      rewrite (IH Htext); reflexivity.
  - apply IH, Htext.
Qed.

Lemma evaluation_of_well_formed (id q gt : str)
    (results : SystemResult * SystemResult) (record : gmap string value) :
  evaluation_of id q gt results record -> well_formed_record record.
Proof.
  intros (Hid & _ & _ & Hmetrics). split; [rewrite Hid; eauto |].
  intros s v Hv. specialize (Hmetrics s).
  destruct (attaches (result_of results s)).
  - destruct Hmetrics as [m Hm]. exists m. congruence.
  - congruence.
Qed.

Section EvaluatorProperties.
Context {unicode : Unicode} {services : Services} {scipy : SciPy}.

Lemma format_docs_dicts (cs : list chunk) (i : nat) :
  forallb is_dict cs = true -> exists docs, format_docs i cs = inr docs.
Proof.
  revert i. induction cs as [|[d|] cs IH]; intros i Hd; simpl in *.
  - eexists. reflexivity.
  - destruct (IH (S i) Hd) as [docs ->]. eexists. reflexivity.
  - discriminate.
Qed.

(** On contexts that are all text the calls the evaluator makes are the
    methods on lists of text. *)
Lemma texts_of_values (values : list passage_value) (texts : list str) :
  texts_of values = Some texts -> values = List.map Text texts.
Proof.
  revert texts. induction values as [|[s | shown |] values IH]; intros texts; simpl.
  - intros [= <-]. reflexivity.
  - destruct (texts_of values) as [ts|]; [| discriminate].
    intros [= <-]. simpl. rewrite (IH ts eq_refl). reflexivity.
  - discriminate.
  - discriminate.
Qed.

Lemma texts_of_texts (texts : list str) : texts_of (List.map Text texts) = Some texts.
Proof. induction texts as [|s texts IH]; simpl; [| rewrite IH]; reflexivity. Qed.

Lemma faithfulness_any_texts (answer : str) (texts : list str) (w : World) :
  calculate_faithfulness_any answer (List.map Text texts) w =
  lift (calculate_faithfulness answer texts) w.
Proof.
  unfold calculate_faithfulness_any, calculate_faithfulness, lift, join_values.
  unfold mbind, exc_bind, state_bind, of_result, mret, exc_ret, state_ret.
  rewrite texts_of_texts.
  destruct (call_llm (claims_prompt answer) w) as [claims_text w1].
  destruct (extract_claims claims_text) as [|c cs]; [reflexivity |].
  destruct (verify_claims (join nl texts) (c :: cs) 0 w1) as [n w2]. reflexivity.
Qed.

Lemma judge_positions_any_texts (question : str) (texts : list str) (i : nat)
    (w : World) :
  judge_positions_any question (List.map Text texts) i w =
  lift (judge_positions question texts i) w.
Proof.
  revert i w. induction texts as [|s texts IH]; intros i w; [reflexivity |].
  cbn [List.map judge_positions_any judge_positions slice500].
  unfold lift in *. unfold mbind, exc_bind, state_bind, of_result, mret, exc_ret, state_ret.
  destruct (call_llm (relevance_prompt question (take 500 s)) w) as [reply w1].
  rewrite IH. destruct (judge_positions question texts (S i) w1) as [later w2].
  reflexivity.
Qed.

Lemma context_precision_any_texts (question : str) (texts : list str) (k : nat)
    (w : World) :
  calculate_context_precision_any question (List.map Text texts) k w =
  lift (calculate_context_precision question texts k) w.
Proof.
  unfold calculate_context_precision_any, calculate_context_precision.
  unfold mbind, exc_bind, state_bind.
  rewrite List.firstn_map, judge_positions_any_texts. unfold lift.
  destruct (judge_positions question (take k texts) 1 w) as [[|p ps] w1]; reflexivity.
Qed.

Lemma context_recall_any_texts (ground_truth : str) (texts : list str) :
  calculate_context_recall_any ground_truth (List.map Text texts) =
  inr (calculate_context_recall ground_truth texts).
Proof.
  destruct texts as [|s texts]; [reflexivity |].
  unfold calculate_context_recall_any. cbn [List.map].
  change (Text s :: List.map Text texts) with (List.map Text (s :: texts)).
  rewrite texts_of_texts. reflexivity.
Qed.

(** A context that is no text makes [calculate_context_recall] raise. *)
Lemma context_recall_any_raises (ground_truth : str) (values : list passage_value) :
  texts_of values = None ->
  exists e, calculate_context_recall_any ground_truth values = inl e.
Proof.
  intros Hnone. unfold calculate_context_recall_any.
  destruct values as [|[s | shown |] values]; [discriminate | | |];
    try rewrite Hnone; eexists; reflexivity.
Qed.

Lemma format_docs_other (cs : list chunk) (i : nat) :
  forallb is_dict cs = false -> exists e, format_docs i cs = inl e.
Proof.
  revert i. induction cs as [|[d|] cs IH]; intros i Hd; simpl in *.
  - discriminate.
  - destruct (IH (S i) Hd) as [e ->]. eexists. reflexivity.
  - eexists. reflexivity.
Qed.

(** What one turn of the loop over the systems does to the record. *)
Lemma process_system_attaches (question ground_truth : str)
    (results : SystemResult * SystemResult) (s : system)
    (evaluation : gmap string value) (w : World) :
  exists w',
    if attaches (result_of results s)
    then exists m, process_system question ground_truth results s evaluation w =
                   (inr (<[metrics_key s := VMetrics m]> evaluation), w')
    else process_system question ground_truth results s evaluation w =
         (inr evaluation, w').
Proof.
  unfold process_system, try_except, system_body, attaches.
  set (r := result_of results s).
  unfold mbind, exc_bind, mret, exc_ret.
  destruct (has_error r); [exists w; reflexivity |].
  destruct (chunks r) as [|c cs] eqn:Hchunks; [exists w; reflexivity |].
  destruct (forallb is_dict (c :: cs)) eqn:Hdicts; cbn [negb andb].
  - destruct (contexts_of (c :: cs)) as [|ctx ctxs] eqn:Hctx.
    { exfalso. exact (contexts_of_dicts (c :: cs) Hdicts ltac:(discriminate) Hctx). }
    unfold generate_answer, of_result, mbind, exc_bind.
    destruct (format_docs_dicts (c :: cs) 1 Hdicts) as [docs ->].
    unfold lift. destruct (answer_llm question docs w) as [answer w1].
    destruct (forallb textual (c :: cs)) eqn:Htext.
    + destruct (contexts_textual (c :: cs) Htext) as [texts Htexts].
      rewrite Hctx in Htexts. rewrite (texts_of_values _ _ Htexts).
      rewrite faithfulness_any_texts, context_recall_any_texts. unfold lift.
      destruct (calculate_faithfulness answer texts w1) as [f w2].
      destruct (calculate_answer_relevancy question answer w2) as [ar w3].
      rewrite context_precision_any_texts. unfold lift.
      destruct (calculate_context_precision question texts 5 w3) as [cp w4].
      destruct (calculate_answer_correctness answer ground_truth w4) as [ac w5].
      exists w5. eexists. reflexivity.
    + pose proof (contexts_not_textual (c :: cs) Htext) as Hnone.
      rewrite Hctx in Hnone.
      destruct (context_recall_any_raises ground_truth (ctx :: ctxs) Hnone) as [e He].
      rewrite He.
      destruct (calculate_faithfulness_any answer (ctx :: ctxs) w1) as [[e1 | f] w2];
        [exists w2; reflexivity |].
      destruct (calculate_answer_relevancy question answer w2) as [ar w3].
      destruct (calculate_context_precision_any question (ctx :: ctxs) 5 w3)
        as [[e2 | cp] w4]; exists w4; reflexivity.
  - destruct (contexts_of (c :: cs)) as [|ctx ctxs] eqn:Hctx; [exists w; reflexivity |].
    unfold generate_answer, of_result, lift, mbind, exc_bind.
    destruct (format_docs_other (c :: cs) 1 Hdicts) as [e ->].
    exists w. reflexivity.
Qed.

(** The two turns of the loop, starting from any record without
    metrics keys. *)
Lemma both_systems_attach (question ground_truth : str)
    (results : SystemResult * SystemResult) (base : gmap string value)
    (w : World) :
  (forall s, base !! metrics_key s = None) ->
  exists record w',
    (evaluation ← process_system question ground_truth results Original base;
     process_system question ground_truth results Reranked evaluation) w =
    (inr record, w') /\
    (forall key, key = "question_id" \/ key = "question" \/ key = "ground_truth" ->
                 record !! key = base !! key) /\
    (forall s, if attaches (result_of results s)
               then exists m, record !! metrics_key s = Some (VMetrics m)
               else record !! metrics_key s = None) /\
    ((forall s, attaches (result_of results s) = false) -> record = base).
Proof.
  intros Hbase. unfold mbind, exc_bind.
  destruct (process_system_attaches question ground_truth results Original base w)
    as [w1 H1].
  destruct (attaches (result_of results Original)) eqn:HO.
  - destruct H1 as [m1 ->].
    destruct (process_system_attaches question ground_truth results Reranked
                (<[metrics_key Original := VMetrics m1]> base) w1) as [w2 H2].
    destruct (attaches (result_of results Reranked)) eqn:HR.
    + destruct H2 as [m2 ->]. eexists _, w2. split; [reflexivity |].
      split; [intros key Hkey; rewrite !attach_keeps_fields by exact Hkey; reflexivity |].
      split.
      * intros [|]; [rewrite HO | rewrite HR].
        -- exists m1. rewrite lookup_insert_ne by (apply metrics_key_ne; discriminate).
           apply lookup_insert_eq.
        -- exists m2. apply lookup_insert_eq.
      * intros Hnone. specialize (Hnone Original). congruence.
    + rewrite H2. eexists _, w2. split; [reflexivity |].
      split; [intros key Hkey; rewrite !attach_keeps_fields by exact Hkey; reflexivity |].
      split.
      * intros [|]; [rewrite HO | rewrite HR].
        -- exists m1. apply lookup_insert_eq.
        -- rewrite lookup_insert_ne by (apply metrics_key_ne; discriminate).
           apply Hbase.
      * intros Hnone. specialize (Hnone Original). congruence.
  - rewrite H1.
    destruct (process_system_attaches question ground_truth results Reranked
                base w1) as [w2 H2].
    destruct (attaches (result_of results Reranked)) eqn:HR.
    + destruct H2 as [m2 ->]. eexists _, w2. split; [reflexivity |].
      split; [intros key Hkey; rewrite !attach_keeps_fields by exact Hkey; reflexivity |].
      split.
      * intros [|]; [rewrite HO | rewrite HR].
        -- rewrite lookup_insert_ne by (apply metrics_key_ne; discriminate).
           apply Hbase.
        -- exists m2. apply lookup_insert_eq.
      * intros Hnone. specialize (Hnone Reranked). congruence.
    + rewrite H2. eexists _, w2. split; [reflexivity |].
      split; [reflexivity |].
      split.
      * intros [|]; [rewrite HO | rewrite HR]; apply Hbase.
      * reflexivity.
Qed.

(** A question with its three keys, for which retrieval returns, gets
    its record. *)
Lemma evaluate_single_question_record (question_data : gmap string str)
    (folder_ids unique_titles : list str) (w w1 : World) (id q gt : str)
    (results : SystemResult * SystemResult) :
  question_with question_data id q gt ->
  fetch_both_systems q folder_ids unique_titles 10 w = (inr results, w1) ->
  exists record w2,
    evaluate_single_question question_data folder_ids unique_titles w =
    (inr record, w2) /\
    evaluation_of id q gt results record /\
    ((forall s, attaches (result_of results s) = false) ->
     record = base_record id q gt).
Proof.
  intros (Hid & Hq & Hgt) Hfetch.
  destruct (both_systems_attach q gt results (base_record id q gt) w1
              (base_record_metrics id q gt))
    as (record & w2 & Hrun & Hfields & Hmetrics & Hbase).
  exists record, w2. split.
  - unfold evaluate_single_question, getitem, of_result.
    rewrite Hq, Hgt, Hid. unfold mbind at 1 2 3 4, exc_bind at 1 2 3 4.
    rewrite Hfetch. exact Hrun.
  - split; [| exact Hbase].
    destruct (base_record_fields id q gt) as (Bid & Bq & Bgt).
    unfold evaluation_of. rewrite !Hfields by auto. auto.
Qed.

Lemma rows_of_result_total (record : gmap string value) (systems : list system) :
  well_formed_record record -> exists rows, rows_of_result record systems = inr rows.
Proof.
  intros [[qid Hqid] Hmetrics]. induction systems as [|s systems [rows IH]]; simpl.
  - eexists. reflexivity.
  - destruct (record !! metrics_key s) as [v|] eqn:Hv; [| eexists; exact IH].
    destruct (Hmetrics s v Hv) as [m ->].
    unfold getitem. rewrite Hqid, IH. eexists. reflexivity.
Qed.

Lemma create_results_dataframe_total (records : list (gmap string value)) :
  Forall well_formed_record records ->
  exists df, _create_results_dataframe records = inr df.
Proof.
  intros Hall. unfold _create_results_dataframe.
  assert (exists rows, metrics_data_of records = inr rows) as [rows ->].
  { induction Hall as [|record records Hwf _ [rows IH]]; cbn [metrics_data_of].
    - eexists. reflexivity.
    - destruct (rows_of_result_total record [Original; Reranked] Hwf) as [here ->].
      rewrite IH. eexists. reflexivity. }
  destruct rows; eexists; reflexivity.
Qed.

Lemma record_for_of_evaluation (folder_ids unique_titles : list str)
    (question_data : gmap string str) (id q gt : str)
    (results : SystemResult * SystemResult) (w0 w1 : World)
    (record : gmap string value) :
  question_with question_data id q gt ->
  fetch_both_systems q folder_ids unique_titles 10 w0 = (inr results, w1) ->
  evaluation_of id q gt results record ->
  record_for folder_ids unique_titles question_data record.
Proof.
  intros Hq Hfetch (_ & _ & _ & Hmetrics).
  exists id, q, gt, results, w0, w1. split; [exact Hq |]. split; [exact Hfetch |].
  intros s r. specialize (Hmetrics s). fold r in Hmetrics. split.
  - intros Hfail. rewrite (attaches_false r Hfail) in Hmetrics. exact Hmetrics.
  - intros Herr Hne Hdicts Htext.
    rewrite (attaches_true r Herr Hne Hdicts Htext) in Hmetrics. exact Hmetrics.
Qed.

(** The loop of [batch_evaluate] appends one record per question when
    every question has its keys and retrieval always returns. *)
Lemma evaluate_all_records (questions : list (gmap string str))
    (folder_ids unique_titles : list str) :
  Forall (fun question_data => exists id q gt, question_with question_data id q gt)
         questions ->
  (forall q w0, exists results w1,
      fetch_both_systems q folder_ids unique_titles 10 w0 = (inr results, w1)) ->
  forall all_results w,
  exists records w',
    evaluate_all questions folder_ids unique_titles all_results w =
    (inr (all_results ++ records), w') /\
    Forall2 (record_for folder_ids unique_titles) questions records /\
    Forall well_formed_record records.
Proof.
  intros Hkeys Hfetch.
  induction Hkeys as [|question_data questions (id & q & gt & Hq) _ IH];
    intros all_results w.
  - exists [], w. rewrite app_nil_r. repeat constructor.
  - destruct (Hfetch q w) as (results & w1 & Hres).
    destruct (evaluate_single_question_record question_data folder_ids
                unique_titles w w1 id q gt results Hq Hres)
      as (record & w2 & Hrun & Hrecord & _).
    destruct (IH (all_results ++ [record]) w2) as (records & w3 & Hrest & Hall & Hwf).
    exists (record :: records), w3. split.
    + cbn [evaluate_all]. unfold getitem, of_result.
      destruct Hq as (Hid & _). rewrite Hid.
      unfold mbind at 1 2, exc_bind at 1 2, try_except.
      unfold mbind at 1, exc_bind at 1. rewrite Hrun.
      unfold mret at 1, exc_ret at 1. rewrite Hrest.
      rewrite <- app_assoc. reflexivity.
    + split; constructor; try assumption.
      * eapply record_for_of_evaluation; eassumption.
      * eapply evaluation_of_well_formed; eassumption.
Qed.

(** C1 (amended).  When every question of the batch has its [id],
    [question] and [ground_truth] and the retrieval client returns for
    every query, [batch_evaluate] returns one record per question, in
    order; in each record a variant's metrics key is absent when that
    variant's retrieval carried an error, no dict-shaped passage (so
    also for an empty passage list) or a passage whose content is no
    text (a JSON null, say: the metric functions raise on it), and
    present, independently of the other variant, when it carried no
    error and a non-empty list of dict-shaped passages whose content is
    text, the empty string included, or missing. *)
Theorem batch_omits_failed_variant (questions : list (gmap string str))
    (folder_ids unique_titles : list str) (w : World) :
  Forall (fun question_data => exists id q gt, question_with question_data id q gt)
         questions ->
  (forall q w0, exists results w1,
      fetch_both_systems q folder_ids unique_titles 10 w0 = (inr results, w1)) ->
  exists df records w',
    batch_evaluate questions folder_ids unique_titles w = (inr (df, records), w') /\
    length records = length questions /\
    Forall2 (record_for folder_ids unique_titles) questions records.
Proof.
  intros Hkeys Hfetch.
  destruct (evaluate_all_records questions folder_ids unique_titles Hkeys Hfetch [] w)
    as (records & w' & Hrun & Hall & Hwf).
  destruct (create_results_dataframe_total records Hwf) as [df Hdf].
  exists df, records, w'. split.
  - unfold batch_evaluate, mbind, exc_bind. rewrite Hrun. simpl.
    unfold of_result. rewrite Hdf. reflexivity.
  - split; [| exact Hall]. symmetry. eapply Forall2_length. exact Hall.
Qed.

(** C10.  For a question dict with [id], [question] and [ground_truth],
    once retrieval has returned, [evaluate_single_question] returns a
    record whose [question_id], [question] and [ground_truth] are those
    inputs; when both variants carry an error or no dict-shaped passage
    the record is exactly these three fields. *)
Theorem record_keeps_question_fields (question_data : gmap string str)
    (folder_ids unique_titles : list str) (w w1 : World) (id q gt : str)
    (results : SystemResult * SystemResult) :
  question_with question_data id q gt ->
  fetch_both_systems q folder_ids unique_titles 10 w = (inr results, w1) ->
  exists record w2,
    evaluate_single_question question_data folder_ids unique_titles w =
    (inr record, w2) /\
    record !! "question_id" = Some (VStr id) /\
    record !! "question" = Some (VStr q) /\
    record !! "ground_truth" = Some (VStr gt) /\
    ((forall s, has_error (result_of results s) = true \/
                contexts_of (chunks (result_of results s)) = []) ->
     record = base_record id q gt).
Proof.
  intros Hq Hfetch.
  destruct (evaluate_single_question_record question_data folder_ids
              unique_titles w w1 id q gt results Hq Hfetch)
    as (record & w2 & Hrun & (Hid & Hqn & Hgt & _) & Hbase).
  exists record, w2. repeat split; try assumption.
  intros Hfail. apply Hbase. intros s. apply attaches_false.
  destruct (Hfail s) as [Herr | Hctx]; [left | right; left]; assumption.
Qed.

(** *** The report *)

(** C2.  An empty result set (no record at all, or only records
    without metrics for either variant): [_create_results_dataframe]
    hands back the DataFrame without columns, and on it
    [generate_report] raises [KeyError('system')] at its first statement
    instead of returning a report with zero counts. *)
Theorem empty_results_report_raises :
  _create_results_dataframe [] = inr {| columns := []; rows := [] |} /\
  _create_results_dataframe [base_record (lit "q1") (lit "question?") (lit "truth")] =
    inr {| columns := []; rows := [] |} /\
  generate_report {| columns := []; rows := [] |} = inl (KeyError "system").
Proof. repeat split; reflexivity. Qed.

(** [generate_report] has no handler around the paired test: what
    [ttest_rel] raises on the first core metric escapes. *)
Lemma ttest_failure_escapes (df : DataFrame) (e : exn) :
  "system" ∈ columns df -> "faithfulness" ∈ columns df ->
  ttest_rel (List.map (cell "faithfulness") (system_rows df Reranked))
            (List.map (cell "faithfulness") (system_rows df Original)) = inl e ->
  (exists e', generate_report df = inl e').
Proof.
  intros Hsys Hcol Hraise. unfold generate_report, require_column.
  rewrite (bool_decide_eq_true_2 _ Hsys).
  destruct (improvements_of _ _ _); [eexists; reflexivity |].
  cbn [core_metrics significance_of]. unfold column_values, require_column.
  rewrite (bool_decide_eq_true_2 _ Hcol), Hraise. eexists. reflexivity.
Qed.

(** The fields of a report that was returned. *)
Lemma generate_report_fields (df : DataFrame) (report : Report) :
  generate_report df = inr report ->
  "system" ∈ columns df /\
  original_metrics report =
    list_to_map (mean_numeric_only df (system_rows df Original)) /\
  reranked_metrics report =
    list_to_map (mean_numeric_only df (system_rows df Reranked)) /\
  improvements_of (mean_numeric_only df (system_rows df Original))
                  (mean_numeric_only df (system_rows df Reranked)) ∅ =
    inr (improvements report) /\
  significance_of df core_metrics ∅ = inr (statistical_significance report).
Proof.
  unfold generate_report, require_column.
  destruct (bool_decide ("system" ∈ columns df)) eqn:Hsys; [| discriminate].
  apply bool_decide_eq_true_1 in Hsys.
  destruct (improvements_of _ _ _) as [e | imp]; [discriminate |].
  destruct (significance_of _ _ _) as [e | sig]; [discriminate |].
  intros [= <-]. simpl. auto.
Qed.

(** A Series built label by label answers with the value of the label. *)
Lemma series_lookup (f : string -> pyfloat) (labels : list string) (label : string) :
  In label labels ->
  series_get (List.map (fun l => (l, f l)) labels) label = inr (f label) /\
  (list_to_map (List.map (fun l => (l, f l)) labels) : gmap string pyfloat) !! label =
    Some (f label).
Proof.
  induction labels as [|l labels IH]; intros Hin; [destruct Hin |].
  cbn [List.map series_get]. rewrite list_to_map_cons.
  destruct (String.eqb l label) eqn:Heq.
  - apply String.eqb_eq in Heq. subst l. split; [reflexivity | apply lookup_insert_eq].
  - apply String.eqb_neq in Heq. destruct Hin as [-> | Hin]; [congruence |].
    destruct (IH Hin) as [IH1 IH2]. split; [exact IH1 |].
    rewrite lookup_insert_ne by exact Heq. exact IH2.
Qed.

Lemma numeric_label_kept (df : DataFrame) (metric : string) :
  In metric numeric_columns -> metric ∈ columns df ->
  In metric (List.filter (fun column => bool_decide (column ∈ columns df))
                         numeric_columns).
Proof.
  intros Hnum Hcol. apply filter_In. split; [exact Hnum |].
  apply bool_decide_eq_true_2, Hcol.
Qed.

Lemma improvements_of_other (index reranked : list (string * pyfloat))
    (acc imp : gmap string pyfloat) (metric : string) :
  improvements_of index reranked acc = inr imp ->
  ~ In metric (List.map fst index) ->
  imp !! metric = acc !! metric.
Proof.
  revert acc. induction index as [|[l o] index IH]; intros acc Hrun Hnot.
  - simpl in Hrun. congruence.
  - cbn [improvements_of] in Hrun. cbn [List.map fst In] in Hnot.
    destruct (String.eqb l "response_time_ms").
    + apply IH; [exact Hrun | tauto].
    + destruct (series_get reranked l) as [e | r]; [discriminate |].
      rewrite (IH _ Hrun) by tauto. apply lookup_insert_ne. tauto.
Qed.

(** Every label of the index other than the response time gets the
    improvement of its two means. *)
Lemma improvements_of_lookup (index reranked : list (string * pyfloat))
    (acc imp : gmap string pyfloat) (metric : string) (o : pyfloat) :
  improvements_of index reranked acc = inr imp ->
  List.NoDup (List.map fst index) ->
  In (metric, o) index -> metric <> "response_time_ms" ->
  exists r, series_get reranked metric = inr r /\
            imp !! metric = Some (improvement o r).
Proof.
  revert acc. induction index as [|[l o'] index IH]; intros acc Hrun Hnodup Hin Hrt.
  - destruct Hin.
  - cbn [improvements_of] in Hrun. cbn [List.map fst] in Hnodup.
    apply List.NoDup_cons_iff in Hnodup as [Hfresh Hnodup].
    destruct Hin as [[= -> ->] | Hin].
    + apply String.eqb_neq in Hrt. rewrite Hrt in Hrun.
      destruct (series_get reranked metric) as [e | r]; [discriminate |].
      exists r. split; [reflexivity |].
      rewrite (improvements_of_other _ _ _ _ _ Hrun Hfresh). apply lookup_insert_eq.
    + destruct (String.eqb l "response_time_ms"); [eapply IH; eassumption |].
      destruct (series_get reranked l) as [e | r]; [discriminate |].
      eapply IH; eassumption.
Qed.

Lemma numeric_columns_nodup : List.NoDup numeric_columns.
Proof.
  unfold numeric_columns.
  repeat (apply List.NoDup_cons; [simpl; intuition discriminate |]).
  apply List.NoDup_nil.
Qed.


(** The cells a record contributes to a variant's column: the one it
    carries for that variant, or none. *)
Lemma rows_of_result_cells (record : gmap string value) (rows : list Row)
    (s : system) (column : string) :
  rows_of_result record [Original; Reranked] = inr rows ->
  List.map (cell column)
    (List.filter (fun r => String.eqb (row_system r) (system_name s)) rows) =
  match carried s column record with
  | Some x => [x]
  | None => []
  end.
Proof.
  unfold carried. cbn [rows_of_result]. intros Hrun.
  destruct s; repeat case_match; simplify_eq; reflexivity.
Qed.

Lemma metrics_data_cells (records : list (gmap string value)) (rows : list Row)
    (s : system) (column : string) :
  metrics_data_of records = inr rows ->
  List.map (cell column)
    (List.filter (fun r => String.eqb (row_system r) (system_name s)) rows) =
  omap (fun x => x) (List.map (carried s column) records).
Proof.
  revert rows. induction records as [|record records IH]; intros rows Hrun.
  - simpl in Hrun. injection Hrun as <-. reflexivity.
  - cbn [metrics_data_of] in Hrun.
    destruct (rows_of_result record [Original; Reranked]) as [e | here] eqn:Hhere;
      [discriminate |].
    destruct (metrics_data_of records) as [e | later]; [discriminate |].
    injection Hrun as <-.
    rewrite List.filter_app, List.map_app, (IH later eq_refl).
    rewrite (rows_of_result_cells record here s column Hhere).
    cbn [List.map omap]. destruct (carried s column record); reflexivity.
Qed.

Lemma create_results_dataframe_rows (records : list (gmap string value))
    (df : DataFrame) :
  _create_results_dataframe records = inr df ->
  metrics_data_of records = inr (rows df) /\
  (rows df <> [] -> columns df = row_columns).
Proof.
  unfold _create_results_dataframe.
  destruct (metrics_data_of records) as [e | [|r rs]]; [discriminate | |];
    intros [= <-]; simpl; (split; [reflexivity | intros Hne; congruence]).
Qed.

Lemma column_mean_cells (column : string) (rs : list Row) (l : list (option Q)) :
  List.map (cell column) rs = omap (fun x => x) l ->
  column_mean column rs = skip_missing_mean l.
Proof.
  intros Hcells. unfold column_mean, skip_missing_mean. rewrite <- Hcells.
  destruct rs as [|r rs]; [reflexivity |].
  cbn [List.map]. f_equal. f_equal. f_equal. f_equal.
  simpl. rewrite length_map. reflexivity.
Qed.

(** For the table built from any records, the mean of a variant's
    column is the mean of the values of exactly those records that
    carry that variant's metrics, in order; a record without them
    contributes nothing (no zero), and with no such record the mean is
    [nan].  A report that is returned carries these means. *)
Lemma table_means_skip_missing (records : list (gmap string value)) (df : DataFrame)
    (s : system) (column : string) :
  _create_results_dataframe records = inr df ->
  column_mean column (system_rows df s) =
    skip_missing_mean (List.map (carried s column) records) /\
  forall report,
    generate_report df = inr report -> In column numeric_columns ->
    match s with
    | Original => original_metrics report
    | Reranked => reranked_metrics report
    end !! column = Some (skip_missing_mean (List.map (carried s column) records)).
Proof.
  intros Hdf. destruct (create_results_dataframe_rows records df Hdf) as [Hrows Hcols].
  assert (Hmean : column_mean column (system_rows df s) =
                  skip_missing_mean (List.map (carried s column) records)).
  { apply column_mean_cells. unfold system_rows.
    apply metrics_data_cells, Hrows. }
  split; [exact Hmean |].
  intros report Hrun Hnum.
  destruct (generate_report_fields df report Hrun) as (Hsys & Ho & Hr & _).
  assert (Hcolumns : columns df = row_columns).
  { apply Hcols. intros Hnil. unfold _create_results_dataframe in Hdf.
    rewrite Hrows, Hnil in Hdf. injection Hdf as <-. simpl in Hsys.
    apply elem_of_nil in Hsys. exact Hsys. }
  assert (Hkept : In column (List.filter
                    (fun column => bool_decide (column ∈ columns df)) numeric_columns)).
  { apply numeric_label_kept; [exact Hnum |]. rewrite Hcolumns.
    apply list_elem_of_In. unfold numeric_columns in Hnum. unfold row_columns.
    simpl in *. tauto. }
  rewrite <- Hmean. unfold mean_numeric_only in Ho, Hr.
  destruct s.
  - rewrite Ho.
    exact (proj2 (series_lookup
      (fun column => column_mean column (system_rows df Original)) _ column Hkept)).
  - rewrite Hr.
    exact (proj2 (series_lookup
      (fun column => column_mean column (system_rows df Reranked)) _ column Hkept)).
Qed.
End EvaluatorProperties.

(** * Instances on concrete inputs *)

Lemma unrelated_cosine_range (lo : Q) (a b : str) :
  lo <= - (1 # 10) -> lo <= unrelated_cosine a b <= 1.
Proof.
  intros Hlo. unfold unrelated_cosine. destruct (bool_decide (a = b)); split;
    try exact Hlo; try discriminate.
  eapply Qle_trans; [exact Hlo | discriminate].
Defined.

(** The judge reconstructs a question unrelated to the one asked: the
    relevancy is the negative cosine -1/10. *)
Lemma relevancy_below_zero : ~ scores_in_unit_interval.
Proof.
  intros Hclaim.
  destruct (Hclaim ascii_unicode weather_services weather_question weather_answer
              covered_truth claims_contexts weather_script
              (fun a b => unrelated_cosine_range (-1) a b ltac:(discriminate)))
    as (_ & [Hlow _] & _).
  vm_compute in Hlow. apply Hlow. reflexivity.
Qed.

Example relevancy_value :
  fst (@calculate_answer_relevancy ascii_unicode weather_services
         weather_question weather_answer weather_script) == - (1 # 10).
Proof. vm_compute. reflexivity. Qed.

(** The reranked backend returns one dict-shaped passage with empty
    content: the record still gets reranked metrics. *)
Lemma empty_content_still_scored : ~ omitted_without_content.
Proof.
  intros Hclaim.
  pose (run := @evaluate_single_question ascii_unicode blank_services question1
                 [] [] [lit "I could not find it."]).
  assert (Hnone : fst run = inr (match fst run with inr r => r | inl _ => ∅ end))
    by (vm_compute; reflexivity).
  specialize (Hclaim ascii_unicode blank_services question1 [] []
                [lit "I could not find it."] [lit "I could not find it."] (snd run)
                (lit "What is the capital of France?") (found_result, blank_result)
                (match fst run with inr r => r | inl _ => ∅ end) Reranked
                eq_refl eq_refl).
  assert (Hrun : @evaluate_single_question ascii_unicode blank_services question1
                   [] [] [lit "I could not find it."] =
                 (inr (match fst run with inr r => r | inl _ => ∅ end), snd run)).
  { rewrite <- Hnone. subst run. apply surjective_pairing. }
  specialize (Hclaim Hrun eq_refl). vm_compute in Hclaim. discriminate Hclaim.
Qed.

(** A passage with a null content next to a usable one: the judge is
    still asked about the first passage, then slicing the null raises,
    and the record gets no reranked metrics. *)
Example null_content_drops_metrics :
  match @evaluate_single_question ascii_unicode null_content_services question1
          [] [] [] with
  | (inr record, _) =>
      record !! "reranked_metrics" = None /\ is_Some (record !! "original_metrics")
  | _ => False
  end.
Proof. vm_compute. split; eauto. Qed.

(** The sentence that supports the claim lies beyond the first 3000
    characters of the joined contexts: the judge, who would confirm the
    claim on the whole text, never sees it, and the score is 0, not 1. *)
Lemma context_beyond_3000_unseen : ~ judged_on_whole_contexts.
Proof.
  intros Hclaim.
  specialize (Hclaim ascii_unicode reading_services seine_answer long_contexts tt).
  cbv zeta in Hclaim.
  assert (Hclaims : @numbered_lines ascii_unicode
                      (fst (@call_llm reading_services
                              (extraction_request seine_answer) tt)) <> [])
    by (vm_compute; discriminate).
  specialize (Hclaim Hclaims). vm_compute in Hclaim. discriminate Hclaim.
Qed.

Example long_contexts_scores :
  fst (@calculate_faithfulness ascii_unicode reading_services seine_answer
         long_contexts tt) == 0 /\
  fst (@calculate_faithfulness ascii_unicode reading_services seine_answer
         (rev long_contexts) tt) == 1.
Proof. split; vm_compute; reflexivity. Qed.

Lemma context_recall_keyword_overlap_witness :
  @calculate_context_recall ascii_unicode covered_truth
    [lit "The capital city: PARIS"; lit "x"] == Qnat 4 / Qnat 5.
Proof.
  pose proof (@context_recall_keyword_overlap ascii_unicode covered_truth
                [lit "The capital city: PARIS"; lit "x"]) as Hspec.
  cbv zeta in Hspec. destruct Hspec as (_ & Hratio & _).
  apply Hratio; intros Hnil; vm_compute in Hnil; discriminate Hnil.
Defined.

Lemma faithfulness_entailed_fraction_witness :
  fst (@calculate_faithfulness ascii_unicode claims_services claims_answer
         claims_contexts claims_script) = Qnat 1 / Qnat 2.
Proof.
  pose proof (@faithfulness_entailed_fraction ascii_unicode claims_services
                claims_answer claims_contexts claims_script) as Hspec.
  cbv zeta in Hspec. destruct Hspec as (_ & Hratio & _).
  apply Hratio. intros Hnil. vm_compute in Hnil. discriminate Hnil.
Defined.


Lemma metric_ranges_witness :
  - (1 # 10) <= fst (@calculate_answer_relevancy ascii_unicode weather_services
                       weather_question weather_answer weather_script) <= 1 /\
  0 <= fst (@calculate_faithfulness ascii_unicode weather_services
              weather_answer claims_contexts weather_script) <= 1.
Proof.
  pose proof (@metric_ranges ascii_unicode weather_services (- (1 # 10))
                weather_question weather_answer covered_truth claims_contexts 5
                weather_script ltac:(discriminate)
                (fun a b => unrelated_cosine_range (- (1 # 10)) a b (Qle_refl _)))
    as Hspec.
  cbv zeta in Hspec. destruct Hspec as (Hf & Hr & _). split; [exact Hr | exact Hf].
Defined.

Lemma make_question_keys (id question ground_truth : string) :
  question_with (make_question id question ground_truth)
                (lit id) (lit question) (lit ground_truth).
Proof. unfold question_with, make_question. repeat split; by simplify_map_eq. Defined.

Lemma second_fails_returns (query : str) (w0 : list str) :
  exists results w1,
    @fetch_both_systems batch_services query [] [] 10%nat w0 = (inr results, w1).
Proof.
  simpl. unfold second_fails. destruct (bool_decide _); eexists _, _; reflexivity.
Defined.

(** Three questions, the second with a failing reranked backend: three
    records come back. *)
Lemma batch_omits_failed_variant_witness :
  exists df records w',
    @batch_evaluate ascii_unicode batch_services
      [question1; question2; question3] [] [] [] = (inr (df, records), w') /\
    length records = 3%nat /\
    Forall2 (@record_for batch_services [] [])
            [question1; question2; question3] records.
Proof.
  apply (@batch_omits_failed_variant ascii_unicode batch_services
           [question1; question2; question3] [] [] []).
  - repeat constructor; eexists _, _, _; apply make_question_keys.
  - intros q w0. apply second_fails_returns.
Defined.

Example batch_second_record :
  match @batch_evaluate ascii_unicode batch_services
          [question1; question2; question3] [] [] [] with
  | (inr (df, [r1; r2; r3]), _) =>
      r2 !! "reranked_metrics" = None /\
      is_Some (r2 !! "original_metrics") /\
      is_Some (r1 !! "reranked_metrics") /\
      is_Some (r3 !! "reranked_metrics") /\
      length (rows df) = 5%nat
  | _ => False
  end.
Proof. vm_compute. repeat split; eauto. Qed.

Lemma record_keeps_question_fields_witness :
  exists record w2,
    @evaluate_single_question ascii_unicode batch_services question2 [] [] [] =
      (inr record, w2) /\
    record !! "question_id" = Some (VStr (lit "q2")) /\
    record !! "question" = Some (VStr (lit "What is the capital of Italy?")) /\
    record !! "ground_truth" = Some (VStr (lit "Rome is the capital of Italy")).
Proof.
  destruct (@record_keeps_question_fields ascii_unicode batch_services question2
              [] [] [] [] (lit "q2") (lit "What is the capital of Italy?")
              (lit "Rome is the capital of Italy") (found_result, failed_result)
              (make_question_keys _ _ _) eq_refl)
    as (record & w2 & Hrun & Hid & Hq & Hgt & _).
  exists record, w2. auto.
Defined.

(** Two of three records carry reranked metrics (faithfulness 0.6 and
    0.8): the reranked mean of the table is taken over these two. *)
Example two_of_three_reranked_mean :
  match column_mean "faithfulness" (system_rows two_of_three_table Reranked) with
  | Finite mean => mean == 7 # 10
  | _ => False
  end.
Proof. vm_compute. reflexivity. Qed.


Example improvement_values :
  improvement (Finite 0) (Finite 0) = Finite 0 /\
  improvement (Finite 0) (Finite 5) = PosInf /\
  improvement (Finite 4) (Finite 5) = Finite ((5 - 4) / 4 * 100) /\
  improvement NaN (Finite 5) = NaN /\
  improvement (Finite 0) NaN = PosInf.
Proof. repeat split; reflexivity. Qed.

Example paired_improvements :
  match @generate_report (constant_ttest NaN NaN) paired_table with
  | inr report =>
      improvements report !! "faithfulness" = Some PosInf /\
      match improvements report !! "context_recall" with
      | Some (Finite change) => change == 0
      | _ => False
      end /\
      improvements report !! "response_time_ms" = None
  | inl _ => False
  end.
Proof. vm_compute. repeat split; reflexivity. Qed.

(** * Further properties of the metrics engine *)

Lemma size_split (A B : gset str) : size A = (size (A ∩ B) + size (A ∖ B))%nat.
Proof.
  rewrite <- size_union by set_solver. f_equal. apply set_eq. intros x.
  destruct (decide (x ∈ B)); set_solver.
Qed.

Lemma intersection_size_comm (A B : gset str) : size (A ∩ B) = size (B ∩ A).
Proof. f_equal. set_solver. Qed.

Lemma Qnat_plus (n m : nat) : Qnat (n + m) == Qnat n + Qnat m.
Proof. unfold Qnat. rewrite Nat2Z.inj_add, inject_Z_plus. reflexivity. Qed.

Section FurtherMetrics.
Context {unicode : Unicode} {services : Services}.

Lemma fact_f1_dice_core (a t : str) (answer_facts truth_facts : list str) :
  let A : gset str := list_to_set (a :: answer_facts) in
  let B : gset str := list_to_set (t :: truth_facts) in
  fact_f1 (a :: answer_facts) (t :: truth_facts) ==
  2 * Qnat (size (A ∩ B)) / (Qnat (size A) + Qnat (size B)).
Proof.
  intros A B. unfold fact_f1. fold A B.
  set (tp := size (A ∩ B)). set (fp := size (A ∖ B)). set (fn := size (B ∖ A)).
  assert (HA : size A = (tp + fp)%nat) by apply size_split.
  assert (HB : size B = (tp + fn)%nat).
  { unfold tp. rewrite intersection_size_comm. apply size_split. }
  assert (HApos : (0 < size A)%nat).
  { assert (size A <> 0%nat) by (apply size_non_empty_iff; subst A; set_solver). lia. }
  assert (HBpos : (0 < size B)%nat).
  { assert (size B <> 0%nat) by (apply size_non_empty_iff; subst B; set_solver). lia. }
  rewrite HA, HB in *.
  destruct (0 <? tp + fp)%nat eqn:E1; [| apply Nat.ltb_ge in E1; lia].
  destruct (0 <? tp + fn)%nat eqn:E2; [| apply Nat.ltb_ge in E2; lia].
  pose proof (Qnat_pos _ HApos) as PA. pose proof (Qnat_pos _ HBpos) as PB.
  destruct tp as [|tp'].
  - simpl plus in *. 
    destruct (Qlt_le_dec 0 (Qnat 0 / Qnat fp + Qnat 0 / Qnat fn)) as [Hlt | _].
    + exfalso. revert Hlt. unfold Qdiv. rewrite !Qmult_0_l. discriminate.
    + unfold Qdiv. rewrite Qmult_0_r, Qmult_0_l. reflexivity.
  - set (n := S tp') in *. assert (Pn : 0 < Qnat n) by (apply Qnat_pos; lia).
    assert (Pp : 0 < Qnat n / Qnat (n + fp)).
    { apply Qlt_shift_div_l; [exact PA |]. rewrite Qmult_0_l. exact Pn. }
    assert (Pr : 0 < Qnat n / Qnat (n + fn)).
    { apply Qlt_shift_div_l; [exact PB |]. rewrite Qmult_0_l. exact Pn. }
    destruct (Qlt_le_dec 0 (Qnat n / Qnat (n + fp) + Qnat n / Qnat (n + fn))) as [_ | Hle];
      [| exfalso; lra].
    rewrite !Qnat_plus in *. field. repeat split; try lra.
    pose proof (Qnat_nonneg fp). pose proof (Qnat_nonneg fn). nra.
Qed.

(** The F1 of two non-empty fact lists is the Dice overlap of the two
    fact sets: twice the number of common facts over the sum of the two
    set sizes.  Duplicates and order within a list do not matter. *)
Theorem fact_f1_dice (a t : str) (answer_facts truth_facts : list str) :
  let A : gset str := list_to_set (a :: answer_facts) in
  let B : gset str := list_to_set (t :: truth_facts) in
  fact_f1 (a :: answer_facts) (t :: truth_facts) ==
  2 * Qnat (size (A ∩ B)) / (Qnat (size A) + Qnat (size B)).
Proof. exact (fact_f1_dice_core a t answer_facts truth_facts). Qed.

(** Exact matching: the F1 of two non-empty fact lists is 1 exactly when
    the two lists hold the same set of fact strings. *)
Theorem fact_f1_one_iff_same_facts (a t : str) (answer_facts truth_facts : list str) :
  fact_f1 (a :: answer_facts) (t :: truth_facts) == 1 <->
  (list_to_set (a :: answer_facts) : gset str) = list_to_set (t :: truth_facts).
Proof.
  rewrite fact_f1_dice_core.
  set (A := list_to_set (a :: answer_facts) : gset str).
  set (B := list_to_set (t :: truth_facts) : gset str).
  pose proof (size_split A B) as HA. pose proof (size_split B A) as HB.
  rewrite (intersection_size_comm B A) in HB.
  assert (HApos : (0 < size A)%nat).
  { assert (size A <> 0%nat) by (apply size_non_empty_iff; subst A; set_solver). lia. }
  pose proof (Qnat_pos _ HApos) as PA. pose proof (Qnat_nonneg (size B)) as PB.
  split.
  - intros Hone.
    assert (Heq : 2 * Qnat (size (A ∩ B)) == Qnat (size A) + Qnat (size B)).
    { assert (Hmul : 2 * Qnat (size (A ∩ B)) ==
                     2 * Qnat (size (A ∩ B)) / (Qnat (size A) + Qnat (size B)) *
                     (Qnat (size A) + Qnat (size B))) by (field; lra).
      rewrite Hone in Hmul. lra. }
    rewrite HA, HB, !Qnat_plus in Heq.
    assert (Hz : Qnat (size (A ∖ B)) + Qnat (size (B ∖ A)) == 0) by lra.
    pose proof (Qnat_nonneg (size (A ∖ B))) as N1.
    pose proof (Qnat_nonneg (size (B ∖ A))) as N2.
    assert (Z1 : size (A ∖ B) = 0%nat).
    { destruct (size (A ∖ B)); [reflexivity |]. exfalso.
      pose proof (Qnat_pos (S n) ltac:(lia)). lra. }
    assert (Z2 : size (B ∖ A) = 0%nat).
    { destruct (size (B ∖ A)); [reflexivity |]. exfalso.
      pose proof (Qnat_pos (S n) ltac:(lia)). lra. }
    apply size_empty_inv in Z1, Z2. apply set_eq. intros x.
    destruct (decide (x ∈ A)), (decide (x ∈ B)); set_solver.
  - intros Hsame. rewrite <- Hsame.
    replace (A ∩ A) with A by set_solver. field. lra.
Qed.

(** *** Context precision *)

Lemma fold_left_Qplus_acc (l : list Q) (a : Q) : fold_left Qplus l a == a + Qsum l.
Proof.
  unfold Qsum. revert a. induction l as [|x l IH]; intros a; simpl.
  - ring.
  - rewrite (IH (a + x)), (IH (0 + x)). ring.
Qed.

Lemma Qsum_cons (x : Q) (l : list Q) : Qsum (x :: l) == x + Qsum l.
Proof. unfold Qsum at 1. simpl. rewrite fold_left_Qplus_acc. ring. Qed.

(** Dropping non-negative terms does not increase a sum. *)
Lemma Qsum_sublist (f : nat -> Q) (l1 l2 : list nat) :
  (forall n, 0 <= f n) -> sublist l1 l2 ->
  Qsum (List.map f l1) <= Qsum (List.map f l2).
Proof.
  intros Hf Hsub. induction Hsub as [|x l1 l2 _ IH|x l1 l2 _ IH].
  - apply Qle_refl.
  - cbn [List.map]. rewrite !Qsum_cons. lra.
  - cbn [List.map]. rewrite Qsum_cons. pose proof (Hf x). lra.
Qed.

(** The relevant positions are picked, in order, from the positions of
    the contexts shown to the judge. *)
Lemma judge_positions_sublist (question : str) (contexts : list str) (i : nat)
    (w : World) :
  sublist (fst (judge_positions question contexts i w)) (seq i (length contexts)).
Proof.
  revert i w. induction contexts as [|context rest IH]; intros i w.
  - simpl. constructor.
  - cbn [judge_positions length seq]. unfold mbind, state_bind, mret, state_ret.
    destruct (call_llm (relevance_prompt question (take 500 context)) w) as [answer w1].
    specialize (IH (S i) w1).
    destruct (judge_positions question rest (S i) w1) as [later w2]. simpl in *.
    destruct (str_in (lit "YES") (str_upper (strip answer))); simpl.
    + apply sublist_skip, IH.
    + apply sublist_cons, IH.
Qed.

Lemma seq_sublist_longer (i n m : nat) : (n <= m)%nat -> sublist (seq i n) (seq i m).
Proof.
  revert i m. induction n as [|n IH]; intros i m Hnm.
  - apply sublist_nil_l.
  - destruct m as [|m]; [lia |]. simpl. apply sublist_skip, IH. lia.
Qed.

(** With the five contexts the evaluator has judged ([k = 5]), context
    precision never exceeds (1 + 1/2 + 1/3 + 1/4 + 1/5) / 5 = 137/300,
    whatever the judge answers: the cap at 1.0 is never reached. *)
Theorem context_precision_at_5_bound (question : str) (contexts : list str)
    (w : World) :
  fst (calculate_context_precision question contexts 5 w) <= 137 # 300.
Proof.
  unfold calculate_context_precision, mbind, state_bind.
  pose proof (judge_positions_sublist question (take 5 contexts) 1 w) as Hsub.
  destruct (judge_positions question (take 5 contexts) 1 w) as [positions w1].
  simpl in Hsub. destruct positions as [|pos rest]; [discriminate |].
  change (py_min (Qsum (List.map (fun p => 1 / Qnat p) (pos :: rest)) / Qnat 5) 1
          <= 137 # 300).
  assert (Hlen : (length (take 5 contexts) <= 5)%nat) by (rewrite length_take; lia).
  assert (Hfull : sublist (pos :: rest) (seq 1 5)).
  { etransitivity; [exact Hsub |]. apply seq_sublist_longer, Hlen. }
  pose proof (Qsum_sublist (fun p => 1 / Qnat p) _ _
                (fun n => Qdiv_nonneg 1 (Qnat n) ltac:(discriminate) (Qnat_nonneg n))
                Hfull) as Hsum.
  assert (Hall : Qsum (List.map (fun p => 1 / Qnat p) (seq 1 5)) == 137 # 60)
    by reflexivity.
  rewrite Hall in Hsum.
  unfold py_min.
  destruct (Qlt_le_dec 1 _) as [Hlt | _].
  - exfalso. apply Qlt_not_le in Hlt. apply Hlt.
    apply Qle_shift_div_r; [reflexivity |]. eapply Qle_trans; [exact Hsum |]. discriminate.
  - apply Qle_shift_div_r; [reflexivity |]. eapply Qle_trans; [exact Hsum |].
    unfold Qle. simpl. lia.
Qed.

(** *** Judge outage *)

(** When every judge call comes back empty, as [_call_llm] makes it on
    any failure: faithfulness is 1 (no claim to check), answer relevancy
    is the neutral 0.5, the fact F1 is 1 (two empty fact lists) so that
    standard correctness is 0.5 + 0.5 similarity, and context precision
    is 0 (given that upper-casing the empty string gives the empty
    string). *)
Theorem judge_outage_defaults (question answer ground_truth : str)
    (contexts : list str) (k : nat) (w : World) :
  (forall prompt w0, fst (call_llm prompt w0) = []) ->
  str_upper [] = [] ->
  fst (calculate_faithfulness answer contexts w) = 1 /\
  fst (calculate_answer_relevancy question answer w) = 1 # 2 /\
  fst (calculate_context_precision question contexts k w) = 0 /\
  f1_score (fst (calculate_answer_correctness answer ground_truth w)) = 1 /\
  standard_correctness (fst (calculate_answer_correctness answer ground_truth w)) =
    1 * (5 # 10) + embedding_cosine answer ground_truth * (5 # 10).
Proof.
  intros Hout Hupper.
  assert (Hcall : forall prompt w0, exists w1, call_llm prompt w0 = ([], w1)).
  { intros prompt w0. specialize (Hout prompt w0).
    destruct (call_llm prompt w0) as [reply w1]. simpl in Hout. subst. eauto. }
  split; [| split; [| split]].
  - unfold calculate_faithfulness, mbind, state_bind.
    destruct (Hcall (claims_prompt answer) w) as [w1 ->]. reflexivity.
  - unfold calculate_answer_relevancy, mbind, state_bind.
    destruct (Hcall (questions_prompt answer) w) as [w1 ->]. reflexivity.
  - unfold calculate_context_precision, mbind, state_bind.
    assert (Hnone : forall cs i w0, fst (judge_positions question cs i w0) = []).
    { induction cs as [|c cs IH]; intros i w0; [reflexivity |].
      cbn [judge_positions]. unfold mbind, state_bind, mret, state_ret.
      destruct (Hcall (relevance_prompt question (take 500 c)) w0) as [w1 ->].
      specialize (IH (S i) w1).
      destruct (judge_positions question cs (S i) w1) as [later w2]. simpl in *.
      subst later. unfold strip. simpl. rewrite Hupper. reflexivity. }
    specialize (Hnone (take k contexts) 1%nat w).
    destruct (judge_positions question (take k contexts) 1 w) as [positions w1].
    simpl in Hnone. subst positions. reflexivity.
  - unfold calculate_answer_correctness, extract_facts, mbind, state_bind, mret, state_ret.
    destruct (Hcall (facts_prompt answer) w) as [w1 ->].
    destruct (Hcall (facts_prompt ground_truth) w1) as [w2 ->].
    split; reflexivity.
Qed.

(** *** Keyword coverage *)

Lemma occurs_app_l (t p s : str) : occurs t s -> occurs t (p ++ s).
Proof.
  intros (a & b & ->). exists (p ++ a), b. rewrite <- app_assoc. reflexivity.
Qed.

Lemma occurs_trans (t s u : str) : occurs t s -> occurs s u -> occurs t u.
Proof.
  intros (a & b & ->) (c & d & ->). exists (c ++ a), (b ++ d).
  rewrite <- !app_assoc. reflexivity.
Qed.

(** Every token of [s.split()] occurs in [s]. *)
Lemma words_occur (s cur t : str) : In t (words cur s) -> occurs t (rev cur ++ s).
Proof.
  revert cur. induction s as [|c s IH]; intros cur Hin.
  - simpl in Hin. destruct cur as [|x cur]; [destruct Hin |].
    destruct Hin as [<- | []]. exists [], []. rewrite !app_nil_r. reflexivity.
  - cbn [words] in Hin. destruct (isspace c).
    + destruct cur as [|x cur].
      * apply IH in Hin. simpl in *. destruct Hin as (a & b & ->).
        exists (c :: a), b. reflexivity.
      * destruct Hin as [<- | Hin].
        -- exists [], (c :: s). reflexivity.
        -- apply IH in Hin. simpl in Hin. apply occurs_app_l.
           destruct Hin as (a & b & ->). exists (c :: a), b. reflexivity.
    + apply IH in Hin. simpl in Hin. rewrite <- app_assoc in Hin. exact Hin.
Qed.

Lemma split_ws_occur (s t : str) : In t (split_ws s) -> occurs t s.
Proof. intros Hin. apply (words_occur s [] t Hin). Qed.

Lemma count_found_all (terms : list str) (text : str) :
  (forall t, In t terms -> occurs t text) -> count_found terms text = length terms.
Proof.
  intros Hall. unfold count_found. induction terms as [|t terms IH]; [reflexivity |].
  simpl. rewrite (proj2 (str_in_occurs t text)) by (apply Hall; left; reflexivity).
  simpl. rewrite IH; [reflexivity |]. intros u Hu. apply Hall. right. exact Hu.
Qed.

Lemma Qnat_ratio_one (n : nat) : (0 < n)%nat -> Qnat n / Qnat n == 1.
Proof.
  intros Hn. pose proof (Qnat_pos n Hn). field. lra.
Qed.

(** An answer whose lower-cased text contains the lower-cased ground
    truth covers every key term: with at least one ground-truth word
    longer than 3 characters the coverage is 1, [all_facts_present] is
    set and the advanced correctness is at least 0.8, whatever the judge
    and the embedder say. *)
Theorem answer_containing_truth_is_covered (answer ground_truth : str) (w : World) :
  occurs (str_lower ground_truth) (str_lower answer) ->
  key_terms_of (str_lower ground_truth) <> [] ->
  let c := fst (calculate_answer_correctness answer ground_truth w) in
  term_coverage answer ground_truth == 1 /\
  all_facts_present c = true /\
  8 # 10 <= advanced_correctness c.
Proof.
  intros Hinside Hterms c.
  assert (Hcov : term_coverage answer ground_truth == 1).
  { unfold term_coverage.
    destruct (key_terms_of (str_lower ground_truth)) as [|t ts] eqn:Hkt; [congruence |].
    rewrite count_found_all.
    - apply Qnat_ratio_one. simpl. lia.
    - intros u Hu. rewrite <- Hkt in Hu. unfold key_terms_of in Hu.
      apply filter_In in Hu as [Hu _].
      eapply occurs_trans; [apply split_ws_occur, Hu | exact Hinside]. }
  destruct (answer_correctness_fields answer ground_truth w)
    as (_ & _ & Hadv & Hall & _). fold c in Hadv, Hall.
  assert (Hge : Qgeb (term_coverage answer ground_truth) (8 # 10) = true).
  { unfold Qgeb. apply Qle_bool_iff. rewrite Hcov. discriminate. }
  split; [exact Hcov |]. split; [rewrite Hall; exact Hge |].
  rewrite Hadv, Hge. apply py_max_lower.
Qed.

(** Contexts whose lower-cased, space-joined text contains the
    lower-cased ground truth give a context recall of 1, provided the
    ground truth has at least one token. *)
Theorem contexts_containing_truth_recall_1 (ground_truth : str)
    (contexts : list str) :
  contexts <> [] ->
  split_ws (str_lower ground_truth) <> [] ->
  occurs (str_lower ground_truth) (str_lower (join (lit " ") contexts)) ->
  calculate_context_recall ground_truth contexts == 1.
Proof.
  intros Hctx Htokens Hinside. unfold calculate_context_recall.
  destruct contexts as [|c cs]; [congruence |].
  set (key_terms := take 5 (split_ws (str_lower ground_truth))).
  assert (Hne : (0 < length key_terms)%nat).
  { subst key_terms. destruct (split_ws (str_lower ground_truth)); [congruence |].
    simpl. lia. }
  rewrite count_found_all.
  - apply Nat.ltb_lt in Hne. rewrite Hne. apply Nat.ltb_lt in Hne.
    apply Qnat_ratio_one, Hne.
  - intros u Hu. subst key_terms.
    assert (Hin : In u (split_ws (str_lower ground_truth))).
    { rewrite <- (firstn_skipn 5 (split_ws (str_lower ground_truth))).
      apply in_or_app. left. exact Hu. }
    eapply occurs_trans; [apply split_ws_occur, Hin | exact Hinside].
Qed.
End FurtherMetrics.

(** * Further properties of the batch evaluator *)

Section FurtherEvaluator.
Context {unicode : Unicode} {services : Services} {scipy : SciPy}.

Lemma format_docs_entries (chunks : list chunk) (i : nat) (docs : list formatted_doc) :
  format_docs i chunks = inr docs ->
  length docs = length chunks /\
  forall n doc, docs !! n = Some doc ->
    citation_index doc = (i + n)%nat /\
    exists d, chunks !! n = Some (ChunkDict d) /\
              source_text doc = default (Text []) (content d) /\
              doc_title doc = default (Text []) (title d).
Proof.
  revert i docs. induction chunks as [|[d|] chunks IH]; intros i docs Hrun.
  - injection Hrun as <-. split; [reflexivity |]. intros n doc Hn. destruct n; discriminate.
  - cbn [format_docs] in Hrun.
    destruct (format_docs (S i) chunks) as [e | rest] eqn:Hrest; [discriminate |].
    injection Hrun as <-. destruct (IH (S i) rest Hrest) as [Hlen Hdocs].
    split; [simpl; lia |]. intros [|n] doc Hn.
    + injection Hn as <-. simpl. split; [lia |]. exists d. auto.
    + simpl in Hn. destruct (Hdocs n doc Hn) as (Hidx & d' & Hd' & Hsrc).
      split; [lia |]. exists d'. auto.
  - discriminate.
Qed.

(** [generate_answer] numbers the documents it hands to the model by
    their position in the passage list, starting at 1, with the passage's
    content as source text (empty when the key is absent); a passage that
    is no dict makes it raise instead. *)
Theorem formatted_docs_cite_positions (chunks : list chunk) :
  (forallb is_dict chunks = true ->
   exists docs,
     format_docs 1 chunks = inr docs /\
     length docs = length chunks /\
     forall n doc, docs !! n = Some doc ->
       citation_index doc = S n /\
       exists d, chunks !! n = Some (ChunkDict d) /\
                 source_text doc = default (Text []) (content d) /\
                 doc_title doc = default (Text []) (title d)) /\
  (forallb is_dict chunks = false ->
   forall question w, exists e w',
     generate_answer question chunks w = (inl e, w')).
Proof.
  split.
  - intros Hdicts. destruct (format_docs_dicts chunks 1 Hdicts) as [docs Hdocs].
    exists docs. split; [exact Hdocs |].
    destruct (format_docs_entries chunks 1 docs Hdocs) as [Hlen Hentries].
    split; [exact Hlen |]. intros n doc Hn. apply Hentries, Hn.
  - intros Hother question w. destruct (format_docs_other chunks 1 Hother) as [e He].
    exists e, w. unfold generate_answer, of_result, mbind, exc_bind. rewrite He.
    reflexivity.
Qed.

Lemma forallb_is_dict_other (cs : list chunk) :
  In ChunkOther cs -> forallb is_dict cs = false.
Proof.
  intros Hin. apply not_true_is_false. intros Hall.
  rewrite forallb_forall in Hall. specialize (Hall ChunkOther Hin). discriminate.
Qed.

(** One passage that is no dict among a variant's passages costs the
    variant its metrics, even when the other passages are usable: the
    answer generation raises and the evaluator moves on. *)
Theorem non_dict_passage_drops_metrics (question_data : gmap string str)
    (folder_ids unique_titles : list str) (w w1 : World) (id q gt : str)
    (results : SystemResult * SystemResult) (s : system) :
  question_with question_data id q gt ->
  fetch_both_systems q folder_ids unique_titles 10 w = (inr results, w1) ->
  In ChunkOther (chunks (result_of results s)) ->
  exists record w2,
    evaluate_single_question question_data folder_ids unique_titles w =
      (inr record, w2) /\
    record !! metrics_key s = None.
Proof.
  intros Hq Hfetch Hother.
  destruct (evaluate_single_question_record question_data folder_ids unique_titles
              w w1 id q gt results Hq Hfetch)
    as (record & w2 & Hrun & (_ & _ & _ & Hmetrics) & _).
  exists record, w2. split; [exact Hrun |].
  specialize (Hmetrics s). unfold attaches in Hmetrics.
  rewrite (forallb_is_dict_other _ Hother), andb_false_r in Hmetrics. exact Hmetrics.
Qed.

(** *** Failures inside the batch loop *)

(** [evaluate_single_question] either raises or returns a well-formed
    record. *)
Lemma evaluate_single_question_cases (question_data : gmap string str)
    (folder_ids unique_titles : list str) (w : World) :
  (exists e w', evaluate_single_question question_data folder_ids unique_titles w =
                (inl e, w')) \/
  (exists record w', evaluate_single_question question_data folder_ids unique_titles w =
                     (inr record, w') /\ well_formed_record record).
Proof.
  destruct (question_data !! "question") as [q|] eqn:Hq.
  2: { left. exists (KeyError "question"), w.
       unfold evaluate_single_question, getitem, of_result, mbind, exc_bind.
       rewrite Hq. reflexivity. }
  destruct (question_data !! "ground_truth") as [gt|] eqn:Hgt.
  2: { left. exists (KeyError "ground_truth"), w.
       unfold evaluate_single_question, getitem, of_result, mbind, exc_bind.
       rewrite Hq, Hgt. reflexivity. }
  destruct (fetch_both_systems q folder_ids unique_titles 10 w) as [[e | results] w1]
    eqn:Hfetch.
  { left. exists e, w1.
    unfold evaluate_single_question, getitem, of_result.
    rewrite Hq, Hgt. unfold mbind at 1 2 3, exc_bind at 1 2 3. rewrite Hfetch.
    reflexivity. }
  destruct (question_data !! "id") as [id|] eqn:Hid.
  2: { left. exists (KeyError "id"), w1.
       unfold evaluate_single_question, getitem, of_result.
       rewrite Hq, Hgt, Hid. unfold mbind at 1 2 3 4, exc_bind at 1 2 3 4.
       rewrite Hfetch. reflexivity. }
  right.
  destruct (evaluate_single_question_record question_data folder_ids unique_titles
              w w1 id q gt results (conj Hid (conj Hq Hgt)) Hfetch)
    as (record & w2 & Hrun & Hrecord & _).
  exists record, w2. split; [exact Hrun |].
  eapply evaluation_of_well_formed, Hrecord.
Qed.

(** The loop over a run of questions that all have an [id] goes through:
    each question adds at most one record, and the loop carries on with
    whatever follows. *)
Lemma evaluate_all_prefix (pre : list (gmap string str))
    (folder_ids unique_titles : list str) :
  Forall (fun question_data => is_Some (question_data !! "id")) pre ->
  forall all_results w,
  exists records w',
    (length records <= length pre)%nat /\
    Forall well_formed_record records /\
    forall rest,
      evaluate_all (pre ++ rest) folder_ids unique_titles all_results w =
      evaluate_all rest folder_ids unique_titles (all_results ++ records) w'.
Proof.
  intros Hids. induction Hids as [|question_data pre [id Hid] _ IH]; intros all_results w.
  - exists [], w. split; [simpl; lia |]. split; [constructor |].
    intros rest. rewrite app_nil_r. reflexivity.
  - destruct (evaluate_single_question_cases question_data folder_ids unique_titles w)
      as [(e & w1 & Hrun) | (record & w1 & Hrun & Hwf)].
    + destruct (IH all_results w1) as (records & w2 & Hlen & Hall & Hrest).
      exists records, w2. split; [simpl; lia |]. split; [exact Hall |].
      intros rest. rewrite <- Hrest. cbn [app evaluate_all].
      unfold getitem, of_result. rewrite Hid.
      unfold mbind at 1 2, exc_bind at 1 2, try_except.
      unfold mbind at 1, exc_bind at 1. rewrite Hrun. reflexivity.
    + destruct (IH (all_results ++ [record]) w1) as (records & w2 & Hlen & Hall & Hrest).
      exists (record :: records), w2. split; [simpl; lia |].
      split; [constructor; assumption |].
      intros rest. cbn [app evaluate_all].
      unfold getitem, of_result. rewrite Hid.
      unfold mbind at 1 2, exc_bind at 1 2, try_except.
      unfold mbind at 1, exc_bind at 1. rewrite Hrun.
      unfold mret at 1, exc_ret at 1. rewrite Hrest, <- app_assoc. reflexivity.
Qed.

(** Partial-failure tolerance: when every question has an [id],
    [batch_evaluate] returns, whatever retrieval, the models and the
    other keys of the questions do; a question whose evaluation raises is
    skipped, so there are at most as many records as questions. *)
Theorem batch_survives_failing_questions (questions : list (gmap string str))
    (folder_ids unique_titles : list str) (w : World) :
  Forall (fun question_data => is_Some (question_data !! "id")) questions ->
  exists df records w',
    batch_evaluate questions folder_ids unique_titles w = (inr (df, records), w') /\
    (length records <= length questions)%nat /\
    _create_results_dataframe records = inr df.
Proof.
  intros Hids.
  destruct (evaluate_all_prefix questions folder_ids unique_titles Hids [] w)
    as (records & w' & Hlen & Hwf & Hrun).
  specialize (Hrun []). rewrite app_nil_r in Hrun.
  destruct (create_results_dataframe_total records Hwf) as [df Hdf].
  exists df, records, w'. split; [| split; assumption].
  unfold batch_evaluate, mbind, exc_bind. rewrite Hrun. simpl.
  unfold of_result. rewrite Hdf. reflexivity.
Qed.

(** The progress line reads [question_data['id']] outside the [try]: the
    first question without an [id] aborts the whole batch with
    [KeyError('id')], and the records gathered so far are lost. *)
Theorem batch_aborts_on_missing_id (pre post : list (gmap string str))
    (bad : gmap string str) (folder_ids unique_titles : list str) (w : World) :
  Forall (fun question_data => is_Some (question_data !! "id")) pre ->
  bad !! "id" = None ->
  exists w',
    batch_evaluate (pre ++ bad :: post) folder_ids unique_titles w =
    (inl (KeyError "id"), w').
Proof.
  intros Hids Hbad.
  destruct (evaluate_all_prefix pre folder_ids unique_titles Hids [] w)
    as (records & w' & _ & _ & Hrun).
  exists w'. unfold batch_evaluate, mbind, exc_bind. rewrite Hrun.
  cbn [evaluate_all]. unfold getitem, of_result, mbind, exc_bind. rewrite Hbad.
  reflexivity.
Qed.

(** *** Shape of the results table *)

Lemma rows_of_result_systems (record : gmap string value) (systems : list system)
    (rows : list Row) :
  rows_of_result record systems = inr rows ->
  Forall (fun r => exists s, row_system r = system_name s /\
                             record !! "question_id" = Some (row_question_id r)) rows.
Proof.
  revert rows. induction systems as [|s systems IH]; intros rows Hrun.
  - injection Hrun as <-. constructor.
  - cbn [rows_of_result] in Hrun.
    destruct (record !! metrics_key s) as [v|]; [| apply IH, Hrun].
    unfold getitem in Hrun.
    destruct (record !! "question_id") as [qid|] eqn:Hqid; [| discriminate].
    destruct v as [|m]; [discriminate |].
    destruct (rows_of_result record systems) as [e | more]; [discriminate |].
    injection Hrun as <-. constructor; [exists s; auto | apply IH; reflexivity].
Qed.

Lemma metrics_data_systems (records : list (gmap string value)) (rows : list Row) :
  metrics_data_of records = inr rows ->
  Forall (fun r => exists s, row_system r = system_name s) rows.
Proof.
  revert rows. induction records as [|record records IH]; intros rows Hrun.
  - injection Hrun as <-. constructor.
  - cbn [metrics_data_of] in Hrun.
    destruct (rows_of_result record [Original; Reranked]) as [e | here] eqn:Hhere;
      [discriminate |].
    destruct (metrics_data_of records) as [e | later]; [discriminate |].
    injection Hrun as <-. apply Forall_app. split; [| apply IH; reflexivity].
    eapply Forall_impl; [apply (rows_of_result_systems _ _ _ Hhere) |].
    intros r (s & Hs & _). exists s. exact Hs.
Qed.

Lemma partition_by_system (rows : list Row) :
  Forall (fun r => exists s, row_system r = system_name s) rows ->
  length rows =
    (length (List.filter (fun r => String.eqb (row_system r) (system_name Original)) rows) +
     length (List.filter (fun r => String.eqb (row_system r) (system_name Reranked)) rows))%nat.
Proof.
  induction 1 as [|r rows [s Hs] _ IH]; [reflexivity |].
  cbn [List.filter]. rewrite Hs.
  assert (Hoo : String.eqb (system_name Original) (system_name Original) = true)
    by reflexivity.
  assert (Hor : String.eqb (system_name Original) (system_name Reranked) = false)
    by reflexivity.
  assert (Hro : String.eqb (system_name Reranked) (system_name Original) = false)
    by reflexivity.
  assert (Hrr : String.eqb (system_name Reranked) (system_name Reranked) = true)
    by reflexivity.
  destruct s; [rewrite Hoo, Hor | rewrite Hro, Hrr]; cbn [length]; lia.
Qed.

Lemma omap_id_length (column : string) (s : system) (records : list (gmap string value)) :
  Forall (fun record => forall v, record !! metrics_key s = Some v ->
                                  exists m, v = VMetrics m) records ->
  length (omap (fun x => x) (List.map (carried s column) records)) =
  length (List.filter (fun record => bool_decide (is_Some (record !! metrics_key s)))
                      records).
Proof.
  induction 1 as [|record records Hv _ IH]; [reflexivity |].
  cbn [List.map List.filter].
  change (omap (fun x => x) (carried s column record :: List.map (carried s column) records))
    with (match carried s column record with
          | Some y => y :: omap (fun x => x) (List.map (carried s column) records)
          | None => omap (fun x => x) (List.map (carried s column) records)
          end).
  unfold carried at 1.
  destruct (record !! metrics_key s) as [v|] eqn:Hkey.
  - destruct (Hv v eq_refl) as [m ->].
    rewrite bool_decide_eq_true_2 by eauto. cbn [length]. f_equal. exact IH.
  - rewrite bool_decide_eq_false_2 by (intros [? ?]; discriminate). exact IH.
Qed.

Lemma metrics_data_values (records : list (gmap string value)) (rows : list Row)
    (s : system) :
  metrics_data_of records = inr rows ->
  Forall (fun record => forall v, record !! metrics_key s = Some v ->
                                  exists m, v = VMetrics m) records.
Proof.
  revert rows. induction records as [|record records IH]; intros rows Hrun;
    [constructor |].
  cbn [metrics_data_of] in Hrun.
  destruct (rows_of_result record [Original; Reranked]) as [e | here] eqn:Hhere;
    [discriminate |].
  destruct (metrics_data_of records) as [e | later] eqn:Hlater; [discriminate |].
  constructor; [| eapply IH; reflexivity].
  intros v Hv. cbn [rows_of_result] in Hhere. unfold getitem in Hhere.
  destruct s; repeat case_match; simplify_eq; eauto.
Qed.

Lemma results_table_shape_core (records : list (gmap string value)) (df : DataFrame) :
  _create_results_dataframe records = inr df ->
  (forall s, length (system_rows df s) =
             length (List.filter
                       (fun record => bool_decide (is_Some (record !! metrics_key s)))
                       records)) /\
  length (rows df) =
    (length (system_rows df Original) + length (system_rows df Reranked))%nat /\
  (rows df = [] -> columns df = []) /\
  (rows df <> [] -> columns df = row_columns).
Proof.
  intros Hdf. destruct (create_results_dataframe_rows records df Hdf) as [Hrows Hcols].
  split; [| split; [| split]].
  - intros s. unfold system_rows.
    rewrite <- (length_map (cell "faithfulness")).
    rewrite (metrics_data_cells records (rows df) s "faithfulness" Hrows).
    apply omap_id_length. eapply metrics_data_values, Hrows.
  - unfold system_rows. apply partition_by_system. eapply metrics_data_systems, Hrows.
  - intros Hnil. unfold _create_results_dataframe in Hdf. rewrite Hrows, Hnil in Hdf.
    injection Hdf as <-. reflexivity.
  - exact Hcols.
Qed.

(** The table built from records has, for each variant, exactly one row
    per record that carries that variant's metrics key, and no other
    rows; it is the column-less empty frame exactly when no record
    carries any metrics, and has the eleven columns otherwise. *)
Theorem results_table_shape (records : list (gmap string value)) (df : DataFrame) :
  _create_results_dataframe records = inr df ->
  (forall s, length (system_rows df s) =
             length (List.filter
                       (fun record => bool_decide (is_Some (record !! metrics_key s)))
                       records)) /\
  length (rows df) =
    (length (system_rows df Original) + length (system_rows df Reranked))%nat /\
  (rows df = [] -> columns df = []) /\
  (rows df <> [] -> columns df = row_columns).
Proof. exact (results_table_shape_core records df). Qed.

(** *** More on the report *)

Lemma improvements_of_keys (index reranked : list (string * pyfloat))
    (acc imp : gmap string pyfloat) (metric : string) :
  improvements_of index reranked acc = inr imp ->
  is_Some (imp !! metric) ->
  is_Some (acc !! metric) \/
  (In metric (List.map fst index) /\ metric <> "response_time_ms").
Proof.
  revert acc. induction index as [|[l o] index IH]; intros acc Hrun Hsome.
  - injection Hrun as <-. left. exact Hsome.
  - cbn [improvements_of] in Hrun. cbn [List.map fst In].
    destruct (String.eqb l "response_time_ms") eqn:Hrt.
    + destruct (IH _ Hrun Hsome) as [Hacc | [Hin Hne]]; [left; exact Hacc |].
      right. split; [right; exact Hin | exact Hne].
    + destruct (series_get reranked l) as [e | r]; [discriminate |].
      destruct (IH _ Hrun Hsome) as [Hacc | [Hin Hne]].
      * destruct (decide (l = metric)) as [-> | Hlm].
        -- right. split; [left; reflexivity |]. apply String.eqb_neq, Hrt.
        -- left. rewrite lookup_insert_ne in Hacc by exact Hlm. exact Hacc.
      * right. split; [right; exact Hin | exact Hne].
Qed.

Lemma series_labels (f : string -> pyfloat) (labels : list string) :
  List.map fst (List.map (fun l => (l, f l)) labels) = labels.
Proof. induction labels as [|l labels IH]; [reflexivity |]. simpl. f_equal. exact IH. Qed.

Lemma report_improvement_entry (df : DataFrame) (report : Report) (metric : string) :
  generate_report df = inr report ->
  In metric numeric_columns -> metric ∈ columns df ->
  metric <> "response_time_ms" ->
  exists o r, improvements report !! metric = Some (improvement o r).
Proof.
  intros Hrun Hnum Hcol Hrt.
  destruct (generate_report_fields df report Hrun) as (_ & _ & _ & Himp & _).
  pose proof (numeric_label_kept df metric Hnum Hcol) as Hkept.
  unfold mean_numeric_only in Himp.
  destruct (improvements_of_lookup _ _ _ _ metric
              (column_mean metric (system_rows df Original)) Himp)
    as (r & _ & Hlook).
  - rewrite series_labels. apply List.NoDup_filter, numeric_columns_nodup.
  - apply in_map_iff. exists metric. split; [reflexivity | exact Hkept].
  - exact Hrt.
  - eauto.
Qed.

(** The improvements of a report never include the response time: their
    keys are numeric columns other than [response_time_ms], and every
    such column of the table has an entry. *)
Theorem improvements_leave_out_response_time (df : DataFrame) (report : Report) :
  generate_report df = inr report ->
  improvements report !! "response_time_ms" = None /\
  (forall metric, is_Some (improvements report !! metric) ->
                  In metric numeric_columns /\ metric <> "response_time_ms") /\
  (forall metric, In metric numeric_columns -> metric ∈ columns df ->
                  metric <> "response_time_ms" ->
                  is_Some (improvements report !! metric)).
Proof.
  intros Hrun.
  destruct (generate_report_fields df report Hrun) as (_ & _ & _ & Himp & _).
  assert (Hkeys : forall metric, is_Some (improvements report !! metric) ->
                    In metric numeric_columns /\ metric <> "response_time_ms").
  { intros metric Hsome.
    destruct (improvements_of_keys _ _ _ _ metric Himp Hsome) as [Hacc | [Hin Hne]].
    - rewrite lookup_empty in Hacc. destruct Hacc as [? ?]. discriminate.
    - split; [| exact Hne]. unfold mean_numeric_only in Hin.
      rewrite series_labels in Hin. apply filter_In in Hin. tauto. }
  split; [| split; [exact Hkeys |]].
  - destruct (improvements report !! "response_time_ms") eqn:Hrt; [| reflexivity].
    destruct (Hkeys "response_time_ms") as [_ Hne]; [eauto | congruence].
  - intros metric Hnum Hcol Hne.
    destruct (report_improvement_entry df report metric Hrun Hnum Hcol Hne)
      as (o & r & Hlook). rewrite Hlook. eauto.
Qed.

Lemma significance_of_keeps (df : DataFrame) (metrics : list string)
    (acc sig : gmap string Significance) (key : string) :
  significance_of df metrics acc = inr sig ->
  is_Some (acc !! key) -> is_Some (sig !! key).
Proof.
  revert acc. induction metrics as [|m metrics IH]; intros acc Hrun Hsome.
  - injection Hrun as <-. exact Hsome.
  - cbn [significance_of] in Hrun. unfold column_values in Hrun.
    destruct (require_column df m); [discriminate |].
    destruct (ttest_rel _ _) as [e | [t p]]; [discriminate |].
    apply (IH _ Hrun). destruct (decide (m = key)) as [-> | Hne].
    + rewrite lookup_insert_eq. eauto.
    + rewrite lookup_insert_ne by exact Hne. exact Hsome.
Qed.

Lemma significance_of_entries (df : DataFrame) (metrics : list string)
    (acc sig : gmap string Significance) :
  significance_of df metrics acc = inr sig ->
  (forall metric, In metric metrics -> is_Some (sig !! metric)) /\
  (forall metric entry, sig !! metric = Some entry ->
     acc !! metric = Some entry \/
     (In metric metrics /\
      significant entry = float_ltb (p_value entry) (5 # 100) /\
      ttest_rel (List.map (cell metric) (system_rows df Reranked))
                (List.map (cell metric) (system_rows df Original)) =
        inr (t_stat entry, p_value entry))).
Proof.
  revert acc. induction metrics as [|m metrics IH]; intros acc Hrun.
  - injection Hrun as <-. split; [intros metric [] | intros metric entry Hl; left; exact Hl].
  - cbn [significance_of] in Hrun. unfold column_values in Hrun.
    destruct (require_column df m); [discriminate |].
    destruct (ttest_rel _ _) as [e | [t p]] eqn:Htest; [discriminate |].
    destruct (IH _ Hrun) as [Hall Hentries]. split.
    + intros metric [<- | Hin]; [| apply Hall, Hin].
      apply (significance_of_keeps _ _ _ _ m Hrun). rewrite lookup_insert_eq. eauto.
    + intros metric entry Hl. destruct (Hentries metric entry Hl) as [Hacc | Hin].
      * destruct (decide (m = metric)) as [-> | Hne].
        -- rewrite lookup_insert_eq in Hacc. injection Hacc as <-. right.
           split; [left; reflexivity |]. split; [reflexivity | exact Htest].
        -- rewrite lookup_insert_ne in Hacc by exact Hne. left. exact Hacc.
      * right. destruct Hin as (Hin & Hrest). split; [right; exact Hin | exact Hrest].
Qed.

Lemma float_ltb_finite (x : pyfloat) (q : Q) :
  float_ltb x q = true <-> exists a, x = Finite a /\ a < q.
Proof.
  destruct x as [a| |]; simpl.
  - rewrite negb_true_iff. split.
    + intros Hle. exists a. split; [reflexivity |]. apply Qnot_le_lt. intros Hqa.
      apply Qle_bool_iff in Hqa. congruence.
    + intros (b & [= <-] & Hlt). apply not_true_is_false. intros Hle.
      apply Qle_bool_iff in Hle. apply (Qlt_not_le _ _ Hlt Hle).
  - split; [discriminate | intros (a & Ha & _); discriminate].
  - split; [discriminate | intros (a & Ha & _); discriminate].
Qed.

(** The significance table of a report has an entry for each of the four
    core metrics and for nothing else; each entry holds what the paired
    test returned for (reranked values, original values) of that column,
    and its flag is set exactly when the p-value is a finite number
    below 0.05, so never on [nan]. *)
Theorem significance_threshold (df : DataFrame) (report : Report) :
  generate_report df = inr report ->
  (forall metric, In metric core_metrics ->
                  is_Some (statistical_significance report !! metric)) /\
  (forall metric entry, statistical_significance report !! metric = Some entry ->
     In metric core_metrics /\
     ttest_rel (List.map (cell metric) (system_rows df Reranked))
               (List.map (cell metric) (system_rows df Original)) =
       inr (t_stat entry, p_value entry) /\
     (significant entry = true <-> exists p, p_value entry = Finite p /\ p < 5 # 100)).
Proof.
  intros Hrun.
  destruct (generate_report_fields df report Hrun) as (_ & _ & _ & _ & Hsig).
  destruct (significance_of_entries df core_metrics ∅ _ Hsig) as [Hall Hentries].
  split; [exact Hall |]. intros metric entry Hl.
  destruct (Hentries metric entry Hl) as [Hempty | (Hin & Hflag & Htest)].
  - rewrite lookup_empty in Hempty. discriminate.
  - split; [exact Hin |]. split; [exact Htest |]. rewrite Hflag. apply float_ltb_finite.
Qed.

Lemma improvements_of_total (fo fr : string -> pyfloat) (labels index : list string)
    (acc : gmap string pyfloat) :
  (forall l, In l index -> In l labels) ->
  exists imp,
    improvements_of (List.map (fun l => (l, fo l)) index)
                    (List.map (fun l => (l, fr l)) labels) acc = inr imp.
Proof.
  revert acc. induction index as [|l index IH]; intros acc Hsub; [eexists; reflexivity |].
  cbn [List.map improvements_of].
  destruct (String.eqb l "response_time_ms").
  - apply IH. intros l' Hl'. apply Hsub. right. exact Hl'.
  - destruct (series_lookup fr labels l (Hsub l (or_introl eq_refl))) as [-> _].
    apply IH. intros l' Hl'. apply Hsub. right. exact Hl'.
Qed.

Lemma significance_of_total (df : DataFrame) (metrics : list string)
    (acc : gmap string Significance) :
  (forall m, In m metrics ->
     m ∈ columns df /\
     exists t p, ttest_rel (List.map (cell m) (system_rows df Reranked))
                           (List.map (cell m) (system_rows df Original)) = inr (t, p)) ->
  exists sig, significance_of df metrics acc = inr sig.
Proof.
  revert acc. induction metrics as [|m metrics IH]; intros acc Hall;
    [eexists; reflexivity |].
  cbn [significance_of]. unfold column_values, require_column.
  destruct (Hall m (or_introl eq_refl)) as (Hcol & t & p & Htest).
  rewrite (bool_decide_eq_true_2 _ Hcol), Htest.
  apply IH. intros m' Hm'. apply Hall. right. exact Hm'.
Qed.

(** [generate_report] fails only through the missing [system] column or
    through the paired test: on a table with rows built by
    [_create_results_dataframe] it returns a report whenever [ttest_rel]
    returns on the four core columns. *)
Theorem report_returns_when_test_returns (records : list (gmap string value))
    (df : DataFrame) :
  _create_results_dataframe records = inr df ->
  rows df <> [] ->
  (forall metric, In metric core_metrics ->
     exists t p, ttest_rel (List.map (cell metric) (system_rows df Reranked))
                           (List.map (cell metric) (system_rows df Original)) =
                 inr (t, p)) ->
  exists report,
    generate_report df = inr report /\
    total_questions report = (length (rows df) / 2)%nat /\
    is_Some (miss_statistics report).
Proof.
  intros Hdf Hrows Htest.
  pose proof (proj2 (create_results_dataframe_rows records df Hdf) Hrows) as Hcols.
  assert (Hsys : "system" ∈ columns df).
  { rewrite Hcols. apply list_elem_of_In. unfold row_columns. simpl. tauto. }
  destruct (improvements_of_total
              (fun column => column_mean column (system_rows df Original))
              (fun column => column_mean column (system_rows df Reranked))
              (List.filter (fun column => bool_decide (column ∈ columns df)) numeric_columns)
              (List.filter (fun column => bool_decide (column ∈ columns df)) numeric_columns)
              ∅ (fun l Hl => Hl)) as [imp Himp].
  destruct (significance_of_total df core_metrics ∅) as [sig Hsig].
  { intros m Hm. split; [| apply Htest, Hm]. rewrite Hcols.
    apply list_elem_of_In. unfold core_metrics in Hm. unfold row_columns.
    simpl in *. tauto. }
  unfold generate_report, require_column, mean_numeric_only.
  rewrite (bool_decide_eq_true_2 _ Hsys), Himp, Hsig.
  eexists. split; [reflexivity |]. split; [reflexivity |].
  cbn [miss_statistics]. unfold df_empty. rewrite Hcols.
  destruct (rows df); [congruence |]. unfold row_columns. eauto.
Qed.

(** C3.  [generate_report] takes each variant's means over exactly the
    rows that carry the variant (first conjunct), but it then hands the
    two columns of each core metric to the paired test as they are.
    When the variants have different numbers of rows, as when only 2 of
    3 questions have reranked metrics, and the paired test rejects
    samples of these two lengths with an exception (scipy's does, with
    [ValueError('unequal length arrays')]), that exception escapes
    [generate_report]: no report carries the means. *)
Theorem unpaired_rows_report_raises (records : list (gmap string value))
    (df : DataFrame) (e : exn) :
  _create_results_dataframe records = inr df ->
  length (system_rows df Reranked) <> length (system_rows df Original) ->
  (forall a b, length a = length (system_rows df Reranked) ->
               length b = length (system_rows df Original) ->
               ttest_rel a b = inl e) ->
  (forall s column,
     column_mean column (system_rows df s) =
     skip_missing_mean (List.map (carried s column) records)) /\
  generate_report df = inl e.
Proof.
  intros Hdf Hneq Hreject.
  destruct (create_results_dataframe_rows records df Hdf) as [Hdata Hbuilt].
  split.
  { intros s column. apply column_mean_cells. unfold system_rows.
    apply metrics_data_cells, Hdata. }
  assert (Hrows : rows df <> []).
  { intros Hnil. apply Hneq. unfold system_rows. rewrite Hnil. reflexivity. }
  pose proof (Hbuilt Hrows) as Hcols.
  assert (Hsys : "system" ∈ columns df).
  { rewrite Hcols. apply list_elem_of_In. unfold row_columns. simpl. tauto. }
  assert (Hcol : "faithfulness" ∈ columns df).
  { rewrite Hcols. apply list_elem_of_In. unfold row_columns. simpl. tauto. }
  destruct (improvements_of_total
              (fun column => column_mean column (system_rows df Original))
              (fun column => column_mean column (system_rows df Reranked))
              (List.filter (fun column => bool_decide (column ∈ columns df)) numeric_columns)
              (List.filter (fun column => bool_decide (column ∈ columns df)) numeric_columns)
              ∅ (fun l Hl => Hl)) as [imp Himp].
  unfold generate_report, require_column, mean_numeric_only.
  rewrite (bool_decide_eq_true_2 _ Hsys), Himp.
  cbn [core_metrics significance_of]. unfold column_values, require_column.
  rewrite (bool_decide_eq_true_2 _ Hcol).
  rewrite (Hreject _ _ (length_map _ _) (length_map _ _)). reflexivity.
Qed.

Lemma generate_report_counts (df : DataFrame) (report : Report) :
  generate_report df = inr report ->
  total_questions report = (length (rows df) / 2)%nat /\
  miss_statistics report =
    (if df_empty df then None else Some (miss_statistics_of df)).
Proof.
  unfold generate_report.
  destruct (require_column df "system"); [discriminate |].
  destruct (improvements_of _ _ _) as [e | imp]; [discriminate |].
  destruct (significance_of _ _ _) as [e | sig]; [discriminate |].
  intros [= <-]. simpl. auto.
Qed.

Lemma filter_all_length {A} (f : A -> bool) (l : list A) :
  Forall (fun x => f x = true) l -> length (List.filter f l) = length l.
Proof.
  induction 1 as [|x l Hx _ IH]; [reflexivity |]. simpl. rewrite Hx. simpl.
  rewrite IH. reflexivity.
Qed.

Lemma miss_rate_range (m n : nat) :
  (m <= n)%nat ->
  0 <= (if (0 <? n)%nat then Qnat m / Qnat n * 100 else 0) <= 100.
Proof.
  intros Hmn. destruct (0 <? n)%nat eqn:Hn; [| split; discriminate].
  apply Nat.ltb_lt in Hn. destruct (ratio_unit m n Hmn Hn) as [H0 H1]. split; lra.
Qed.

(** When every record carries the metrics of both variants, a report
    that is returned counts as many questions as there are records, and
    each variant's refusals are at most that many, so that both miss
    rates lie between 0 and 100 and the miss reduction is their
    difference. *)
Theorem paired_report_counts (records : list (gmap string value)) (df : DataFrame)
    (report : Report) :
  _create_results_dataframe records = inr df ->
  Forall (fun record => forall s, is_Some (record !! metrics_key s)) records ->
  records <> [] ->
  generate_report df = inr report ->
  total_questions report = length records /\
  exists ms,
    miss_statistics report = Some ms /\
    (original_misses ms <= length records)%nat /\
    (reranked_misses ms <= length records)%nat /\
    0 <= original_miss_rate ms <= 100 /\
    0 <= reranked_miss_rate ms <= 100 /\
    miss_reduction ms =
      (Z.of_nat (original_misses ms) - Z.of_nat (reranked_misses ms))%Z.
Proof.
  intros Hdf Hboth Hne Hrun.
  destruct (results_table_shape_core records df Hdf) as (Hper & Hlen & _ & Hcols).
  assert (Hn : forall s, length (system_rows df s) = length records).
  { intros s. rewrite Hper. apply filter_all_length.
    eapply Forall_impl; [exact Hboth |]. intros record Hrec.
    apply bool_decide_eq_true_2, Hrec. }
  rewrite !Hn in Hlen.
  assert (Hpos : (0 < length records)%nat) by (destruct records; [congruence | simpl; lia]).
  assert (Hhalf : (length (rows df) / 2 = length records)%nat).
  { rewrite Hlen. replace (length records + length records)%nat
      with (length records * 2)%nat by lia. apply Nat.div_mul. discriminate. }
  assert (Hrows : rows df <> []).
  { intros Hnil. rewrite Hnil in Hlen. simpl in Hlen. lia. }
  destruct (generate_report_counts df report Hrun) as [Htotal Hmiss].
  split; [rewrite Htotal; exact Hhalf |].
  assert (Hnonempty : df_empty df = false).
  { unfold df_empty. rewrite (Hcols Hrows). destruct (rows df); [congruence | reflexivity]. }
  rewrite Hnonempty in Hmiss. exists (miss_statistics_of df).
  split; [exact Hmiss |].
  assert (Hmo : (misses df Original <= length records)%nat).
  { unfold misses. rewrite <- (Hn Original). apply filter_length_le. }
  assert (Hmr : (misses df Reranked <= length records)%nat).
  { unfold misses. rewrite <- (Hn Reranked). apply filter_length_le. }
  unfold miss_statistics_of. cbn [original_misses reranked_misses original_miss_rate
                                   reranked_miss_rate miss_reduction].
  rewrite Hhalf.
  split; [exact Hmo |]. split; [exact Hmr |].
  split; [apply miss_rate_range, Hmo |]. split; [apply miss_rate_range, Hmr | reflexivity].
Qed.
End FurtherEvaluator.

(** * Properties of the retrieval client *)

Lemma first_list_found (keys : list string) (d : gmap string json_value)
    (items : list chunk) :
  VectorServiceCaller.first_list keys d = Some items ->
  exists key, In key keys /\ d !! key = Some (JList items).
Proof.
  induction keys as [|key keys IH]; [discriminate |]. cbn [VectorServiceCaller.first_list].
  destruct (d !! key) as [[l | |]|] eqn:Hkey.
  - intros [= <-]. exists key. split; [left; reflexivity | exact Hkey].
  - intros Hrest. destruct (IH Hrest) as (k & Hk & Hl). exists k. split; [right |]; assumption.
  - intros Hrest. destruct (IH Hrest) as (k & Hk & Hl). exists k. split; [right |]; assumption.
  - intros Hrest. destruct (IH Hrest) as (k & Hk & Hl). exists k. split; [right |]; assumption.
Qed.

Lemma first_inner_list_found (keys : list string) (d : gmap string json_inner)
    (items : list chunk) :
  VectorServiceCaller.first_inner_list keys d = Some items ->
  exists key, In key keys /\ d !! key = Some (InnerList items).
Proof.
  induction keys as [|key keys IH]; [discriminate |]. cbn [VectorServiceCaller.first_inner_list].
  destruct (d !! key) as [[l |]|] eqn:Hkey.
  - intros [= <-]. exists key. split; [left; reflexivity | exact Hkey].
  - intros Hrest. destruct (IH Hrest) as (k & Hk & Hl). exists k. split; [right |]; assumption.
  - intros Hrest. destruct (IH Hrest) as (k & Hk & Hl). exists k. split; [right |]; assumption.
Qed.

Lemma first_list_split (pre post : list string) (key : string)
    (d : gmap string json_value) (items : list chunk) :
  (forall k l, In k pre -> d !! k <> Some (JList l)) ->
  d !! key = Some (JList items) ->
  VectorServiceCaller.first_list (pre ++ key :: post) d = Some items.
Proof.
  intros Hpre Hkey. induction pre as [|k pre IH]; cbn [app VectorServiceCaller.first_list].
  - rewrite Hkey. reflexivity.
  - destruct (d !! k) as [[l | |]|] eqn:Hk;
      try (apply IH; intros k' l' Hin; apply Hpre; right; exact Hin).
    exfalso. apply (Hpre k l); [left; reflexivity | exact Hk].
Qed.

(** [VectorServiceCaller._normalize_documents] never invents passages: a passage it returns
    sits in the response object, in the list under one of the accepted
    top-level keys or, one level down, under one of the accepted keys of
    the [data] object.  A body that is no object gives the empty list. *)
Theorem normalize_documents_source (resp_json : json_body) (c : chunk) :
  In c (VectorServiceCaller._normalize_documents resp_json) ->
  exists d, resp_json = BodyDict d /\
    ((exists key, In key ["Documents"; "documents"; "results"; "data"] /\
                  d !! key = Some (JList (VectorServiceCaller._normalize_documents resp_json))) \/
     (exists data key, d !! "data" = Some (JDict data) /\
                       In key ["Documents"; "documents"; "results"] /\
                       data !! key = Some (InnerList (VectorServiceCaller._normalize_documents resp_json)))).
Proof.
  destruct resp_json as [d|]; [| intros []]. intros Hin. exists d. split; [reflexivity |].
  unfold VectorServiceCaller._normalize_documents in *.
  destruct (VectorServiceCaller.first_list _ d) as [items|] eqn:Htop.
  - left. apply first_list_found, Htop.
  - destruct (d !! "data") as [[l | data |]|] eqn:Hdata; try destruct Hin.
    destruct (VectorServiceCaller.first_inner_list _ data) as [items|] eqn:Hinner; [| destruct Hin].
    right. exists data. destruct (first_inner_list_found _ _ _ Hinner) as (key & Hk & Hl).
    exists key. auto.
Qed.

(** The accepted top-level keys are tried in the order [Documents],
    [documents], [results], [data], and the first one holding a list
    wins, even when that list is empty and a later key holds passages. *)
Theorem normalize_documents_first_key_wins (pre post : list string) (key : string)
    (d : gmap string json_value) (items : list chunk) :
  ["Documents"; "documents"; "results"; "data"] = pre ++ key :: post ->
  (forall k l, In k pre -> d !! k <> Some (JList l)) ->
  d !! key = Some (JList items) ->
  VectorServiceCaller._normalize_documents (BodyDict d) = items.
Proof.
  intros Hkeys Hpre Hkey. unfold VectorServiceCaller._normalize_documents. rewrite Hkeys.
  rewrite (first_list_split pre post key d items Hpre Hkey). reflexivity.
Qed.

Section ClientProperties.
Context {W : Type} {http : Http W}.

Lemma or_unknown_nonempty (e : str) : VectorServiceCaller.or_unknown e <> [].
Proof. destruct e; [unfold VectorServiceCaller.or_unknown; discriminate | discriminate]. Qed.

Lemma post_loop_outcome (url : bool) (payload : Payload) (timeout : nat) (backoff : Q)
    (remaining attempt : nat) (w : W) :
  let '(resp, ms, err) := fst (VectorServiceCaller.post_loop url payload timeout backoff remaining attempt w) in
  (exists r, resp = Some r /\ err = None) \/
  (resp = None /\ ms = 0 /\ exists e, err = Some e /\ e <> []).
Proof.
  revert attempt w. induction remaining as [|remaining IH]; intros attempt w;
    cbn [VectorServiceCaller.post_loop];
    destruct (requests_post url payload timeout w) as [[last_err | [resp ms]] w1];
    simpl.
  - right. split; [reflexivity |]. split; [reflexivity |].
    eexists. split; [reflexivity | apply or_unknown_nonempty].
  - left. eauto.
  - apply IH.
  - left. eauto.
Qed.

(** [VectorServiceCaller._post_with_retries] returns either a response with no error, or no
    response, 0 milliseconds and an error message that is never empty. *)
Theorem post_with_retries_outcome (url : bool) (payload : Payload)
    (timeout retries : nat) (backoff : Q) (w : W) :
  let '(resp, ms, err) :=
    fst (VectorServiceCaller._post_with_retries url payload timeout retries backoff w) in
  (exists r, resp = Some r /\ err = None) \/
  (resp = None /\ ms = 0 /\ exists e, err = Some e /\ e <> []).
Proof. apply post_loop_outcome. Qed.

Lemma fetch_chunks_error_or_documents_core (query : str)
    (folder_ids unique_titles : option (list str)) (top_k : nat) (use_reranker : bool)
    (w w' : W) (response : FetchResponse) (time : Q) :
  VectorServiceCaller.fetch_chunks query folder_ids unique_titles top_k use_reranker w =
    (inr (response, time), w') ->
  (exists e, fr_error response = Some e /\ e <> [] /\ fr_documents response = None) \/
  (fr_error response = None /\ exists docs, fr_documents response = Some docs).
Proof.
  unfold VectorServiceCaller.fetch_chunks, lift, mbind, exc_bind.
  destruct (VectorServiceCaller._post_with_retries _ _ _ _ _ w) as [[[resp ms] err] w1].
  destruct err as [err|].
  - intros [= <- <- <-]. left. eexists. split; [reflexivity |]. split; [discriminate | reflexivity].
  - destruct resp as [resp|]; [| discriminate].
    destruct (negb (status_code resp =? 200)%Z).
    + intros [= <- <- <-]. left. eexists. split; [reflexivity |].
      split; [discriminate | reflexivity].
    + destruct (json resp) as [e | body].
      * intros [= <- <- <-]. left. eexists. split; [reflexivity |].
        split; [discriminate | reflexivity].
      * destruct (VectorServiceCaller._normalize_documents body) as [|c cs] eqn:Hdocs, body as [d|];
          try discriminate; intros [= <- <- <-]; right; split; eauto.
Qed.

(** A response of [VectorServiceCaller.fetch_chunks] carries either a non-empty error and no
    documents, or documents and no error. *)
Theorem fetch_chunks_error_or_documents (query : str)
    (folder_ids unique_titles : option (list str)) (top_k : nat) (use_reranker : bool)
    (w w' : W) (response : FetchResponse) (time : Q) :
  VectorServiceCaller.fetch_chunks query folder_ids unique_titles top_k use_reranker w =
    (inr (response, time), w') ->
  (exists e, fr_error response = Some e /\ e <> [] /\ fr_documents response = None) \/
  (fr_error response = None /\ exists docs, fr_documents response = Some docs).
Proof. exact (fetch_chunks_error_or_documents_core query folder_ids unique_titles top_k use_reranker w w' response time). Qed.

(** In each of the two results of [fetch_both_systems] an error, when
    set, is a non-empty message and comes with an empty passage list:
    passages and an error never occur together. *)
Theorem fetch_both_systems_error_excludes_chunks (query : str)
    (folder_ids unique_titles : option (list str)) (top_k : nat) (w w' : W)
    (results : SystemResult * SystemResult) (s : system) :
  VectorServiceCaller.fetch_both_systems query folder_ids unique_titles top_k w =
    (inr results, w') ->
  (has_error (result_of results s) = true /\ chunks (result_of results s) = []) \/
  error (result_of results s) = None.
Proof.
  unfold VectorServiceCaller.fetch_both_systems, mbind, exc_bind.
  destruct (VectorServiceCaller.fetch_chunks query folder_ids unique_titles top_k false w)
    as [[e | [ro to]] w1] eqn:Ho; [discriminate |].
  destruct (VectorServiceCaller.fetch_chunks query folder_ids unique_titles top_k true w1)
    as [[e | [rr tr]] w2] eqn:Hr; [discriminate |].
  intros [= <- <-].
  assert (Hshape : forall response,
    ((exists e, fr_error response = Some e /\ e <> [] /\ fr_documents response = None) \/
     (fr_error response = None /\ exists docs, fr_documents response = Some docs)) ->
    forall t,
    let r := {| chunks := VectorServiceCaller.chunks_of response; time_ms := t; error := fr_error response |} in
    (has_error r = true /\ chunks r = []) \/ error r = None).
  { intros response [(e & He & Hne & Hdocs) | (He & _)] t r; subst r.
    - left. unfold has_error, VectorServiceCaller.chunks_of. simpl. rewrite He, Hdocs.
      destruct e; [congruence | auto].
    - right. exact He. }
  destruct s; simpl.
  - apply Hshape. eapply fetch_chunks_error_or_documents_core, Ho.
  - apply Hshape. eapply fetch_chunks_error_or_documents_core, Hr.
Qed.

(** An HTTP status other than 200 is not retried: after the single POST
    [VectorServiceCaller.fetch_chunks] returns the error "Status <code>: <preview>", where
    the preview is the body text cut to 500 characters plus "...". *)
Theorem fetch_chunks_status_error_not_retried (query : str)
    (folder_ids unique_titles : option (list str)) (top_k : nat) (use_reranker : bool)
    (w w1 : W) (resp : Response) (ms : Q) :
  requests_post use_reranker
    {| prompt := query; topK := top_k; folderIds := VectorServiceCaller.or_empty folder_ids;
       uniqueTitles := VectorServiceCaller.or_empty unique_titles |} 30 w = (inr (resp, ms), w1) ->
  status_code resp <> 200%Z ->
  VectorServiceCaller.fetch_chunks query folder_ids unique_titles top_k use_reranker w =
    (inr ({| fr_error := Some (lit "Status " ++ lit (pretty (status_code resp)) ++
                               lit ": " ++ VectorServiceCaller.text_preview_of resp);
             fr_documents := None; fr_raw := None |}, ms), w1).
Proof.
  intros Hpost Hstatus.
  unfold VectorServiceCaller.fetch_chunks, lift, mbind, exc_bind, VectorServiceCaller._post_with_retries. cbn [VectorServiceCaller.post_loop].
  rewrite Hpost. apply Z.eqb_neq in Hstatus. rewrite Hstatus. reflexivity.
Qed.

Lemma fetch_chunks_non_object_body_raises_core (query : str)
    (folder_ids unique_titles : option (list str)) (top_k : nat) (use_reranker : bool)
    (w w1 : W) (resp : Response) (ms : Q) :
  requests_post use_reranker
    {| prompt := query; topK := top_k; folderIds := VectorServiceCaller.or_empty folder_ids;
       uniqueTitles := VectorServiceCaller.or_empty unique_titles |} 30 w = (inr (resp, ms), w1) ->
  status_code resp = 200%Z ->
  json resp = inr BodyOther ->
  VectorServiceCaller.fetch_chunks query folder_ids unique_titles top_k use_reranker w =
    (inl (AttributeError "keys"), w1).
Proof.
  intros Hpost Hstatus Hjson.
  unfold VectorServiceCaller.fetch_chunks, lift, mbind, exc_bind, VectorServiceCaller._post_with_retries. cbn [VectorServiceCaller.post_loop].
  rewrite Hpost, Hstatus, Hjson. reflexivity.
Qed.

(** A 200 response whose JSON body is not an object makes
    [VectorServiceCaller.fetch_chunks] raise (the diagnostic line calls [keys()] on it)
    instead of returning an error response. *)
Theorem fetch_chunks_non_object_body_raises (query : str)
    (folder_ids unique_titles : option (list str)) (top_k : nat) (use_reranker : bool)
    (w w1 : W) (resp : Response) (ms : Q) :
  requests_post use_reranker
    {| prompt := query; topK := top_k; folderIds := VectorServiceCaller.or_empty folder_ids;
       uniqueTitles := VectorServiceCaller.or_empty unique_titles |} 30 w = (inr (resp, ms), w1) ->
  status_code resp = 200%Z ->
  json resp = inr BodyOther ->
  VectorServiceCaller.fetch_chunks query folder_ids unique_titles top_k use_reranker w =
    (inl (AttributeError "keys"), w1).
Proof. exact (fetch_chunks_non_object_body_raises_core query folder_ids unique_titles top_k use_reranker w w1 resp ms). Qed.
End ClientProperties.

(** ** Retries, counted *)

Lemma pow2_succ (n : nat) :
  inject_Z (2 ^ Z.of_nat (S n)) == 2 * inject_Z (2 ^ Z.of_nat n).
Proof.
  rewrite Nat2Z.inj_succ, Z.pow_succ_r by lia. rewrite inject_Z_mult. reflexivity.
Qed.

Section CountedRetries.
Context {W : Type} {http : Http W}.

Lemma post_loop_counted (url : bool) (payload : Payload) (timeout : nat) (backoff : Q)
    (remaining attempt : nat) (w : W) (posts : nat) (slept : Q) :
  let plain := VectorServiceCaller.post_loop (http := http) url payload timeout backoff remaining attempt w in
  let '(res, (w', (posts', slept'))) :=
    VectorServiceCaller.post_loop (http := counting http) url payload timeout backoff remaining attempt
      (w, (posts, slept)) in
  res = fst plain /\ w' = snd plain /\
  exists j, (j <= remaining)%nat /\ posts' = (posts + S j)%nat /\
            slept' == slept + backoff * (inject_Z (2 ^ Z.of_nat (attempt + j)) -
                                         inject_Z (2 ^ Z.of_nat attempt)) /\
            (snd res <> None -> j = remaining).
Proof.
  revert attempt w posts slept.
  induction remaining as [|remaining IH]; intros attempt w posts slept;
    cbn [VectorServiceCaller.post_loop]; cbn [requests_post time_sleep counting];
    destruct (requests_post url payload timeout w) as [[last_err | [resp ms]] w1];
    cbn [fst snd].
  - split; [reflexivity |]. split; [reflexivity |]. exists 0%nat.
    split; [lia |]. split; [lia |]. split; [| reflexivity].
    rewrite Nat.add_0_r. ring.
  - split; [reflexivity |]. split; [reflexivity |]. exists 0%nat.
    split; [lia |]. split; [lia |]. split; [| intros Hn; contradiction Hn; reflexivity].
    rewrite Nat.add_0_r. ring.
  - specialize (IH (S attempt)
                  (time_sleep (backoff * inject_Z (2 ^ Z.of_nat attempt)) w1)
                  (S posts) (slept + backoff * inject_Z (2 ^ Z.of_nat attempt))).
    cbv zeta in IH.
    destruct (VectorServiceCaller.post_loop (http := counting http) url payload timeout backoff remaining
                (S attempt) _) as [res [w' [posts' slept']]].
    destruct IH as (Hres & Hw & j & Hj & Hposts & Hslept & Hlast).
    split; [exact Hres |]. split; [exact Hw |]. exists (S j).
    split; [lia |]. split; [lia |]. split; [| intros Hn; rewrite (Hlast Hn); reflexivity].
    rewrite Hslept. replace (attempt + S j)%nat with (S attempt + j)%nat by lia.
    rewrite (pow2_succ attempt). ring.
  - split; [reflexivity |]. split; [reflexivity |]. exists 0%nat.
    split; [lia |]. split; [lia |]. split; [| intros Hn; contradiction Hn; reflexivity].
    rewrite Nat.add_0_r. ring.
Qed.

(** Bounded exponential backoff.  On any network, [VectorServiceCaller._post_with_retries]
    makes [j + 1] POSTs for some [j <= retries] and sleeps
    [backoff * (2^j - 1)] seconds in all (the delays [backoff],
    [2 backoff], [4 backoff], ... between attempts); when it returns an
    error it has made all [retries + 1] attempts.  The meters do not
    change what it returns. *)
Theorem post_with_retries_attempts (url : bool) (payload : Payload)
    (timeout retries : nat) (backoff : Q) (w : W) :
  let plain := VectorServiceCaller._post_with_retries (http := http) url payload timeout retries backoff w in
  let '(res, (w', (posts, slept))) :=
    VectorServiceCaller._post_with_retries (http := counting http) url payload timeout retries backoff
      (w, (0%nat, 0)) in
  res = fst plain /\ w' = snd plain /\
  exists j, (j <= retries)%nat /\ posts = S j /\
            slept == backoff * (inject_Z (2 ^ Z.of_nat j) - 1) /\
            (snd res <> None -> j = retries).
Proof.
  unfold VectorServiceCaller._post_with_retries.
  pose proof (post_loop_counted url payload timeout backoff retries 0 w 0 0) as Hloop.
  cbv zeta in Hloop |- *.
  destruct (VectorServiceCaller.post_loop (http := counting http) url payload timeout backoff retries 0 _)
    as [res [w' [posts slept]]].
  destruct Hloop as (Hres & Hw & j & Hj & Hposts & Hslept & Hlast).
  split; [exact Hres |]. split; [exact Hw |]. exists j.
  split; [exact Hj |]. split; [exact Hposts |]. split; [| exact Hlast].
  rewrite Hslept. change (0 + j)%nat with j.
  change (inject_Z (2 ^ Z.of_nat 0)) with 1. ring.
Qed.
End CountedRetries.

(** ** The evaluator on top of the client *)

Lemma no_metrics_no_rows (records : list (gmap string value)) :
  Forall (fun record => forall s, record !! metrics_key s = None) records ->
  metrics_data_of records = inr [].
Proof.
  induction 1 as [|record records Hnone _ IH]; [reflexivity |].
  cbn [metrics_data_of rows_of_result].
  rewrite (Hnone Original), (Hnone Reranked), IH. reflexivity.
Qed.

Section ClientEvaluator.
Context {unicode : Unicode} {scipy : SciPy} {W : Type} {http : Http W}.
Context (judge : str -> State W str) (cosine : str -> str -> Q)
        (answerer : str -> list formatted_doc -> State W str).

Let services : Services := with_client http judge cosine answerer.

Lemma outage_fetch_chunks (query : str) (folder_ids unique_titles : option (list str))
    (top_k : nat) (use_reranker : bool) (w : W) :
  (forall url payload timeout w0, exists msg w1,
      requests_post url payload timeout w0 = (inl msg, w1)) ->
  exists e w',
    VectorServiceCaller.fetch_chunks query folder_ids unique_titles top_k use_reranker w =
      (inr ({| fr_error := Some e; fr_documents := None; fr_raw := None |}, 0), w') /\
    e <> [].
Proof.
  intros Hout. unfold VectorServiceCaller.fetch_chunks, lift, mbind, exc_bind, VectorServiceCaller._post_with_retries.
  cbn [VectorServiceCaller.post_loop].
  destruct (Hout use_reranker
              {| prompt := query; topK := top_k; folderIds := VectorServiceCaller.or_empty folder_ids;
                 uniqueTitles := VectorServiceCaller.or_empty unique_titles |} 30%nat w) as (m1 & w1 & ->).
  destruct (Hout use_reranker
              {| prompt := query; topK := top_k; folderIds := VectorServiceCaller.or_empty folder_ids;
                 uniqueTitles := VectorServiceCaller.or_empty unique_titles |} 30%nat
              (time_sleep ((1 # 2) * inject_Z (2 ^ Z.of_nat 0)) w1)) as (m2 & w2 & ->).
  eexists _, w2. split; [reflexivity | discriminate].
Qed.

Lemma outage_fetch_both (query : str) (folder_ids unique_titles : list str)
    (top_k : nat) (w : W) :
  (forall url payload timeout w0, exists msg w1,
      requests_post url payload timeout w0 = (inl msg, w1)) ->
  exists results w',
    fetch_both_systems (Services := services) query folder_ids unique_titles top_k w =
      (inr results, w') /\
    forall s, has_error (result_of results s) = true.
Proof.
  intros Hout. cbn [fetch_both_systems services with_client].
  unfold VectorServiceCaller.fetch_both_systems, mbind, exc_bind.
  destruct (outage_fetch_chunks query (Some folder_ids) (Some unique_titles) top_k
              false w Hout) as (e1 & w1 & -> & Hne1).
  destruct (outage_fetch_chunks query (Some folder_ids) (Some unique_titles) top_k
              true w1 Hout) as (e2 & w2 & -> & Hne2).
  eexists _, w2. split; [reflexivity |].
  intros [|]; unfold has_error; simpl; [destruct e1 | destruct e2]; congruence.
Qed.

(** Retrieval outage, end to end.  When every POST fails, a batch of
    questions that have their three keys still yields one record per
    question, none of them with metrics; the results table is the
    column-less empty frame, and [generate_report] on it raises
    [KeyError('system')]. *)
Theorem outage_batch_has_no_report (questions : list (gmap string str))
    (folder_ids unique_titles : list str) (w : W) :
  (forall url payload timeout w0, exists msg w1,
      requests_post url payload timeout w0 = (inl msg, w1)) ->
  Forall (fun question_data => exists id q gt, question_with question_data id q gt)
         questions ->
  exists records w',
    batch_evaluate (services := services) questions folder_ids unique_titles w =
      (inr ({| columns := []; rows := [] |}, records), w') /\
    length records = length questions /\
    Forall (fun record => forall s, record !! metrics_key s = None) records /\
    generate_report {| columns := []; rows := [] |} = inl (KeyError "system").
Proof.
  intros Hout Hkeys.
  assert (Hfetch : forall q w0, exists results w1,
             fetch_both_systems (Services := services) q folder_ids unique_titles 10 w0 =
             (inr results, w1)).
  { intros q w0. destruct (outage_fetch_both q folder_ids unique_titles 10 w0 Hout)
      as (results & w1 & Hres & _). eauto. }
  destruct (evaluate_all_records (services := services) questions folder_ids
              unique_titles Hkeys Hfetch [] w) as (records & w' & Hrun & Hall & _).
  assert (Hnone : Forall (fun record => forall s, record !! metrics_key s = None) records).
  { clear Hrun. induction Hall as [|question_data record qs rs Hrec _ IH];
      constructor; [| apply IH; inversion Hkeys; assumption].
    destruct Hrec as (id & q & gt & results & w0 & w1 & _ & Hres & Hmetrics).
    intros s. apply (Hmetrics s). left.
    destruct (outage_fetch_both q folder_ids unique_titles 10 w0 Hout)
      as (results' & w1' & Hres' & Herr).
    rewrite Hres in Hres'. injection Hres' as -> _. apply Herr. }
  exists records, w'. split; [| split; [| split; [exact Hnone | reflexivity]]].
  - unfold batch_evaluate, mbind, exc_bind. rewrite Hrun. simpl app.
    unfold of_result, _create_results_dataframe.
    rewrite (no_metrics_no_rows records Hnone). reflexivity.
  - symmetry. eapply Forall2_length, Hall.
Qed.

(** A backend that answers 200 with a JSON body that is no object (a
    bare list, say) makes the client raise; the exception escapes
    [evaluate_single_question], and [batch_evaluate] drops the question
    without a record. *)
Theorem non_object_body_drops_question (question_data : gmap string str)
    (folder_ids unique_titles : list str) (w w1 : W) (id q gt : str)
    (resp : Response) (ms : Q) :
  question_with question_data id q gt ->
  requests_post false
    {| prompt := q; topK := 10; folderIds := folder_ids;
       uniqueTitles := unique_titles |} 30 w = (inr (resp, ms), w1) ->
  status_code resp = 200%Z ->
  json resp = inr BodyOther ->
  evaluate_single_question (services := services) question_data folder_ids
    unique_titles w = (inl (AttributeError "keys"), w1) /\
  batch_evaluate (services := services) [question_data] folder_ids unique_titles w =
    (inr ({| columns := []; rows := [] |}, []), w1).
Proof.
  intros (Hid & Hq & Hgt) Hpost Hstatus Hjson.
  assert (Hfetch : fetch_both_systems (Services := services) q folder_ids unique_titles
                     10 w = (inl (AttributeError "keys"), w1)).
  { cbn [fetch_both_systems services with_client].
    unfold VectorServiceCaller.fetch_both_systems, mbind, exc_bind.
    rewrite (fetch_chunks_non_object_body_raises_core q (Some folder_ids)
               (Some unique_titles) 10 false w w1 resp ms Hpost Hstatus Hjson).
    reflexivity. }
  assert (Hrun : evaluate_single_question (services := services) question_data
                   folder_ids unique_titles w = (inl (AttributeError "keys"), w1)).
  { unfold evaluate_single_question, getitem, of_result.
    rewrite Hq, Hgt. unfold mbind at 1 2 3, exc_bind at 1 2 3. rewrite Hfetch.
    reflexivity. }
  split; [exact Hrun |].
  unfold batch_evaluate. cbn [evaluate_all]. unfold getitem, of_result. rewrite Hid.
  unfold mbind, exc_bind, try_except. rewrite Hrun. reflexivity.
Qed.
End ClientEvaluator.

(** * Further instances on concrete inputs *)

Lemma judge_outage_defaults_witness :
  fst (@calculate_faithfulness ascii_unicode (silent_services no_retrieval)
         claims_answer claims_contexts tt) = 1 /\
  fst (@calculate_answer_relevancy ascii_unicode (silent_services no_retrieval)
         weather_question weather_answer tt) = 1 # 2.
Proof.
  destruct (@judge_outage_defaults ascii_unicode (silent_services no_retrieval)
              weather_question claims_answer covered_truth claims_contexts 5 tt
              (fun _ _ => eq_refl) eq_refl) as (Hf & _).
  destruct (@judge_outage_defaults ascii_unicode (silent_services no_retrieval)
              weather_question weather_answer covered_truth claims_contexts 5 tt
              (fun _ _ => eq_refl) eq_refl) as (_ & Hr & _).
  split; assumption.
Defined.

Lemma answer_containing_truth_is_covered_witness :
  @all_facts_present
    (fst (@calculate_answer_correctness ascii_unicode claims_services
            covering_answer covered_truth [])) = true.
Proof.
  apply (@answer_containing_truth_is_covered ascii_unicode claims_services
           covering_answer covered_truth []).
  - apply str_in_occurs. vm_compute. reflexivity.
  - intros Hnil. vm_compute in Hnil. discriminate Hnil.
Defined.

Lemma contexts_containing_truth_recall_1_witness :
  @calculate_context_recall ascii_unicode covered_truth
    [lit "Intro."; lit "We know that PARIS IS THE CAPITAL OF FRANCE since 987."] == 1.
Proof.
  apply (@contexts_containing_truth_recall_1 ascii_unicode).
  - discriminate.
  - intros Hnil. vm_compute in Hnil. discriminate Hnil.
  - apply str_in_occurs. vm_compute. reflexivity.
Defined.

Lemma non_dict_passage_drops_metrics_witness :
  exists record w2,
    @evaluate_single_question ascii_unicode mixed_services question1 [] [] tt =
      (inr record, w2) /\
    record !! "reranked_metrics" = None.
Proof.
  apply (@non_dict_passage_drops_metrics ascii_unicode mixed_services question1 [] []
           tt tt (lit "q1") (lit "What is the capital of France?")
           (lit "Paris is the capital of France") (found_result, mixed_result) Reranked
           (make_question_keys _ _ _) eq_refl).
  simpl. right. left. reflexivity.
Defined.

Lemma batch_survives_failing_questions_witness :
  exists df records w',
    @batch_evaluate ascii_unicode batch_services
      [question1; question_without_text; question3] [] [] [] = (inr (df, records), w') /\
    (length records <= 3)%nat /\
    _create_results_dataframe records = inr df.
Proof.
  apply (@batch_survives_failing_questions ascii_unicode batch_services
           [question1; question_without_text; question3] [] [] []).
  repeat constructor; eexists; reflexivity.
Defined.

Lemma batch_aborts_on_missing_id_witness :
  exists w',
    @batch_evaluate ascii_unicode batch_services
      ([question1] ++ question_without_id :: [question3]) [] [] [] =
    (inl (KeyError "id"), w').
Proof.
  apply (@batch_aborts_on_missing_id ascii_unicode batch_services
           [question1] [question3] question_without_id [] [] []).
  - repeat constructor. eexists. reflexivity.
  - reflexivity.
Defined.

Lemma results_table_shape_witness :
  length (system_rows two_of_three_table Original) = 3%nat /\
  length (system_rows two_of_three_table Reranked) = 2%nat /\
  length (rows two_of_three_table) = 5%nat.
Proof.
  destruct (results_table_shape two_of_three two_of_three_table eq_refl)
    as (Hper & Hlen & _).
  rewrite Hlen, (Hper Original), (Hper Reranked). repeat split; reflexivity.
Defined.

Lemma improvements_leave_out_response_time_witness :
  improvements paired_report !! "response_time_ms" = None.
Proof.
  exact (proj1 (@improvements_leave_out_response_time (constant_ttest NaN NaN)
                  paired_table paired_report eq_refl)).
Defined.

Lemma significance_threshold_witness :
  is_Some (statistical_significance paired_report !! "faithfulness").
Proof.
  exact (proj1 (@significance_threshold (constant_ttest NaN NaN)
                  paired_table paired_report eq_refl)
               "faithfulness" (or_introl eq_refl)).
Defined.

Lemma report_returns_when_test_returns_witness :
  exists report,
    @generate_report (constant_ttest NaN NaN) paired_table = inr report /\
    total_questions report = (length (rows paired_table) / 2)%nat /\
    is_Some (miss_statistics report).
Proof.
  apply (@report_returns_when_test_returns (constant_ttest NaN NaN) paired paired_table
           eq_refl).
  - discriminate.
  - intros metric _. eexists _, _. reflexivity.
Defined.

(** Two of three records carry reranked metrics: the reranked mean of
    the table is taken over these two, and the report is not produced. *)
Lemma unpaired_rows_report_raises_witness :
  column_mean "faithfulness" (system_rows two_of_three_table Reranked) =
    skip_missing_mean [Some (6 # 10); None; Some (8 # 10)] /\
  @generate_report length_checked_ttest two_of_three_table =
    inl (ValueError "unequal length arrays").
Proof.
  destruct (@unpaired_rows_report_raises length_checked_ttest two_of_three
              two_of_three_table (ValueError "unequal length arrays") eq_refl)
    as [Hmeans Hraise].
  - vm_compute. discriminate.
  - intros a b Ha Hb. cbn [ttest_rel length_checked_ttest]. rewrite Ha, Hb. reflexivity.
  - split; [exact (Hmeans Reranked "faithfulness") | exact Hraise].
Defined.

(** The batch of three questions whose second has a failing reranked
    backend, end to end: five rows, and no report. *)
Example partial_batch_has_no_report :
  match @batch_evaluate ascii_unicode batch_services
          [question1; question2; question3] [] [] [] with
  | (inr (df, _), _) =>
      length (system_rows df Original) = 3%nat /\
      length (system_rows df Reranked) = 2%nat /\
      @generate_report length_checked_ttest df =
        inl (ValueError "unequal length arrays")
  | _ => False
  end.
Proof. vm_compute. repeat split. Qed.

Lemma paired_report_counts_witness :
  total_questions paired_report = 2%nat.
Proof.
  refine (proj1 (@paired_report_counts (constant_ttest NaN NaN) paired paired_table
                   paired_report eq_refl _ _ eq_refl)).
  - repeat constructor; intros []; eexists; reflexivity.
  - discriminate.
Defined.

Lemma normalize_documents_source_witness :
  exists d, nested_body = BodyDict d /\
    ((exists key, In key ["Documents"; "documents"; "results"; "data"] /\
                  d !! key = Some (JList (VectorServiceCaller._normalize_documents nested_body))) \/
     (exists data key, d !! "data" = Some (JDict data) /\
                       In key ["Documents"; "documents"; "results"] /\
                       data !! key =
                         Some (InnerList (VectorServiceCaller._normalize_documents nested_body)))).
Proof.
  apply (normalize_documents_source nested_body (passage "Rome is the capital of Italy.")).
  vm_compute. left. reflexivity.
Defined.

(** An empty list under [Documents] hides the passages under [results]. *)
Lemma normalize_documents_first_key_wins_witness :
  VectorServiceCaller._normalize_documents two_lists_body = [].
Proof.
  apply (normalize_documents_first_key_wins [] ["documents"; "results"; "data"]
           "Documents" _ [] eq_refl).
  - intros k l [].
  - reflexivity.
Defined.

Lemma fetch_chunks_error_or_documents_witness :
  (exists e, Some (lit "Request failed: connection refused") = Some e /\ e <> [] /\
             @None (list chunk) = None) \/
  (Some (lit "Request failed: connection refused") = None /\
   exists docs, @None (list chunk) = Some docs).
Proof.
  exact (@fetch_chunks_error_or_documents _ scripted_http (lit "capital?") None None 10
           false [] []
           {| fr_error := Some (lit "Request failed: connection refused");
              fr_documents := None; fr_raw := None |} 0 eq_refl).
Defined.

Lemma fetch_both_systems_error_excludes_chunks_witness :
  @VectorServiceCaller.fetch_both_systems _ scripted_http (lit "capital?") None None 10
    [inr (ok_response nested_body, 12); inr (not_found_response, 7)] =
    (inr ({| chunks := [passage "Rome is the capital of Italy."]; time_ms := 12;
             error := None |},
          {| chunks := []; time_ms := 7;
             error := Some (lit "Status 404: no such index") |}), []) /\
  ((has_error {| chunks := []; time_ms := 7;
                 error := Some (lit "Status 404: no such index") |} = true /\
    @chunks {| chunks := []; time_ms := 7;
               error := Some (lit "Status 404: no such index") |} = []) \/
   error {| chunks := []; time_ms := 7;
            error := Some (lit "Status 404: no such index") |} = None).
Proof.
  split; [reflexivity |].
  exact (@fetch_both_systems_error_excludes_chunks _ scripted_http (lit "capital?")
           None None 10
           [inr (ok_response nested_body, 12); inr (not_found_response, 7)] []
           ({| chunks := [passage "Rome is the capital of Italy."]; time_ms := 12;
               error := None |},
            {| chunks := []; time_ms := 7;
               error := Some (lit "Status 404: no such index") |})
           Reranked eq_refl).
Defined.

Lemma fetch_chunks_status_error_not_retried_witness :
  @VectorServiceCaller.fetch_chunks _ scripted_http (lit "capital?") None None 10 true
    [inr (not_found_response, 7); inr (ok_response nested_body, 9)] =
  (inr ({| fr_error := Some (lit "Status 404: no such index");
           fr_documents := None; fr_raw := None |}, 7),
   [inr (ok_response nested_body, 9)]).
Proof.
  exact (@fetch_chunks_status_error_not_retried _ scripted_http (lit "capital?") None
           None 10 true
           [inr (not_found_response, 7); inr (ok_response nested_body, 9)]
           [inr (ok_response nested_body, 9)]
           not_found_response 7 eq_refl ltac:(discriminate)).
Defined.

Lemma fetch_chunks_non_object_body_raises_witness :
  @VectorServiceCaller.fetch_chunks _ scripted_http (lit "capital?") None None 10 false
    [inr (ok_response BodyOther, 12)] = (inl (AttributeError "keys"), []).
Proof.
  exact (@fetch_chunks_non_object_body_raises _ scripted_http (lit "capital?") None
           None 10 false [inr (ok_response BodyOther, 12)] []
           (ok_response BodyOther) 12 eq_refl eq_refl eq_refl).
Defined.

Lemma outage_batch_has_no_report_witness :
  exists records w',
    @batch_evaluate ascii_unicode dead_services [question1; question2] [] [] tt =
      (inr ({| columns := []; rows := [] |}, records), w') /\
    length records = 2%nat.
Proof.
  destruct (@outage_batch_has_no_report ascii_unicode (constant_ttest NaN NaN) unit
              dead_http (fun _ w => ([], w)) unrelated_cosine (fun _ _ w => ([], w))
              [question1; question2] [] [] tt) as (records & w' & Hrun & Hlen & _).
  - intros url payload timeout w0. eexists _, _. reflexivity.
  - repeat constructor; eexists _, _, _; apply make_question_keys.
  - exists records, w'. split; assumption.
Defined.

Lemma non_object_body_drops_question_witness :
  @batch_evaluate ascii_unicode offline_services [question1] [] []
    [inr (ok_response BodyOther, 12)] =
  (inr ({| columns := []; rows := [] |}, []), []).
Proof.
  exact (proj2 (@non_object_body_drops_question ascii_unicode _ scripted_http
                  (fun _ w => ([], w)) unrelated_cosine (fun _ _ w => ([], w))
                  question1 [] [] [inr (ok_response BodyOther, 12)] []
                  (lit "q1") (lit "What is the capital of France?")
                  (lit "Paris is the capital of France") (ok_response BodyOther) 12
                  (make_question_keys _ _ _) eq_refl eq_refl eq_refl)).
Defined.
